(** * tNav historic-schedule generator: a shallow embedding

    The development follows the three source files of [hist_sch_gen]:

    - [kwriter.py]    : the keyword emitter (module [Kwriter]);
    - [main_sch.py]   : the normalizer and the timeline walker (module [MainSch]);
    - [welltracks.py] : the trajectory compiler (module [Welltracks]).

    Python values that reach the emitter are kept dynamically typed ([pyval]),
    because the emitter only ever asks whether a value [is None] and what its
    [str] is.  Numeric table cells are [fnum]: the value of a float64 as a
    rational, or one of the two infinities, or NaN.  Division rounds its
    exact quotient to the nearest float64, as the hardware does. *)

From Stdlib Require Import ZArith QArith Qreduction Qabs Bool List Sorted Lia.
From Stdlib Require Import Strings.String Strings.Ascii Numbers.DecimalString.
Import ListNotations.

Set Implicit Arguments.

Open Scope string_scope.
Open Scope Z_scope.

(* ================================================================== *)
(** ** Text helpers *)

Module Text.

(** The line feed written by ['\n']. *)
Definition nl_char : ascii := Ascii.ascii_of_nat 10.
Definition nl : string := String nl_char EmptyString.

Definition is_nl (c : ascii) : bool := Ascii.eqb c nl_char.

(** [''.join(parts)]. *)
Definition cat (parts : list string) : string :=
  fold_right String.append EmptyString parts.

(** The lines of a text, each terminated by a line feed, as a reader of the
    written file sees them (a final line without terminator counts too). *)
Fixpoint lines (s : string) : list string :=
  match s with
  | EmptyString => []
  | String c s' =>
      if is_nl c then EmptyString :: lines s'
      else match lines s' with
           | [] => [String c EmptyString]
           | l :: ls => String c l :: ls
           end
  end.

Fixpoint no_nl (s : string) : bool :=
  match s with
  | EmptyString => true
  | String c s' => negb (is_nl c) && no_nl s'
  end.

(** [needle in hay] for Python strings. *)
Fixpoint contains (needle hay : string) : bool :=
  String.prefix needle hay
  || match hay with
     | EmptyString => false
     | String _ hay' => contains needle hay'
     end.

(** [str(n)] for a Python [int]. *)
Definition str_int (n : Z) : string := NilZero.string_of_int (Z.to_int n).

(** The format spec [:02] on a non-negative [int]: zero padded to width 2. *)
Definition fmt02 (n : Z) : string :=
  let s := str_int n in
  if (String.length s <? 2)%nat then "0" ++ s else s.


(** [s.split(sep)] for a one-character separator. *)
Fixpoint split_on (sep : ascii) (s : string) : list string :=
  match s with
  | EmptyString => [EmptyString]
  | String c s' =>
      if Ascii.eqb c sep then EmptyString :: split_on sep s'
      else match split_on sep s' with
           | [] => [String c EmptyString]
           | w :: ws => String c w :: ws
           end
  end.

Definition space : ascii := Ascii.ascii_of_nat 32.

(** [sep not in s] *)
Fixpoint without (sep : ascii) (s : string) : bool :=
  match s with
  | EmptyString => true
  | String c s' => negb (Ascii.eqb c sep) && without sep s'
  end.

(** A text whose last line, if it has any, is terminated. *)
Fixpoint complete (s : string) : bool :=
  match s with
  | EmptyString => true
  | String c s' =>
      match s' with
      | EmptyString => is_nl c
      | String _ _ => complete s'
      end
  end.

End Text.

(* ================================================================== *)
(** ** Numbers of the data tables *)

Module PyNum.

(** A cell of a float64 column. *)
Inductive fnum : Type :=
| Fin (q : Q)
| PInf
| NInf
| NaN.

Definition of_Z (z : Z) : fnum := Fin (inject_Z z).

Definition Qsgn (q : Q) : Z := Z.sgn (Qnum q).

(** *** Rounding to float64

    A finite float64 is a multiple of 2^-1074 with a significand of at most
    53 bits, below 2^1024.  [units a b] is the float64 nearest to the
    positive rational a/b, counted in multiples of 2^-1074 when [a] already
    carries that factor; ties go to the even significand. *)

(** a/b (b > 0) rounded to the nearest integer, ties to even. *)
Definition rne (a b : Z) : Z :=
  let f := a / b in
  match 2 * (a mod b) ?= b with
  | Lt => f
  | Gt => f + 1
  | Eq => if Z.even f then f else f + 1
  end.

Definition units (a b : Z) : Z :=
  let shift := Z.max 0 (Z.log2 (a / b) - 52) in
  rne a (b * 2 ^ shift) * 2 ^ shift.

Definition round_units (q : Q) : Z :=
  units (Qnum q * 2 ^ 1074) (Zpos (Qden q)).

(** The value of a number of units, in lowest terms so that equal values
    are equal terms. *)
Definition of_units (v : Z) : Q := Qred (v # 2 ^ 1074).

(** The float64 nearest to a rational; from 2^1024 on it is infinite.  The
    sign of a zero is not kept. *)
Definition round64 (q : Q) : fnum :=
  match Qnum q with
  | 0 => Fin 0
  | Zpos _ =>
      let v := round_units q in
      if 2 ^ 2098 <=? v then PInf else Fin (of_units v)
  | Zneg _ =>
      let v := round_units (- q) in
      if 2 ^ 2098 <=? v then NInf else Fin (of_units (- v))
  end.

(** True division of two float64 columns: the exact quotient of the two
    values, rounded once. *)
Definition fdiv (a b : fnum) : fnum :=
  match a, b with
  | NaN, _ | _, NaN => NaN
  | Fin x, Fin y =>
      match Qsgn y with
      | 0 => match Qsgn x with
             | 0 => NaN
             | Zpos _ => PInf
             | Zneg _ => NInf
             end
      | _ => round64 (x / y)
      end
  | Fin _, (PInf | NInf) => Fin 0
  | (PInf | NInf), (PInf | NInf) => NaN
  | PInf, Fin y => match Qsgn y with Zneg _ => NInf | _ => PInf end
  | NInf, Fin y => match Qsgn y with Zneg _ => PInf | _ => NInf end
  end.

(** [x > 0]; every comparison with NaN is [False]. *)
Definition gt0 (x : fnum) : bool :=
  match x with
  | Fin q => match Qsgn q with Zpos _ => true | _ => false end
  | PInf => true
  | NInf | NaN => false
  end.

(** Equality of cells as [drop_duplicates] sees it (missing values match). *)
Definition eqb (x y : fnum) : bool :=
  match x, y with
  | Fin p, Fin q => Qeq_bool p q
  | PInf, PInf | NInf, NInf | NaN, NaN => true
  | _, _ => false
  end.

End PyNum.
Export PyNum.

(* ================================================================== *)
(** ** Exceptions *)

Inductive exn : Type :=
| KeyError
| ValueError
| AssertionError (msg : string).

Inductive result (A : Type) : Type :=
| Ok (a : A)
| Raise (e : exn).
Arguments Ok {A} a.
Arguments Raise {A} e.

(* ================================================================== *)
(** ** Dates ([datetime.date], [datetime.datetime]) and [calendar] *)

Module Calendar.

Record date : Type := mkdate { year : Z; month : Z; day : Z }.
Record time : Type := mktime { hour : Z; minute : Z; second : Z }.

(** What [dates_out] accepts: [Union[datetime.datetime, datetime.date]]. *)
Inductive timestamp : Type :=
| TDate (d : date)
| TDateTime (d : date) (t : time).

Definition ts_date (ts : timestamp) : date :=
  match ts with TDate d => d | TDateTime d _ => d end.

(** [getattr(timestamp, 'hour')] and friends: absent on a [date]. *)
Definition ts_time (ts : timestamp) : option time :=
  match ts with TDate _ => None | TDateTime _ t => Some t end.

Definition isleap (y : Z) : bool :=
  (y mod 4 =? 0) && (negb (y mod 100 =? 0) || (y mod 400 =? 0)).

(** [calendar.mdays]. *)
Definition mdays (m : Z) : Z :=
  match m with
  | 1 => 31 | 2 => 28 | 3 => 31 | 4 => 30 | 5 => 31 | 6 => 30
  | 7 => 31 | 8 => 31 | 9 => 30 | 10 => 31 | 11 => 30 | 12 => 31
  | _ => 0
  end.

(** [calendar.monthrange(year, month)[1]]. *)
Definition monthrange_days (y m : Z) : Z :=
  mdays m + (if (m =? 2) && isleap y then 1 else 0).

(** The invariant of a Python date object. *)
Definition valid_date (d : date) : Prop :=
  1 <= month d <= 12 /\ 1 <= day d <= monthrange_days (year d) (month d).

Definition valid_time (t : time) : Prop :=
  0 <= hour t < 24 /\ 0 <= minute t < 60 /\ 0 <= second t < 60.

Definition valid_timestamp (ts : timestamp) : Prop :=
  match ts with
  | TDate d => valid_date d
  | TDateTime d t => valid_date d /\ valid_time t
  end.

(** Comparison of two dates is comparison of their (year, month, day). *)
Definition date_compare (a b : date) : comparison :=
  match year a ?= year b with
  | Eq => match month a ?= month b with
          | Eq => day a ?= day b
          | c => c
          end
  | c => c
  end.

Definition date_eqb (a b : date) : bool :=
  match date_compare a b with Eq => true | _ => false end.
Definition date_ltb (a b : date) : bool :=
  match date_compare a b with Lt => true | _ => false end.
Definition date_leb (a b : date) : bool :=
  match date_compare a b with Gt => false | _ => true end.

(** Months counted from year 0. *)
Definition month_index (d : date) : Z := year d * 12 + (month d - 1).
Definition month_start (i : Z) : date := mkdate (i / 12) (i mod 12 + 1) 1.

(** [n] consecutive integers from [a]. *)
Fixpoint zseq (a : Z) (n : nat) : list Z :=
  match n with
  | O => []
  | S n' => a :: zseq (a + 1) n'
  end.

(** [pd.date_range(start, end, freq='1MS')] for bounds at midnight: every
    first-of-month from the first one not before [start] up to the last
    one not after [end]. *)
Definition date_range_MS (start end_ : date) : list date :=
  let first :=
    if date_leb start (month_start (month_index start))
    then month_index start else month_index start + 1 in
  let last := month_index end_ in
  map month_start (zseq first (Z.to_nat (last - first + 1))).

(** The order of dates spelled out. *)
Definition date_lt (a b : date) : Prop :=
  year a < year b
  \/ (year a = year b
      /\ (month a < month b \/ (month a = month b /\ day a < day b))).

(** [datetime._days_before_year]: days before January 1st of year [y]. *)
Definition days_before_year (y : Z) : Z :=
  let y := y - 1 in
  y * 365 + y / 4 - y / 100 + y / 400.

(** [datetime._DAYS_BEFORE_MONTH] *)
Definition DAYS_BEFORE_MONTH (m : Z) : Z :=
  match m with
  | 1 => 0 | 2 => 31 | 3 => 59 | 4 => 90 | 5 => 120 | 6 => 151
  | 7 => 181 | 8 => 212 | 9 => 243 | 10 => 273 | 11 => 304 | 12 => 334
  | _ => -1
  end.

(** [datetime._days_before_month] *)
Definition days_before_month (y m : Z) : Z :=
  DAYS_BEFORE_MONTH m + (if (2 <? m) && isleap y then 1 else 0).

(** [date.toordinal()]: the number of the day, counting from 1 Jan of year 1. *)
Definition toordinal (d : date) : Z :=
  days_before_year (year d) + days_before_month (year d) (month d) + day d.

End Calendar.
Export Calendar.

(* ================================================================== *)
(** ** [kwriter.py]: the keyword emitter *)

Module Kwriter.
Import Text.

(** The Python values handed to the emitter. *)
Inductive pyval : Type :=
| PNone
| PStr (s : string)
| PInt (n : Z)
| PFloat (x : fnum).

Definition is_none (v : pyval) : bool :=
  match v with PNone => true | _ => false end.

(** A keyword parameter with a default: [None] when the caller leaves it out,
    [Some v] when the caller passes [v] (which may itself be [PNone]). *)
Definition param (default : pyval) (passed : option pyval) : pyval :=
  match passed with Some v => v | None => default end.

(** Where a keyword is written: ['stdout'] or an open text file. *)
Inductive dest : Type := Stdout | TextIO.

Record sinks : Type := mksinks { stdout : string; outfile : string }.

Definition _write_to_dest (string : string) (d : dest) (w : sinks) : sinks :=
  match d with
  | Stdout => mksinks (stdout w ++ string ++ nl) (outfile w)
  | TextIO => mksinks (stdout w) (outfile w ++ string)
  end.

(** *** Argument records, one per emitter function.  The first field is
    the required [well_name]; every other field has a default in the
    signature and is [None] here when the caller does not pass it. *)

Record specs_args : Type := mkspecs {
  sp_well_name : pyval;
  sp_pad : option pyval;
  sp_coord_x : option pyval;
  sp_coord_y : option pyval;
  sp_ref_depth : option pyval;
  sp_phase : option pyval;
  sp_drainage_radius : option pyval;
  sp_special_inflow : option pyval;
  sp_eco_behavior : option pyval;
  sp_crossflow_flag : option pyval;
  sp_pres_table_num : option pyval;
  sp_dens_calc_type : option pyval;
  sp_fip_region : option pyval }.

Record wconprodh_args : Type := mkwconprodh {
  wp_well_name : pyval;
  wp_well_status : option pyval;
  wp_well_control : option pyval;
  wp_oil_rate_h : option pyval;
  wp_water_rate_h : option pyval;
  wp_gas_rate_h : option pyval;
  wp_vfp_num : option pyval;
  wp_alq : option pyval;
  wp_thp_h : option pyval;
  wp_bhp_h : option pyval;
  wp_wet_gas_rate_h : option pyval;
  wp_ngl_rate_h : option pyval }.

Record wconinjh_args : Type := mkwconinjh {
  wi_well_name : pyval;
  wi_injected_fluid : option pyval;
  wi_well_status : option pyval;
  wi_inj_rate_h : option pyval;
  wi_bhp_h : option pyval;
  wi_thp_h : option pyval;
  wi_vfp_num : option pyval;
  wi_second_phase_concentration : option pyval;
  wi_surf_oil_part : option pyval;
  wi_surf_water_part : option pyval;
  wi_surf_gas_part : option pyval;
  wi_well_control : option pyval }.

Record wefac_args : Type := mkwefac {
  we_well_name : pyval;
  we_efficiency_factor : option pyval;
  we_apply_to_network : option pyval }.

Record perf_args : Type := mkperf {
  pf_well_name : pyval;
  pf_branch_num : option pyval;
  pf_lower_depth : option pyval;
  pf_upper_depth : option pyval;
  pf_depth_type : option pyval;
  pf_status : option pyval;
  pf_sat_num : option pyval;
  pf_trans_factor : option pyval;
  pf_well_diam : option pyval;
  pf_effective_kh : option pyval;
  pf_skin : option pyval;
  pf_d_factor : option pyval;
  pf_connection_factor_mult : option pyval;
  pf_completion_type : option pyval }.

(** *** [locals()] after [pop('dest')]: the parameters in signature order,
    defaults filled in. *)

Definition specs_locals (a : specs_args) : list (string * pyval) :=
  [ ("well_name", sp_well_name a);
    ("pad", param PNone (sp_pad a));
    ("coord_x", param PNone (sp_coord_x a));
    ("coord_y", param PNone (sp_coord_y a));
    ("ref_depth", param PNone (sp_ref_depth a));
    ("phase", param (PStr "LIQ") (sp_phase a));
    ("drainage_radius", param PNone (sp_drainage_radius a));
    ("special_inflow", param PNone (sp_special_inflow a));
    ("eco_behavior", param PNone (sp_eco_behavior a));
    ("crossflow_flag", param PNone (sp_crossflow_flag a));
    ("pres_table_num", param PNone (sp_pres_table_num a));
    ("dens_calc_type", param PNone (sp_dens_calc_type a));
    ("fip_region", param PNone (sp_fip_region a)) ].

Definition wconprodh_locals (a : wconprodh_args) : list (string * pyval) :=
  [ ("well_name", wp_well_name a);
    ("well_status", param (PStr "SHUT") (wp_well_status a));
    ("well_control", param (PStr "LRAT") (wp_well_control a));
    ("oil_rate_h", param PNone (wp_oil_rate_h a));
    ("water_rate_h", param PNone (wp_water_rate_h a));
    ("gas_rate_h", param PNone (wp_gas_rate_h a));
    ("vfp_num", param PNone (wp_vfp_num a));
    ("alq", param PNone (wp_alq a));
    ("thp_h", param PNone (wp_thp_h a));
    ("bhp_h", param PNone (wp_bhp_h a));
    ("wet_gas_rate_h", param PNone (wp_wet_gas_rate_h a));
    ("ngl_rate_h", param PNone (wp_ngl_rate_h a)) ].

Definition wconinjh_locals (a : wconinjh_args) : list (string * pyval) :=
  [ ("well_name", wi_well_name a);
    ("injected_fluid", param (PStr "WATER") (wi_injected_fluid a));
    ("well_status", param (PStr "SHUT") (wi_well_status a));
    ("inj_rate_h", param PNone (wi_inj_rate_h a));
    ("bhp_h", param PNone (wi_bhp_h a));
    ("thp_h", param PNone (wi_thp_h a));
    ("vfp_num", param PNone (wi_vfp_num a));
    ("second_phase_concentration",
      param PNone (wi_second_phase_concentration a));
    ("surf_oil_part", param PNone (wi_surf_oil_part a));
    ("surf_water_part", param PNone (wi_surf_water_part a));
    ("surf_gas_part", param PNone (wi_surf_gas_part a));
    ("well_control", param (PStr "RATE") (wi_well_control a)) ].

Definition wefac_locals (a : wefac_args) : list (string * pyval) :=
  [ ("well_name", we_well_name a);
    ("efficiency_factor", param (PInt 1) (we_efficiency_factor a));
    ("apply_to_network", param PNone (we_apply_to_network a)) ].

Definition perf_locals (a : perf_args) : list (string * pyval) :=
  [ ("well_name", pf_well_name a);
    ("branch_num", param PNone (pf_branch_num a));
    ("lower_depth", param PNone (pf_lower_depth a));
    ("upper_depth", param PNone (pf_upper_depth a));
    ("depth_type", param PNone (pf_depth_type a));
    ("status", param PNone (pf_status a));
    ("sat_num", param PNone (pf_sat_num a));
    ("trans_factor", param PNone (pf_trans_factor a));
    ("well_diam", param PNone (pf_well_diam a));
    ("effective_kh", param PNone (pf_effective_kh a));
    ("skin", param (PInt 0) (pf_skin a));
    ("d_factor", param PNone (pf_d_factor a));
    ("connection_factor_mult", param (PInt 1) (pf_connection_factor_mult a));
    ("completion_type", param PNone (pf_completion_type a)) ].

(** [month_codes], the dictionary of [dates_out]. *)
Definition month_codes (m : Z) : option string :=
  match m with
  | 1 => Some "JAN" | 2 => Some "FEB" | 3 => Some "MAR" | 4 => Some "APR"
  | 5 => Some "MAY" | 6 => Some "JUN" | 7 => Some "JLY" | 8 => Some "AUG"
  | 9 => Some "SEP" | 10 => Some "OCT" | 11 => Some "NOV" | 12 => Some "DEC"
  | _ => None
  end.

(** The tail of the date line: empty when the [hour] attribute is missing. *)
Definition hour_tail (ts : timestamp) : string :=
  match ts_time ts with
  | None => ""
  | Some t =>
      fmt02 (hour t) ++ ":" ++ fmt02 (minute t) ++ ":" ++ fmt02 (second t)
      ++ " "
  end.

(** The text [dates_out] builds; a month outside the dictionary raises. *)
Definition dates_keyword (ts : timestamp) : result string :=
  let day := day (ts_date ts) in
  match month_codes (month (ts_date ts)) with
  | None => Raise KeyError
  | Some month =>
      let year := year (ts_date ts) in
      let keyword := "DATES" ++ nl in
      let keyword :=
        keyword ++ fmt02 day ++ " " ++ month ++ " " ++ str_int year ++ " "
        ++ hour_tail ts ++ "/" ++ nl in
      let keyword := keyword ++ "/" ++ nl ++ nl in
      Ok keyword
  end.

(** [generic_kw_out]: keyword and argument string verbatim. *)
Definition generic_kw_keyword (keyword args : string) : string :=
  let keyword := keyword ++ nl in
  let keyword := keyword ++ args ++ nl ++ "/" ++ nl ++ nl in
  keyword.

Section Emitter.

(** [str] of a float is Python's shortest round-trip representation; it
    stays a parameter of the emitter. *)
Variable repr_float : fnum -> string.

Definition str (v : pyval) : string :=
  match v with
  | PNone => "None"
  | PStr s => s
  | PInt n => str_int n
  | PFloat x => repr_float x
  end.

(** The body of the loop shared by the four [W...]/[COMPDATMD] writers:
    [keyword += '* ' if val is None else f'{str(val)} ']. *)
Definition add_arg (keyword : string) (keyword_arg : string * pyval)
  : string :=
  let '(arg, val) := keyword_arg in
  keyword ++ (if is_none val then "* " else str val ++ " ").

(** The loop body of [specs_out]:
    [keyword += (str(val) if val is not None else '*') + ' ']. *)
Definition add_spec_arg (keyword : string) (keyword_arg : string * pyval)
  : string :=
  let '(arg, val) := keyword_arg in
  keyword ++ (if negb (is_none val) then str val else "*") ++ " ".

Definition specs_keyword (a : specs_args) : string :=
  let input_args := specs_locals a in
  let keyword := "WELSPECS" ++ nl in
  let keyword := fold_left add_spec_arg input_args keyword in
  let keyword := keyword ++ "/" ++ nl in
  let keyword := keyword ++ "/" ++ nl ++ nl in
  keyword.

Definition wconprodh_keyword (a : wconprodh_args) : string :=
  let initial_args := wconprodh_locals a in
  let keyword := "WCONHIST" ++ nl in
  let keyword := fold_left add_arg initial_args keyword in
  let keyword := keyword ++ "/" ++ nl in
  let keyword := keyword ++ "/" ++ nl ++ nl in
  keyword.

Definition wconinjh_keyword (a : wconinjh_args) : string :=
  let initial_args := wconinjh_locals a in
  let keyword := "WCONINJH" ++ nl in
  let keyword := fold_left add_arg initial_args keyword in
  let keyword := keyword ++ "/" ++ nl in
  let keyword := keyword ++ "/" ++ nl ++ nl in
  keyword.

Definition wefac_keyword (a : wefac_args) : string :=
  let initial_args := wefac_locals a in
  let keyword := "WEFAC" ++ nl in
  let keyword := fold_left add_arg initial_args keyword in
  let keyword := keyword ++ "/" ++ nl in
  let keyword := keyword ++ "/" ++ nl ++ nl in
  keyword.

Definition perf_keyword (a : perf_args) : string :=
  let initial_args := perf_locals a in
  let keyword := "COMPDATMD" ++ nl in
  let keyword := fold_left add_arg initial_args keyword in
  let keyword := keyword ++ "/" ++ nl in
  let keyword := keyword ++ "/" ++ nl ++ nl in
  keyword.

(** One trajectory point is the tuple (X, Y, MD, Z). *)
Definition coord_point : Type := (pyval * pyval * pyval * pyval)%type.

Definition add_coord (keyword : string) (p : coord_point) : string :=
  let '(coord_x, coord_y, md, coord_z) := p in
  keyword ++ str coord_x ++ " " ++ str coord_y ++ " " ++ str coord_z
  ++ " " ++ str md ++ " " ++ nl.

Definition traj_keyword (well_name : pyval) (coordinates : list coord_point)
  : string :=
  let keyword := "WELLTRACK " ++ str well_name ++ nl in
  let keyword := fold_left add_coord coordinates keyword in
  let keyword := keyword ++ "/" ++ nl ++ nl in
  keyword.

(** *** The writers themselves: build the text, append it to the sink. *)

Definition specs_out a (d : dest) (w : sinks) : sinks :=
  _write_to_dest (specs_keyword a) d w.
Definition traj_out well_name coordinates (d : dest) (w : sinks) : sinks :=
  _write_to_dest (traj_keyword well_name coordinates) d w.
Definition dates_out ts (d : dest) (w : sinks) : result sinks :=
  match dates_keyword ts with
  | Ok keyword => Ok (_write_to_dest keyword d w)
  | Raise e => Raise e
  end.
Definition wconprodh_out a (d : dest) (w : sinks) : sinks :=
  _write_to_dest (wconprodh_keyword a) d w.
Definition wconinjh_out a (d : dest) (w : sinks) : sinks :=
  _write_to_dest (wconinjh_keyword a) d w.
Definition wefac_out a (d : dest) (w : sinks) : sinks :=
  _write_to_dest (wefac_keyword a) d w.
Definition perf_out a (d : dest) (w : sinks) : sinks :=
  _write_to_dest (perf_keyword a) d w.
Definition generic_kw_out keyword args (d : dest) (w : sinks) : sinks :=
  _write_to_dest (generic_kw_keyword keyword args) d w.

End Emitter.

End Kwriter.
Export Kwriter.

(* ================================================================== *)
(** ** The trace of emitter calls

    Both scripts do nothing with the emitter but call its writers one after
    the other on the same open file.  A run is therefore described by the
    list of calls it makes (the emitted Records), and the file by running
    that list. *)

Module Trace.

Inductive call : Type :=
| CallSpecs (a : specs_args)
| CallTraj (well_name : pyval) (coordinates : list coord_point)
| CallDates (ts : timestamp)
| CallWconprodh (a : wconprodh_args)
| CallWconinjh (a : wconinjh_args)
| CallWefac (a : wefac_args)
| CallPerf (a : perf_args)
| CallGeneric (keyword args : string).

(** Which loop variable a call was made for (not part of the output). *)
Inductive origin : Type :=
| FromTimestep
| FromPerf (index : nat)
| FromProduction (index : nat)
| FromManOps (index : nat)
| FromWell (name : string).

Definition emission : Type := (origin * call)%type.

Section Run.
Variable repr_float : fnum -> string.

Definition run_call (c : call) (w : sinks) : result sinks :=
  match c with
  | CallSpecs a => Ok (specs_out repr_float a TextIO w)
  | CallTraj n cs => Ok (traj_out repr_float n cs TextIO w)
  | CallDates ts => dates_out ts TextIO w
  | CallWconprodh a => Ok (wconprodh_out repr_float a TextIO w)
  | CallWconinjh a => Ok (wconinjh_out repr_float a TextIO w)
  | CallWefac a => Ok (wefac_out repr_float a TextIO w)
  | CallPerf a => Ok (perf_out repr_float a TextIO w)
  | CallGeneric k a => Ok (generic_kw_out k a TextIO w)
  end.

(** Calls run in order; the first exception stops the run and leaves the
    file as it was at that point. *)
Fixpoint run_calls (cs : list call) (w : sinks) : option exn * sinks :=
  match cs with
  | [] => (None, w)
  | c :: cs' =>
      match run_call c w with
      | Ok w' => run_calls cs' w'
      | Raise e => (Some e, w)
      end
  end.
End Run.

(** [df.iterrows()]: the rows of a table with their position. *)
Definition iterrows {R : Type} (df : list R) : list (nat * R) :=
  combine (seq 0 (List.length df)) df.

End Trace.
Export Trace.

(* ================================================================== *)
(** ** [main_sch.py]: normalizer and timeline walker *)

Module MainSch.

(** *** Tables.  Column names of the source are given with each field. *)

(** [well_table.csv] *)
Record well_row : Type := mkwell {
  wt_model_name : string;     (* 'Название в модели' *)
  wt_mer_name : string;       (* 'Скважина в МЭР' *)
  wt_field : string;          (* 'Привязка к залежи' *)
  wt_pad : pyval }.           (* 'КП в модели' *)

(** [production_*.csv] *)
Record prod_csv : Type := mkprodcsv {
  pc_WELL : string;           (* '*WELL' *)
  pc_DATE : date;
  pc_OIL : fnum;
  pc_WATER : fnum;
  pc_GAS : fnum;
  pc_WINJ : fnum;
  pc_DAYS : fnum;
  pc_BHP : fnum;
  pc_THP : fnum }.

(** A row of [production] once merged and preprocessed. *)
Record prod_row : Type := mkprod {
  WELL : string;
  DATE : date;
  OIL : fnum;
  WATER : fnum;
  GAS : fnum;
  WINJ : fnum;
  DAYS : fnum;
  BHP : fnum;
  THP : fnum;
  month_length : Z;
  prod_well : option well_row }.   (* the joined well_table columns *)

(** [perf_*_all.csv] *)
Record perf_csv : Type := mkperfcsv {
  fc_well : string;           (* 'Скважина' *)
  fc_date : date;             (* 'Дата' *)
  fc_depth_start : fnum;      (* 'Глубина начала интервала перфорации(md), м' *)
  fc_depth_end : fnum;        (* 'Глубина конца интервала перфорации(md), м' *)
  fc_type : option string }.  (* 'Тип перфорации', None when missing *)

(** A perforation row after [preprocess_perf]. *)
Record perf_fact : Type := mkperffact {
  fact_csv : perf_csv;          (* with the date floored *)
  perf_flag : bool }.

(** A row of [perf] after the right join: the perforation columns are
    missing for a well of the table that has no perforation. *)
Record perf_row : Type := mkperfrow {
  perf_cols : option perf_fact;
  perf_well : well_row }.

(** [man_ops.csv] *)
Record manop_row : Type := mkmanop {
  mo_date : date;             (* 'Дата' *)
  mo_field : string;          (* 'Месторождение' *)
  mo_keyword : string;        (* 'Ключевое слово' *)
  mo_args : string }.         (* 'Аргумент' *)

(** *** Joins *)

(** [left.merge(right, 'left', ...)]: every left row, once per match, or
    once with the right columns missing. *)
Definition merge_left {L R : Type} (matches : L -> R -> bool)
           (left : list L) (right : list R) : list (L * option R) :=
  flat_map (fun l =>
              match filter (matches l) right with
              | [] => [(l, None)]
              | ms => map (fun r => (l, Some r)) ms
              end) left.

(** [left.merge(right, 'right', ...)]: every right row, once per match, or
    once with the left columns missing; left rows without a match go. *)
Definition merge_right {L R : Type} (matches : L -> R -> bool)
           (left : list L) (right : list R) : list (option L * R) :=
  flat_map (fun r =>
              match filter (fun l => matches l r) left with
              | [] => [(None, r)]
              | ms => map (fun l => (Some l, r)) ms
              end) right.

(** *** The normalizer *)

(** [df['month_length'] = df.apply(..., axis=1)]: on a frame without rows
    [apply] gives back a frame instead of a column, and the assignment
    raises ValueError.  [preprocess_prod_raises] tells when the function
    raises; [preprocess_prod] is what it returns when it does not. *)
Definition preprocess_prod_raises (df : list (prod_csv * option well_row))
  : bool :=
  match df with [] => true | _ :: _ => false end.

Definition preprocess_prod (df : list (prod_csv * option well_row))
  : list prod_row :=
  map (fun '(row, w) =>
         {| WELL := pc_WELL row;
            DATE := pc_DATE row;
            OIL := fdiv (pc_OIL row) (pc_DAYS row);
            WATER := fdiv (pc_WATER row) (pc_DAYS row);
            GAS := fdiv (pc_GAS row) (pc_DAYS row);
            WINJ := fdiv (pc_WINJ row) (pc_DAYS row);
            DAYS := pc_DAYS row;
            BHP := pc_BHP row;
            THP := pc_THP row;
            month_length :=
              monthrange_days (year (pc_DATE row)) (month (pc_DATE row));
            prod_well := w |}) df.

(** The marker looked for in 'Тип перфорации'. *)
Definition perf_marker : string := "ПЕРФ".

Definition preprocess_perf (df : list perf_csv) : list perf_fact :=
  map (fun row =>
         let value := fc_date row in
         {| fact_csv :=
              {| fc_well := fc_well row;
                 fc_date := mkdate (year value) (month value) 1;
                 fc_depth_start := fc_depth_start row;
                 fc_depth_end := fc_depth_end row;
                 fc_type := fc_type row |};
            perf_flag :=
              match fc_type row with
              | None => true
              | Some row => if Text.contains perf_marker row then true
                            else false
              end |}) df.

Definition preprocess_manops (df : list manop_row) : list manop_row := df.

(** *** [drop_duplicates] on the raw perforation rows *)

Definition opt_string_eqb (a b : option string) : bool :=
  match a, b with
  | None, None => true
  | Some x, Some y => String.eqb x y
  | _, _ => false
  end.

Definition perf_csv_eqb (a b : perf_csv) : bool :=
  String.eqb (fc_well a) (fc_well b)
  && date_eqb (fc_date a) (fc_date b)
  && PyNum.eqb (fc_depth_start a) (fc_depth_start b)
  && PyNum.eqb (fc_depth_end a) (fc_depth_end b)
  && opt_string_eqb (fc_type a) (fc_type b).

(** Keeps the first of equal rows. *)
Fixpoint drop_duplicates_from (seen : list perf_csv) (df : list perf_csv)
  : list perf_csv :=
  match df with
  | [] => []
  | row :: df' =>
      if existsb (perf_csv_eqb row) seen then drop_duplicates_from seen df'
      else row :: drop_duplicates_from (row :: seen) df'
  end.

Definition drop_duplicates (df : list perf_csv) : list perf_csv :=
  drop_duplicates_from [] df.

(** *** The timeline walker (the body of [with open(...) as outfile]) *)

Section Walker.

Variable production : list prod_row.
Variable perf : list perf_row.
Variable man_ops : list manop_row.

(** The date of a joined perforation row; missing for a well without
    perforations, and then every comparison with it is [False]. *)
Definition perf_date (row : perf_row) : option date :=
  option_map (fun f => fc_date (fact_csv f)) (perf_cols row).

Definition date_lt_ts (d : option date) (timestep : date) : bool :=
  match d with Some d => date_ltb d timestep | None => false end.
Definition date_eq_ts (d : option date) (timestep : date) : bool :=
  match d with Some d => date_eqb d timestep | None => false end.

(** A missing cell of a float column reads as NaN. *)
Definition perf_depth (get : perf_csv -> fnum) (row : perf_row) : fnum :=
  match perf_cols row with Some f => get (fact_csv f) | None => NaN end.

(** [row['perf_flag']] is NaN, hence true, on a row without perforation. *)
Definition row_perf_flag (row : perf_row) : bool :=
  match perf_cols row with Some f => perf_flag f | None => true end.

Definition well_diam_const : fnum := Fin (16 # 100).

(** The [perf_out(...)] call of both perforation loops. *)
Definition perf_call (row : perf_row) : call :=
  CallPerf
    {| pf_well_name := PStr (wt_model_name (perf_well row));
       pf_branch_num := None;
       pf_lower_depth := Some (PFloat (perf_depth fc_depth_start row));
       pf_upper_depth := Some (PFloat (perf_depth fc_depth_end row));
       pf_depth_type := Some (PStr "MD");
       pf_status :=
         Some (PStr (if row_perf_flag row then "OPEN" else "SHUT"));
       pf_sat_num := None;
       pf_trans_factor := None;
       pf_well_diam := Some (PFloat well_diam_const);
       pf_effective_kh := None;
       pf_skin := None;
       pf_d_factor := None;
       pf_connection_factor_mult := None;
       pf_completion_type := None |}.

Definition perf_loop (perf_slice : list (nat * perf_row)) : list emission :=
  map (fun '(i, row) => (FromPerf i, perf_call row)) perf_slice.

(** [row[col] if row[col] > 0 else '*'] *)
Definition or_star (x : fnum) : pyval :=
  if gt0 x then PFloat x else PStr "*".

Definition wconinjh_call (row : prod_row) : call :=
  CallWconinjh
    {| wi_well_name := PStr (WELL row);
       wi_injected_fluid := Some (PStr "WATER");
       wi_well_status := Some (PStr "OPEN");
       wi_inj_rate_h := Some (PFloat (WINJ row));
       wi_bhp_h := Some (or_star (BHP row));
       wi_thp_h := Some (or_star (THP row));
       wi_vfp_num := None;
       wi_second_phase_concentration := None;
       wi_surf_oil_part := None;
       wi_surf_water_part := None;
       wi_surf_gas_part := None;
       wi_well_control := Some (PStr "RATE") |}.

Definition wconprodh_call (row : prod_row) : call :=
  CallWconprodh
    {| wp_well_name := PStr (WELL row);
       wp_well_status := Some (PStr "OPEN");
       wp_well_control := Some (PStr "LRAT");
       wp_oil_rate_h := Some (PFloat (OIL row));
       wp_water_rate_h := Some (PFloat (WATER row));
       wp_gas_rate_h := Some (PFloat (GAS row));
       wp_vfp_num := None;
       wp_alq := None;
       wp_thp_h := Some (or_star (THP row));
       wp_bhp_h := Some (or_star (BHP row));
       wp_wet_gas_rate_h := None;
       wp_ngl_rate_h := None |}.

Definition efficiency_factor (row : prod_row) : fnum :=
  fdiv (DAYS row) (of_Z (month_length row)).

Definition wefac_call (row : prod_row) : call :=
  CallWefac
    {| we_well_name := PStr (WELL row);
       we_efficiency_factor := Some (PFloat (efficiency_factor row));
       we_apply_to_network := None |}.

(** The body of the main-controls loop for one production row. *)
Definition production_row_body (ir : nat * prod_row) : list emission :=
  let '(i, row) := ir in
  let write_weff := false in
  let '(write_weff, inj) :=
    if gt0 (WINJ row)
    then (true, [(FromProduction i, wconinjh_call row)])
    else (write_weff, []) in
  let '(write_weff, prod) :=
    if gt0 (OIL row)
    then (true, [(FromProduction i, wconprodh_call row)])
    else (write_weff, []) in
  let weff :=
    if write_weff then [(FromProduction i, wefac_call row)] else [] in
  inj ++ prod ++ weff.

Definition manop_body (ir : nat * manop_row) : list emission :=
  let '(i, row) := ir in
  [(FromManOps i, CallGeneric (mo_keyword row) (mo_args row))].

(** The three resets written after each [DATES]. *)
Definition reset_wconprodh : call :=
  CallWconprodh
    (mkwconprodh (PStr "*") (Some (PStr "SHUT")) (Some (PStr "LRAT"))
                 None None None None None None None None None).
Definition reset_wconinjh : call :=
  CallWconinjh
    (mkwconinjh (PStr "*") (Some (PStr "WATER")) (Some (PStr "SHUT"))
                None None None None None None None None None).
Definition reset_wefac : call :=
  CallWefac (mkwefac (PStr "*") (Some (PInt 1)) None).

(** One iteration of the timestep loop: what it writes, given the value
    of [first_month_flag] on entry. *)
Definition timestep_body (first_month_flag : bool) (timestep : date)
  : list emission :=
  let pre :=
    if first_month_flag then
      let perf_slice :=
        filter (fun ir => date_lt_ts (perf_date (snd ir)) timestep)
               (iterrows perf) in
      perf_loop perf_slice
    else [] in
  let header :=
    if negb first_month_flag then
      [ (FromTimestep, CallDates (TDate timestep));
        (FromTimestep, reset_wconprodh);
        (FromTimestep, reset_wconinjh);
        (FromTimestep, reset_wefac) ]
    else [] in
  let production_slice :=
    filter (fun ir => date_eqb (DATE (snd ir)) timestep)
           (iterrows production) in
  let perf_slice :=
    filter (fun ir => date_eq_ts (perf_date (snd ir)) timestep)
           (iterrows perf) in
  let man_ops_slice :=
    filter (fun ir => date_eqb (mo_date (snd ir)) timestep)
           (iterrows man_ops) in
  pre ++ header
  ++ perf_loop perf_slice
  ++ flat_map production_row_body production_slice
  ++ flat_map manop_body man_ops_slice.

(** The loop state: [first_month_flag] and everything written so far. *)
Record walker_state : Type := mkwalker {
  first_month_flag : bool;
  written : list emission }.

Definition timestep_step (st : walker_state) (timestep : date)
  : walker_state :=
  {| first_month_flag := false;
     written := written st ++ timestep_body (first_month_flag st) timestep |}.

Definition walk (timesteps : list date) : walker_state :=
  fold_left timestep_step timesteps (mkwalker true []).

End Walker.

(** *** The script *)

(** [sys.argv[3..5]]; the two directories only name the files. *)
Record argv : Type := mkargv {
  start_date : date;
  end_date : date;
  field : string }.

(** The tables found in the input directory, dates already parsed. *)
Record input_directory : Type := mkinput {
  production_kmb : list prod_csv;
  production_tk : list prod_csv;
  well_table : list well_row;
  perf_kmb_all : list perf_csv;
  perf_tk_all : list perf_csv;
  man_ops_csv : list manop_row }.

Definition load_production (args : argv) (inp : input_directory)
  : list prod_row :=
  let production := (production_kmb inp ++ production_tk inp)%list in
  let production :=
    merge_left (fun l r => String.eqb (pc_WELL l) (wt_model_name r))
               production (well_table inp) in
  let production := preprocess_prod production in
  filter (fun row =>
            match prod_well row with
            | Some w => String.eqb (wt_field w) (field args)
            | None => false
            end) production.

Definition load_perf (args : argv) (inp : input_directory) : list perf_row :=
  let perf := (perf_kmb_all inp ++ perf_tk_all inp)%list in
  let perf := drop_duplicates perf in
  let perf := preprocess_perf perf in
  let perf :=
    merge_right (fun l r => String.eqb (fc_well (fact_csv l)) (wt_mer_name r))
                perf (well_table inp) in
  let perf := map (fun '(l, r) => mkperfrow l r) perf in
  filter (fun row => String.eqb (wt_field (perf_well row)) (field args)) perf.

Definition load_man_ops (args : argv) (inp : input_directory)
  : list manop_row :=
  let man_ops := preprocess_manops (man_ops_csv inp) in
  filter (fun row => String.eqb (mo_field row) (field args)) man_ops.

(** [perf[perf['Скважина'].isna()]] *)
Definition no_perforation (perf : list perf_row) : list perf_row :=
  filter (fun row => match perf_cols row with None => true | Some _ => false end)
         perf.

(** The text of a Python list of plain names, as an f-string prints it. *)
Definition list_repr (names : list string) : string :=
  "[" ++ String.concat ", " (map (fun n => "'" ++ n ++ "'") names) ++ "]".

Definition no_perforation_msg (perf_slice : list perf_row) : string :=
  "Wells " ++ list_repr (map (fun row => wt_model_name (perf_well row)) perf_slice)
  ++ " have no perforations".

(** The production frame as [preprocess_prod] receives it. *)
Definition merged_production (inp : input_directory)
  : list (prod_csv * option well_row) :=
  merge_left (fun l r => String.eqb (pc_WELL l) (wt_model_name r))
             (production_kmb inp ++ production_tk inp) (well_table inp).

(** The calls of a whole run, or the exception that ends it before the
    output file is opened: the ValueError of [preprocess_prod] on a
    production frame without rows, which comes first, or the AssertionError
    of the [assert] on the perforation table. *)
Definition schedule (args : argv) (inp : input_directory)
  : result (list emission) :=
  if preprocess_prod_raises (merged_production inp) then Raise ValueError
  else
    let production := load_production args inp in
    let perf := load_perf args inp in
    let perf_slice := no_perforation perf in
    if (List.length perf_slice <=? 1)%nat then
      let man_ops := load_man_ops args inp in
      Ok (written (walk production perf man_ops
                        (date_range_MS (start_date args) (end_date args))))
    else Raise (AssertionError (no_perforation_msg perf_slice)).

(** [__main__]: [w] holds HIST.SCH as it is before the run.  The file is
    opened, hence emptied, only after the tables are loaded and the
    [assert] has passed. *)
Definition main (repr_float : fnum -> string)
           (args : argv) (inp : input_directory) (w : sinks)
  : option exn * sinks :=
  match schedule args inp with
  | Raise e => (Some e, w)
  | Ok calls =>
      run_calls repr_float (map snd calls) (mksinks (stdout w) "")
  end.

End MainSch.
Export MainSch.

(* ================================================================== *)
(** ** [welltracks.py]: the trajectory compiler *)

Module Welltracks.

(** [traj_*_all.csv] *)
Record traj_csv : Type := mktrajcsv {
  tc_well : string;           (* 'Скважина' *)
  tc_X : pyval;               (* 'Координата X' *)
  tc_Y : pyval;               (* 'Координата Y' *)
  tc_MD : pyval;              (* 'MD' *)
  tc_Z : pyval }.             (* 'Z' *)

(** A row of [df] after the right join with the well table. *)
Record traj_row : Type := mktrajrow {
  traj_cols : option traj_csv;
  traj_well : well_row }.

(** [Series.unique()]: first occurrences, in order. *)
Fixpoint unique_from (seen : list string) (l : list string) : list string :=
  match l with
  | [] => []
  | x :: l' =>
      if existsb (String.eqb x) seen then unique_from seen l'
      else x :: unique_from (x :: seen) l'
  end.

Definition unique (l : list string) : list string := unique_from [] l.

(** [drop_duplicates('id_md')]: first row of each key. *)
Fixpoint drop_duplicates_by {R : Type} (key : R -> string)
         (seen : list string) (df : list R) : list R :=
  match df with
  | [] => []
  | row :: df' =>
      if existsb (String.eqb (key row)) seen
      then drop_duplicates_by key seen df'
      else row :: drop_duplicates_by key (key row :: seen) df'
  end.

(** A cell of a coordinate column: an int or a float as read from the file,
    NaN on a row that the join left without trajectory columns. *)
Definition cell (get : traj_csv -> pyval) (row : traj_row) : pyval :=
  match traj_cols row with Some t => get t | None => PFloat NaN end.

(** One tuple of [df_slice[[X, Y, MD, Z]].itertuples(...)]. *)
Definition row_tuple (row : traj_row) : coord_point :=
  (cell tc_X row, cell tc_Y row, cell tc_MD row, cell tc_Z row).

Definition welltrack_msg (well : string) : string :=
  "Welltrack for well " ++ well ++ " is missing".

Definition specs_call (well : string) (pad : pyval) : call :=
  CallSpecs
    {| sp_well_name := PStr well;
       sp_pad := Some pad;
       sp_coord_x := None;
       sp_coord_y := None;
       sp_ref_depth := None;
       sp_phase := None;
       sp_drainage_radius := None;
       sp_special_inflow := None;
       sp_eco_behavior := None;
       sp_crossflow_flag := None;
       sp_pres_table_num := None;
       sp_dens_calc_type := None;
       sp_fip_region := None |}.

Section Loop.
Variable df : list traj_row.

Definition df_slice_of (well : string) : list traj_row :=
  filter (fun row => String.eqb (wt_model_name (traj_well row)) well) df.

(** What one iteration writes, or the exception of its [assert]. *)
Definition well_body (well : string) : result (list emission) :=
  let df_slice := df_slice_of well in
  if (1 <? List.length df_slice)%nat then
    match df_slice with
    | first_valid :: _ =>
        Ok [ (FromWell well,
              specs_call well (wt_pad (traj_well first_valid)));
             (FromWell well,
              CallTraj (PStr well) (map row_tuple df_slice)) ]
    | [] => Raise KeyError
    end
  else Raise (AssertionError (welltrack_msg well)).

(** The loop over the wells: the pair of the exception that ended it, if
    any, and what had been written by then. *)
Fixpoint welltrack_loop (wells : list string) (written : list emission)
  : option exn * list emission :=
  match wells with
  | [] => (None, written)
  | well :: wells' =>
      match well_body well with
      | Ok out => welltrack_loop wells' (written ++ out)%list
      | Raise e => (Some e, written)
      end
  end.

Definition welltracks : option exn * list emission :=
  welltrack_loop
    (unique (map (fun row => wt_model_name (traj_well row)) df)) [].

End Loop.

(** Lines 19-31 of the script: the table the loop runs over. *)
Definition load_df (repr_float : fnum -> string) (field : string)
           (traj_kmb_all traj_tk_all : list traj_csv)
           (well_table : list well_row) : list traj_row :=
  let df := (traj_kmb_all ++ traj_tk_all)%list in
  let id_md := fun row => tc_well row ++ str repr_float (tc_MD row) in
  let df := drop_duplicates_by id_md [] df in
  let df :=
    merge_right (fun l r => String.eqb (tc_well l) (wt_mer_name r))
                df well_table in
  let df := map (fun '(l, r) => mktrajrow l r) df in
  filter (fun row => String.eqb (wt_field (traj_well row)) field) df.

(** [__main__]: WELLTRACK.INC is opened before the loop starts. *)
Definition main (repr_float : fnum -> string) (df : list traj_row)
           (w : sinks) : option exn * sinks :=
  let '(e, calls) := welltracks df in
  let '(e', w') :=
    run_calls repr_float (map snd calls) (mksinks (stdout w) "") in
  (match e' with Some x => Some x | None => e end, w').

End Welltracks.

(* ================================================================== *)
(** ** The emitted Records, read back from the calls *)

Module Records.
Import Text Welltracks.

(** *** The tokens and the text of a call *)

(** The token the writers put at one position. *)
Definition tok (repr_float : fnum -> string) (val : pyval) : string :=
  if is_none val then "*" else str repr_float val.

Definition tokens (repr_float : fnum -> string)
           (locals : list (string * pyval)) : list string :=
  map (fun kv => tok repr_float (snd kv)) locals.

(** The five single-line control Records: keyword name and [locals()]. *)
Definition positional (c : call) : option (string * list (string * pyval)) :=
  match c with
  | CallSpecs a => Some ("WELSPECS", specs_locals a)
  | CallWconprodh a => Some ("WCONHIST", wconprodh_locals a)
  | CallWconinjh a => Some ("WCONINJH", wconinjh_locals a)
  | CallWefac a => Some ("WEFAC", wefac_locals a)
  | CallPerf a => Some ("COMPDATMD", perf_locals a)
  | CallTraj _ _ | CallDates _ | CallGeneric _ _ => None
  end.

(** The text a call appends to its destination. *)
Definition call_keyword (repr_float : fnum -> string) (c : call)
  : result string :=
  match c with
  | CallSpecs a => Ok (specs_keyword repr_float a)
  | CallTraj n cs => Ok (traj_keyword repr_float n cs)
  | CallDates ts => dates_keyword ts
  | CallWconprodh a => Ok (wconprodh_keyword repr_float a)
  | CallWconinjh a => Ok (wconinjh_keyword repr_float a)
  | CallWefac a => Ok (wefac_keyword repr_float a)
  | CallPerf a => Ok (perf_keyword repr_float a)
  | CallGeneric k a => Ok (generic_kw_keyword k a)
  end.

Definition call_text (repr_float : fnum -> string) (c : call) : string :=
  match call_keyword repr_float c with Ok k => k | Raise _ => "" end.

Definition calls_text (repr_float : fnum -> string) (cs : list call) : string :=
  cat (map (call_text repr_float) cs).

(** The argument line of a control Record: every token followed by a space,
    then the slash that closes the line. *)
Definition argument_line (repr_float : fnum -> string)
           (locals : list (string * pyval)) : string :=
  cat (map (fun t => t ++ " ") (tokens repr_float locals)) ++ "/".

(** The optional parameters of a control Record in signature order: the
    default of the signature and what the caller passed. *)
Definition optional_fields (c : call) : list (pyval * option pyval) :=
  match c with
  | CallSpecs a =>
      [ (PNone, sp_pad a); (PNone, sp_coord_x a); (PNone, sp_coord_y a);
        (PNone, sp_ref_depth a); (PStr "LIQ", sp_phase a);
        (PNone, sp_drainage_radius a); (PNone, sp_special_inflow a);
        (PNone, sp_eco_behavior a); (PNone, sp_crossflow_flag a);
        (PNone, sp_pres_table_num a); (PNone, sp_dens_calc_type a);
        (PNone, sp_fip_region a) ]
  | CallWconprodh a =>
      [ (PStr "SHUT", wp_well_status a); (PStr "LRAT", wp_well_control a);
        (PNone, wp_oil_rate_h a); (PNone, wp_water_rate_h a);
        (PNone, wp_gas_rate_h a); (PNone, wp_vfp_num a); (PNone, wp_alq a);
        (PNone, wp_thp_h a); (PNone, wp_bhp_h a);
        (PNone, wp_wet_gas_rate_h a); (PNone, wp_ngl_rate_h a) ]
  | CallWconinjh a =>
      [ (PStr "WATER", wi_injected_fluid a); (PStr "SHUT", wi_well_status a);
        (PNone, wi_inj_rate_h a); (PNone, wi_bhp_h a); (PNone, wi_thp_h a);
        (PNone, wi_vfp_num a); (PNone, wi_second_phase_concentration a);
        (PNone, wi_surf_oil_part a); (PNone, wi_surf_water_part a);
        (PNone, wi_surf_gas_part a); (PStr "RATE", wi_well_control a) ]
  | CallWefac a =>
      [ (PInt 1, we_efficiency_factor a); (PNone, we_apply_to_network a) ]
  | CallPerf a =>
      [ (PNone, pf_branch_num a); (PNone, pf_lower_depth a);
        (PNone, pf_upper_depth a); (PNone, pf_depth_type a);
        (PNone, pf_status a); (PNone, pf_sat_num a);
        (PNone, pf_trans_factor a); (PNone, pf_well_diam a);
        (PNone, pf_effective_kh a); (PInt 0, pf_skin a);
        (PNone, pf_d_factor a); (PInt 1, pf_connection_factor_mult a);
        (PNone, pf_completion_type a) ]
  | CallTraj _ _ | CallDates _ | CallGeneric _ _ => []
  end.

(** A field is set when the caller passed something other than [None]. *)
Definition is_set (passed : option pyval) : bool :=
  match passed with Some v => negb (is_none v) | None => false end.

Definition all_set (c : call) : bool :=
  forallb (fun f => is_set (snd f)) (optional_fields c).

Definition all_unset (c : call) : bool :=
  forallb (fun f => negb (is_set (snd f))) (optional_fields c).

(** The tokens of the argument line after the well name. *)
Definition optional_tokens (repr_float : fnum -> string) (c : call)
  : list string :=
  match positional c with
  | Some (_, locals) => tl (tokens repr_float locals)
  | None => []
  end.

(** The text of what the caller passed for a field. *)
Definition passed_text (repr_float : fnum -> string)
           (f : pyval * option pyval) : string :=
  match snd f with Some v => str repr_float v | None => "" end.

Definition is_star (t : string) : bool := String.eqb t "*".

(** *** The shape of the date tokens *)

(** The character of one decimal digit. *)
Definition digit (n : Z) : ascii := Ascii.ascii_of_N (Z.to_N (48 + n)).

(** Two digits, [DD], [HH], [MM] or [SS]. *)
Definition two_digits (n : Z) : string :=
  String (digit (n / 10)) (String (digit (n mod 10)) "").

(** Four digits, [YYYY]. *)
Definition four_digits (n : Z) : string :=
  String (digit (n / 1000))
    (String (digit (n / 100 mod 10))
       (String (digit (n / 10 mod 10)) (String (digit (n mod 10)) ""))).

(** [HH:MM:SS] *)
Definition clock (t : time) : string :=
  two_digits (hour t) ++ ":" ++ two_digits (minute t) ++ ":"
  ++ two_digits (second t).

(** *** Reading the walker's output *)

(** The [CallDates] among the emissions of a run. *)
Definition dates_calls (out : list emission) : list timestamp :=
  flat_map (fun e => match snd e with CallDates ts => [ts] | _ => [] end) out.

Definition is_star_name (v : pyval) : bool :=
  match v with PStr s => String.eqb s "*" | _ => false end.

Definition passed_str (s : string) (passed : option pyval) : bool :=
  match passed with Some (PStr x) => String.eqb x s | _ => false end.

(** A reset Record: a WCONHIST or WCONINJH on the wildcard entity with status
    SHUT, or a WEFAC on the wildcard entity with the integer factor 1. *)
Definition is_reset (c : call) : bool :=
  match c with
  | CallWconprodh a =>
      is_star_name (wp_well_name a) && passed_str "SHUT" (wp_well_status a)
  | CallWconinjh a =>
      is_star_name (wi_well_name a) && passed_str "SHUT" (wi_well_status a)
  | CallWefac a =>
      is_star_name (we_well_name a)
      && match we_efficiency_factor a with
         | Some (PInt 1) => true
         | _ => false
         end
  | _ => false
  end.

Definition reset_calls (out : list emission) : list call :=
  filter is_reset (map snd out).

(** An emission made for a row of a table, not for the timestep itself. *)
Definition for_a_row (e : emission) : bool :=
  match fst e with FromTimestep => false | _ => true end.

Definition from_perf (i : nat) (e : emission) : bool :=
  match fst e with FromPerf j => Nat.eqb i j | _ => false end.

Definition from_production (i : nat) (e : emission) : bool :=
  match fst e with FromProduction j => Nat.eqb i j | _ => false end.

(** The calls of a run, without the marks of where they were made. *)
Definition calls_of (out : list emission) : list call := map snd out.

(** The text of a DATES Record for a date, a month code and a tail: the
    tail stands between the year and the slash of the date line. *)
Definition dates_record (d : date) (mon tail : string) : string :=
  "DATES" ++ nl
  ++ fmt02 (day d) ++ " " ++ mon ++ " " ++ str_int (year d) ++ " " ++ tail
  ++ "/" ++ nl ++ "/" ++ nl ++ nl.


(** *** The Records of an entity, told by what they hold *)

(** The well-name argument is the entity [E]. *)
Definition names (E : string) (v : pyval) : bool :=
  match v with PStr s => String.eqb s E | _ => false end.

(** A WCONHIST Record of entity [E]. *)
Definition wconhist_of (E : string) (c : call) : bool :=
  match c with CallWconprodh a => names E (wp_well_name a) | _ => false end.

(** A WEFAC Record of entity [E]. *)
Definition wefac_of (E : string) (c : call) : bool :=
  match c with CallWefac a => names E (we_well_name a) | _ => false end.

(** The production-control and efficiency-factor Records of entity [E]. *)
Definition control_of (E : string) (c : call) : bool :=
  wconhist_of E c || wefac_of E c.

(** The production rows of entity [E] dated [P]. *)
Definition rows_of (production : list prod_row) (E : string) (P : date)
  : list prod_row :=
  filter (fun row => String.eqb (WELL row) E && date_eqb (DATE row) P)
         production.

(** The WCONHIST and WEFAC calls of the main-controls loop for one row. *)
Definition production_controls (row : prod_row) : list call :=
  ((if gt0 (OIL row) then [wconprodh_call row] else [])
   ++ (if gt0 (WINJ row) || gt0 (OIL row) then [wefac_call row] else []))%list.

(** What every iteration after the first writes first. *)
Definition period_header (timestep : date) : list emission :=
  [ (FromTimestep, CallDates (TDate timestep));
    (FromTimestep, reset_wconprodh);
    (FromTimestep, reset_wconinjh);
    (FromTimestep, reset_wefac) ].

(** The perforations written ahead of the first timestep. *)
Definition pre_start_part (perf : list perf_row) (timestep : date)
  : list emission :=
  perf_loop
    (filter (fun ir => date_lt_ts (perf_date (snd ir)) timestep)
            (iterrows perf)).

(** The three inner loops of an iteration: everything after the header. *)
Definition rows_part (production : list prod_row) (perf : list perf_row)
           (man_ops : list manop_row) (timestep : date) : list emission :=
  (perf_loop
     (filter (fun ir => date_eq_ts (perf_date (snd ir)) timestep)
             (iterrows perf))
   ++ flat_map production_row_body
        (filter (fun ir => date_eqb (DATE (snd ir)) timestep)
                (iterrows production))
   ++ flat_map manop_body
        (filter (fun ir => date_eqb (mo_date (snd ir)) timestep)
                (iterrows man_ops)))%list.

(** Made for a row, and neither a date stamp nor a reset. *)
Definition plain (e : emission) : bool :=
  for_a_row e
  && match snd e with CallDates _ => false | _ => true end
  && negb (is_reset (snd e)).

(** *** Rates *)

(** A rate is a volume per day on production, as the float64 division
    gives it: zero for a zero volume and, while the exact quotient lies in
    the range of the normal float64 numbers, within one part in 2^53 of that
    quotient. *)
Definition per_day (volume days rate : fnum) : Prop :=
  forall v d : Q,
    volume = Fin v -> days = Fin d -> (0 < d)%Q ->
    ((v == 0)%Q -> rate = Fin 0)
    /\ ((1 <= v / d * inject_Z (2 ^ 1022))%Q ->
        (v / d <= inject_Z (2 ^ 1023))%Q ->
        exists r : Q,
          rate = Fin r
          /\ (Qabs (r - v / d) * inject_Z (2 ^ 53) <= v / d)%Q).

(** *** Wells and perforations that do not meet in the join *)

Definition raw_perf (inp : input_directory) : list perf_csv :=
  (perf_kmb_all inp ++ perf_tk_all inp)%list.

(** The wells of the table, in the selected field, for which the
    perforation files have no row. *)
Definition wells_without_perforation (args : argv) (inp : input_directory)
  : list well_row :=
  filter (fun w =>
            String.eqb (wt_field w) (field args)
            && negb (existsb (fun p => String.eqb (fc_well p) (wt_mer_name w))
                             (raw_perf inp)))
         (well_table inp).


(** *** Reading the trajectory compiler *)

(** A well has the two rows the [assert] asks for. *)
Definition enough_rows (df : list Welltracks.traj_row) (well : string) : bool :=
  (1 <? List.length (Welltracks.df_slice_of df well))%nat.

(** The pad of the first row of a well. *)
Definition first_pad (df : list Welltracks.traj_row) (well : string) : pyval :=
  match Welltracks.df_slice_of df well with
  | first_valid :: _ => wt_pad (traj_well first_valid)
  | [] => PNone
  end.

(** The two Records of a well: its WELSPECS, then its WELLTRACK. *)
Definition well_records (df : list Welltracks.traj_row) (well : string)
  : list emission :=
  [ (FromWell well, Welltracks.specs_call well (first_pad df well));
    (FromWell well,
     CallTraj (PStr well)
              (map Welltracks.row_tuple (Welltracks.df_slice_of df well))) ].

(** One coordinate line: X, Y, Z, MD, each followed by a space. *)
Definition coordinate_line (repr_float : fnum -> string) (p : coord_point)
  : string :=
  let '(coord_x, coord_y, md, coord_z) := p in
  str repr_float coord_x ++ " " ++ str repr_float coord_y ++ " "
  ++ str repr_float coord_z ++ " " ++ str repr_float md ++ " ".

(** Not among the names met so far. *)
Definition unseen (seen : list string) (x : string) : bool :=
  negb (existsb (String.eqb x) seen).


(** *** Further readings of the emitter *)

(** The number of positional arguments of each control keyword, as the
    docstrings of the writers number them. *)
Definition arity (c : call) : nat :=
  match c with
  | CallSpecs _ => 13
  | CallWconprodh _ => 12
  | CallWconinjh _ => 12
  | CallWefac _ => 3
  | CallPerf _ => 14
  | CallTraj _ _ | CallDates _ | CallGeneric _ _ => 0
  end.


(** *** Further readings of the walker *)

Definition from_manops (i : nat) (e : emission) : bool :=
  match fst e with FromManOps j => Nat.eqb i j | _ => false end.

(** Not later than. *)
Definition date_le (a b : date) : Prop := date_lt a b \/ a = b.

(** A first-of-month. *)
Definition on_grid (t : date) : Prop := day t = 1 /\ 1 <= month t <= 12.

(** What the main-controls loop writes for one row, by the two rates. *)
Definition controls_of (row : prod_row) : list call :=
  ((if gt0 (WINJ row) then [wconinjh_call row] else [])
   ++ (if gt0 (OIL row) then [wconprodh_call row] else [])
   ++ (if gt0 (WINJ row) || gt0 (OIL row) then [wefac_call row] else []))%list.


(** *** Further readings of the normalizer and the joins *)

(** The row [preprocess_prod] makes of a raw row and its joined well. *)
Definition normalized (row : prod_csv) (w : option well_row) : prod_row :=
  {| WELL := pc_WELL row;
     DATE := pc_DATE row;
     OIL := fdiv (pc_OIL row) (pc_DAYS row);
     WATER := fdiv (pc_WATER row) (pc_DAYS row);
     GAS := fdiv (pc_GAS row) (pc_DAYS row);
     WINJ := fdiv (pc_WINJ row) (pc_DAYS row);
     DAYS := pc_DAYS row;
     BHP := pc_BHP row;
     THP := pc_THP row;
     month_length :=
       monthrange_days (year (pc_DATE row)) (month (pc_DATE row));
     prod_well := w |}.

(** The wells of the table that a production row names, in the field. *)
Definition wells_of_row (args : argv) (inp : input_directory)
           (row : prod_csv) : list well_row :=
  filter (fun w =>
            String.eqb (pc_WELL row) (wt_model_name w)
            && String.eqb (wt_field w) (field args))
         (well_table inp).

(** [needle] occurs somewhere in [hay]. *)
Definition occurs_in (needle hay : string) : Prop :=
  exists pre post, hay = pre ++ needle ++ post.


(** *** Further readings of the trajectory compiler *)

Definition from_well (w : string) (e : emission) : bool :=
  match fst e with FromWell n => String.eqb w n | _ => false end.

(** The names of the wells of a joined trajectory table, in first-seen
    order: what the loop of the compiler runs over. *)
Definition well_names (df : list traj_row) : list string :=
  unique (map (fun row => wt_model_name (traj_well row)) df).

(** The key [id_md] on which duplicate trajectory rows are dropped. *)
Definition id_md (repr_float : fnum -> string) (row : traj_csv) : string :=
  tc_well row ++ str repr_float (tc_MD row).

(** A call made with the destination left to the caller: ['stdout'], the
    default of every writer, or an open file. *)
Definition write_call (repr_float : fnum -> string) (c : call) (d : dest)
           (w : sinks) : result sinks :=
  match c with
  | CallSpecs a => Ok (specs_out repr_float a d w)
  | CallTraj n cs => Ok (traj_out repr_float n cs d w)
  | CallDates ts => dates_out ts d w
  | CallWconprodh a => Ok (wconprodh_out repr_float a d w)
  | CallWconinjh a => Ok (wconinjh_out repr_float a d w)
  | CallWefac a => Ok (wefac_out repr_float a d w)
  | CallPerf a => Ok (perf_out repr_float a d w)
  | CallGeneric k a => Ok (generic_kw_out k a d w)
  end.

(** The token of a pressure cell in the control Records of a production
    row: the number when it is positive, a wildcard otherwise. *)
Definition pressure_token (repr_float : fnum -> string) (x : fnum) : string :=
  if gt0 x then repr_float x else "*".



(** The rows the right join makes for one well of the table: one per
    trajectory row that names it, or one without trajectory columns. *)
Definition joined_rows (kept : list traj_csv) (w : well_row) : list traj_row :=
  match filter (fun t => String.eqb (tc_well t) (wt_mer_name w)) kept with
  | [] => [mktrajrow None w]
  | ms => map (fun t => mktrajrow (Some t) w) ms
  end.

End Records.
Export Records.

(* ================================================================== *)
(** ** Sample data, for the statements that are shown on a concrete run *)

Module Samples.
Import Welltracks.

(** A stand-in for [repr_float] where no float is printed. *)
Definition no_floats : fnum -> string := fun _ => "".

(** 20/30 as a float64 (0.6666666666666666): 6004799503160661 / 2^53. *)
Definition two_thirds : Q := 6004799503160661 # 9007199254740992.

(** One well, named W1 in the model and 1 in the reports, of field F. *)
Definition sample_well : well_row := mkwell "W1" "1" "F" (PStr "K1").


(** April 2021, a month of 30 days. *)
Definition april : date := mkdate 2021 4 1.

(** OIL 100, WATER 0, GAS 50, 20 days on production. *)
Definition example_csv : prod_csv :=
  mkprodcsv "W1" april (of_Z 100) (of_Z 0) (of_Z 50) (of_Z 0) (of_Z 20)
            (of_Z 0) (of_Z 0).

(** No oil, water only. *)
Definition water_only_csv : prod_csv :=
  mkprodcsv "W1" april (of_Z 0) (of_Z 10) (of_Z 0) (of_Z 0) (of_Z 20)
            (of_Z 0) (of_Z 0).

(** Oil, but 40 days reported for a month of 30. *)
Definition overlong_csv : prod_csv :=
  mkprodcsv "W1" april (of_Z 100) (of_Z 0) (of_Z 0) (of_Z 0) (of_Z 40)
            (of_Z 0) (of_Z 0).

(** Oil, on production for the smallest positive float64 (5e-324) days. *)
Definition tiny_days_csv : prod_csv :=
  mkprodcsv "W1" april (of_Z 100) (of_Z 0) (of_Z 0) (of_Z 0)
            (Fin (1 # 2 ^ 1074)) (of_Z 0) (of_Z 0).

(** The example row reported twice for the month. *)
Definition reported_twice : list prod_row :=
  preprocess_prod [(example_csv, Some sample_well);
                   (example_csv, Some sample_well)].

(** The production table of one raw row of [sample_well], normalized. *)
Definition table_of (row : prod_csv) : list prod_row :=
  preprocess_prod [(row, Some sample_well)].

(** Its only row. *)
Definition row_of (row : prod_csv) : prod_row :=
  hd (mkprod "" april NaN NaN NaN NaN NaN NaN NaN 0 None) (table_of row).

(** The input directory of the example: the one production row, its well in
    the well table, nothing else. *)
Definition example_input : input_directory :=
  mkinput [example_csv] [] [sample_well] [] [] [].

(** A schedule for April 2021 and field F. *)
Definition example_args : argv := mkargv april (mkdate 2021 4 30) "F".





(** The well of the example: points (0, 0, Z 0, MD 0) and
    (10, 10, Z 50, MD 45). *)
Definition example_df : list Welltracks.traj_row :=
  [ Welltracks.mktrajrow
      (Some (Welltracks.mktrajcsv "1" (PInt 0) (PInt 0) (PInt 0) (PInt 0)))
      sample_well;
    Welltracks.mktrajrow
      (Some (Welltracks.mktrajcsv "1" (PInt 10) (PInt 10) (PInt 45) (PInt 50)))
      sample_well ].



(** A WCONHIST Record for which the caller gives the well name only. *)
Definition wconhist_name_only : call :=
  CallWconprodh
    (mkwconprodh (PStr "W1") None None None None None None None None None
                 None None).

(** A WCONHIST Record with every field given a number or a name. *)
Definition wconhist_full : call :=
  CallWconprodh
    (mkwconprodh (PStr "W1") (Some (PStr "OPEN")) (Some (PStr "LRAT"))
                 (Some (PInt 5)) (Some (PInt 0)) (Some (PInt 2))
                 (Some (PInt 1)) (Some (PInt 1))
                 (Some (PInt 90)) (Some (PInt 120))
                 (Some (PInt 1)) (Some (PInt 1))).

(** A WCONHIST Record with every field given, the two pressures as the
    literal ['*'] that the walker passes for a pressure that is not positive. *)
Definition wconhist_star_pressures : call :=
  CallWconprodh
    (mkwconprodh (PStr "W1") (Some (PStr "OPEN")) (Some (PStr "LRAT"))
                 (Some (PInt 5)) (Some (PInt 0)) (Some (PInt 2))
                 (Some (PInt 1)) (Some (PInt 1))
                 (Some (PStr "*")) (Some (PStr "*"))
                 (Some (PInt 1)) (Some (PInt 1))).


(** The example row dated the 15th of April instead of the 1st. *)
Definition mid_month_csv : prod_csv :=
  mkprodcsv "W1" (mkdate 2021 4 15) (of_Z 100) (of_Z 0) (of_Z 50) (of_Z 0)
            (of_Z 20) (of_Z 0) (of_Z 0).

(** Perforations of [sample_well] in May 2020, April 2021 and July 2021, and
    the row the join makes for a well without perforation. *)
Definition perf_at (d : date) : perf_row :=
  mkperfrow
    (Some (mkperffact (mkperfcsv "1" d (of_Z 1000) (of_Z 1010) None) true))
    sample_well.

Definition three_perfs : list perf_row :=
  [ perf_at (mkdate 2020 5 1); perf_at (mkdate 2021 4 1);
    perf_at (mkdate 2021 7 1); mkperfrow None sample_well ].

(** Two manual operations of April 2021. *)
Definition two_man_ops : list manop_row :=
  [ mkmanop april "F" "WELOPEN" "W1 SHUT /";
    mkmanop april "F" "WELTARG" "W1 BHP 50 /" ].


(** A schedule asked from May back to April 2021. *)
Definition backwards_args : argv := mkargv (mkdate 2021 5 1) april "F".



(** A raw perforation of 17 May 2020 whose type text has the marker inside,
    and one whose type is an isolation. *)
Definition reperforation_csv : perf_csv :=
  mkperfcsv "1" (mkdate 2020 5 17) (of_Z 1000) (of_Z 1010)
            (Some "ДОПЕРФОРАЦИЯ").

Definition isolation_csv : perf_csv :=
  mkperfcsv "1" (mkdate 2020 9 30) (of_Z 1000) (of_Z 1010)
            (Some "ИЗОЛЯЦИЯ").


(** Trajectory rows of well "1" at MD 23 and of well "12" at MD 3: different
    wells, the same key. *)
Definition colliding_rows : list traj_csv :=
  [ mktrajcsv "1" (PInt 5) (PInt 6) (PInt 23) (PInt 20);
    mktrajcsv "12" (PInt 7) (PInt 8) (PInt 3) (PInt 2) ].

(** A second well, in the same field, with two points, listed first. *)
Definition second_well : well_row := mkwell "W2" "2" "F" (PStr "K1").

(** The two points of [second_well], as the trajectory file has them. *)
Definition second_well_points : list traj_csv :=
  [ mktrajcsv "2" (PInt 0) (PInt 0) (PInt 0) (PInt 0);
    mktrajcsv "2" (PInt 1) (PInt 1) (PInt 9) (PInt 9) ].

Definition two_wells_df : list traj_row :=
  [ mktrajrow (Some (mktrajcsv "2" (PInt 0) (PInt 0) (PInt 0) (PInt 0)))
              second_well;
    mktrajrow (Some (mktrajcsv "2" (PInt 1) (PInt 1) (PInt 9) (PInt 9)))
              second_well;
    mktrajrow None sample_well ].

End Samples.
Export Samples.

(* ================================================================== *)
(** ** The sentences of the specification that the code does not satisfy,
    written down as they stand *)

Module Stated.
Import Text Welltracks.

(** "a keyword-name line, then a space-joined sequence of positional tokens,
    followed by a line containing only [/], followed by a second line
    containing only [/], followed by a blank line". *)
Definition two_slash_lines (repr_float : fnum -> string) (c : call) : Prop :=
  forall name locals,
    positional c = Some (name, locals) ->
    exists text,
      call_keyword repr_float c = Ok text /\
      lines text =
        [name; String.concat " " (tokens repr_float locals); "/"; "/"; ""].

(** "for every Record whose optional fields are all set, the emitted argument
    line contains zero [*] tokens; for every Record whose optional fields
    are all unset, every optional position in the emitted line is [*]". *)
Definition wildcard_round_trip (repr_float : fnum -> string) (c : call)
  : Prop :=
  forall name locals,
    positional c = Some (name, locals) ->
    (all_set c = true ->
     forallb (fun t => negb (is_star t)) (tokens repr_float locals) = true)
    /\ (all_unset c = true ->
        forallb is_star (optional_tokens repr_float c) = true).

(** "if E has oil_rate > 0 or water/gas_rate > 0 in P, the Walker emits
    exactly one WCONHIST Record and exactly one WEFAC Record for (E, P), in
    that order, with factor = days_on_production / month_length, and the
    factor lies in (0, 1]": the Records that name E in the output of
    period P, for every production row that E has in P. *)
Definition control_for_any_rate (production : list prod_row)
           (perf : list perf_row) (man_ops : list manop_row)
           (first : bool) (P : date) (E : string) : Prop :=
  forall row,
    In row (rows_of production E P) ->
    gt0 (OIL row) = true \/ gt0 (WATER row) = true \/ gt0 (GAS row) = true ->
    filter (control_of E)
           (calls_of (timestep_body production perf man_ops first P))
    = [wconprodh_call row; wefac_call row]
    /\ exists f : Q,
        efficiency_factor row = Fin f /\ (0 < f)%Q /\ (f <= 1)%Q.





End Stated.

(* ================================================================== *)
(** * Verification *)

(** ** Strings and lines *)

Module TextFacts.
Import Text.

Lemma sapp_assoc (a b c : string) : (a ++ b) ++ c = a ++ (b ++ c).
Proof. induction a as [|x a IH]; simpl; [reflexivity | now rewrite IH]. Qed.

Lemma sapp_nil_r (a : string) : a ++ "" = a.
Proof. induction a as [|x a IH]; simpl; [reflexivity | now rewrite IH]. Qed.

Lemma cat_app (l1 l2 : list string) : cat (l1 ++ l2) = cat l1 ++ cat l2.
Proof.
  induction l1 as [|x l1 IH]; simpl; [reflexivity|].
  now rewrite IH, sapp_assoc.
Qed.

Lemma no_nl_app (a b : string) : no_nl (a ++ b) = no_nl a && no_nl b.
Proof.
  induction a as [|x a IH]; simpl; [reflexivity|].
  now rewrite IH, andb_assoc.
Qed.

Lemma no_nl_cat (l : list string) :
  forallb no_nl l = true -> no_nl (cat l) = true.
Proof.
  induction l as [|x l IH]; simpl; [reflexivity|].
  intros H. apply andb_true_iff in H as [Hx Hl].
  now rewrite no_nl_app, Hx, IH.
Qed.

(** A text that starts with a complete line. *)
Lemma lines_cons (a rest : string) :
  no_nl a = true -> lines (a ++ String nl_char rest) = a :: lines rest.
Proof.
  induction a as [|x a IH]; intros H.
  - reflexivity.
  - cbn [no_nl] in H. apply andb_true_iff in H as [Hx Ha].
    apply negb_true_iff in Hx.
    change (lines (String x a ++ String nl_char rest))
      with (if is_nl x then EmptyString :: lines (a ++ String nl_char rest)
            else match lines (a ++ String nl_char rest) with
                 | [] => [String x EmptyString]
                 | l :: ls => String x l :: ls
                 end).
    now rewrite Hx, (IH Ha).
Qed.

(** A loop of [keyword += piece(x)] appends the pieces in order. *)
Lemma fold_left_append (A : Type) (piece : A -> string) (l : list A) :
  forall keyword,
    fold_left (fun k x => k ++ piece x) l keyword
    = keyword ++ cat (map piece l).
Proof.
  induction l as [|x l IH]; simpl; intros keyword.
  - now rewrite sapp_nil_r.
  - now rewrite IH, sapp_assoc.
Qed.

End TextFacts.

(** ** The keyword emitter *)

Module EmitterFacts.
Import Text TextFacts.

Lemma fold_left_ext (A B : Type) (f g : A -> B -> A) (l : list B) :
  (forall a b, f a b = g a b) ->
  forall a, fold_left f l a = fold_left g l a.
Proof.
  intros E. induction l as [|x l IH]; simpl; intros a; [reflexivity|].
  now rewrite E, IH.
Qed.

Lemma add_arg_loop repr_float locals keyword :
  fold_left (add_arg repr_float) locals keyword
  = keyword ++ cat (map (fun t => t ++ " ") (tokens repr_float locals)).
Proof.
  rewrite (fold_left_ext (add_arg repr_float)
             (fun k kv => k ++ (tok repr_float (snd kv) ++ " "))).
  - rewrite fold_left_append. unfold tokens. now rewrite map_map.
  - intros k [arg val]. unfold add_arg, tok. simpl.
    now destruct (is_none val).
Qed.

Lemma add_spec_arg_loop repr_float locals keyword :
  fold_left (add_spec_arg repr_float) locals keyword
  = keyword ++ cat (map (fun t => t ++ " ") (tokens repr_float locals)).
Proof.
  rewrite (fold_left_ext (add_spec_arg repr_float)
             (fun k kv => k ++ (tok repr_float (snd kv) ++ " "))).
  - rewrite fold_left_append. unfold tokens. now rewrite map_map.
  - intros k [arg val]. unfold add_spec_arg, tok. simpl.
    now destruct (is_none val).
Qed.

(** The text of each of the five writers, in closed form. *)
Lemma positional_text repr_float c name locals :
  positional c = Some (name, locals) ->
  call_keyword repr_float c
  = Ok (name ++ nl ++ argument_line repr_float locals ++ nl ++ "/" ++ nl ++ nl).
Proof.
  intros H. unfold argument_line.
  destruct c; simpl in H; try discriminate;
    injection H as <- <-; simpl call_keyword; f_equal;
    unfold specs_keyword, wconprodh_keyword, wconinjh_keyword,
      wefac_keyword, perf_keyword;
    cbv zeta; rewrite ?add_arg_loop, ?add_spec_arg_loop;
    now rewrite !sapp_assoc.
Qed.

Lemma positional_name_no_nl c name locals :
  positional c = Some (name, locals) -> no_nl name = true.
Proof.
  destruct c; simpl; intros H; try discriminate;
    injection H as <- _; reflexivity.
Qed.

Lemma tokens_nth repr_float locals i kv :
  nth_error locals i = Some kv ->
  nth_error (tokens repr_float locals) i
  = Some (if is_none (snd kv) then "*" else str repr_float (snd kv)).
Proof.
  intros H. unfold tokens. now rewrite nth_error_map, H.
Qed.

Lemma argument_line_no_nl repr_float locals :
  forallb no_nl (tokens repr_float locals) = true ->
  no_nl (argument_line repr_float locals) = true.
Proof.
  intros H. unfold argument_line.
  rewrite no_nl_app, andb_true_iff. split; [|reflexivity].
  apply no_nl_cat. rewrite forallb_forall in *.
  intros x Hx. apply in_map_iff in Hx as (t & <- & Ht).
  rewrite no_nl_app, (H _ Ht). reflexivity.
Qed.

(** C2 (as amended).  The text of a single-line control Record is the keyword
    name on a line of its own, then ONE line that holds every positional
    token followed by a space and is closed by a slash on that same line,
    then one line holding only a slash, then a blank line.  No position is
    dropped, and the token of a position is [*] exactly when the value at
    that position is None. *)
Theorem control_record_layout repr_float c name locals :
  positional c = Some (name, locals) ->
  call_keyword repr_float c
  = Ok (name ++ nl ++ argument_line repr_float locals ++ nl ++ "/" ++ nl ++ nl)
  /\ argument_line repr_float locals
     = cat (map (fun t => t ++ " ") (tokens repr_float locals)) ++ "/"
  /\ List.length (tokens repr_float locals) = List.length locals
  /\ (forall i kv,
        nth_error locals i = Some kv ->
        nth_error (tokens repr_float locals) i
        = Some (if is_none (snd kv) then "*" else str repr_float (snd kv)))
  /\ (forallb no_nl (tokens repr_float locals) = true ->
      lines (name ++ nl ++ argument_line repr_float locals ++ nl ++ "/" ++ nl
             ++ nl)
      = [name; argument_line repr_float locals; "/"; ""]).
Proof.
  intros Hc. split; [|split; [|split; [|split]]].
  - now apply positional_text.
  - reflexivity.
  - unfold tokens. now rewrite length_map.
  - intros i kv. apply tokens_nth.
  - intros Hnl.
    change (name ++ nl ++ argument_line repr_float locals ++ nl ++ "/" ++ nl ++ nl)
      with (name ++ String nl_char
              (argument_line repr_float locals ++ String nl_char
                 ("/" ++ nl ++ nl))).
    rewrite lines_cons by (eapply positional_name_no_nl; eassumption).
    rewrite lines_cons by (now apply argument_line_no_nl).
    reflexivity.
Qed.

Lemma control_record_layout_witness :
  call_keyword no_floats reset_wefac
  = Ok ("WEFAC" ++ nl ++ "* 1 * /" ++ nl ++ "/" ++ nl ++ nl)
  /\ lines ("WEFAC" ++ nl ++ "* 1 * /" ++ nl ++ "/" ++ nl ++ nl)
     = ["WEFAC"; "* 1 * /"; "/"; ""].
Proof.
  pose proof (@control_record_layout no_floats reset_wefac "WEFAC"
                (wefac_locals (mkwefac (PStr "*") (Some (PInt 1)) None))
                eq_refl) as (H1 & _ & _ & _ & H2).
  split; [exact H1 | exact (H2 eq_refl)].
Defined.

(** C2 (as stated) fails: the reset [WEFAC * 1] is written as four lines, of
    which only one holds a slash alone; the first slash closes the argument
    line. *)
Lemma two_slash_lines_fails : ~ Stated.two_slash_lines no_floats reset_wefac.
Proof.
  intros H.
  destruct (H _ _ eq_refl) as (text & Ht & Hl).
  injection Ht as <-. vm_compute in Hl. discriminate Hl.
Qed.

(** *** The wildcarding rule *)

Lemma optional_tokens_params repr_float c name locals :
  positional c = Some (name, locals) ->
  optional_tokens repr_float c
  = map (fun f => tok repr_float (param (fst f) (snd f))) (optional_fields c).
Proof.
  destruct c; simpl; intros H; try discriminate; reflexivity.
Qed.

Lemma set_field_token repr_float (f : pyval * option pyval) :
  is_set (snd f) = true ->
  tok repr_float (param (fst f) (snd f)) = passed_text repr_float f.
Proof.
  destruct f as [d [v|]]; simpl; [|discriminate].
  unfold tok, passed_text; simpl. now destruct (is_none v).
Qed.

Lemma unset_field_token repr_float (f : pyval * option pyval) :
  is_set (snd f) = false ->
  tok repr_float (param (fst f) (snd f))
  = match snd f with
    | Some _ => "*"
    | None => if is_none (fst f) then "*" else str repr_float (fst f)
    end.
Proof.
  destruct f as [d [v|]]; simpl; [|reflexivity].
  unfold tok. destruct (is_none v); [reflexivity | discriminate].
Qed.

(** C9 (as amended).  The emitter puts [*] at a position exactly when the
    value there is None.  Hence, for a Record whose optional fields are all
    set, every optional position carries the text of the value passed for
    it, and the line has no [*] there unless such a text is itself [*]; for
    a Record whose optional fields are all unset, a position is [*] when
    its parameter defaults to None or None was passed, and carries the text
    of the default otherwise. *)
Theorem wildcard_rule repr_float c name locals :
  positional c = Some (name, locals) ->
  (all_set c = true ->
   optional_tokens repr_float c
   = map (passed_text repr_float) (optional_fields c)
   /\ (forallb (fun f => negb (is_star (passed_text repr_float f)))
               (optional_fields c) = true ->
       forallb (fun t => negb (is_star t)) (optional_tokens repr_float c)
       = true))
  /\ (all_unset c = true ->
      forall i f,
        nth_error (optional_fields c) i = Some f ->
        nth_error (optional_tokens repr_float c) i
        = Some (match snd f with
                | Some _ => "*"
                | None =>
                    if is_none (fst f) then "*" else str repr_float (fst f)
                end)).
Proof.
  intros Hc. rewrite (optional_tokens_params repr_float c Hc).
  unfold all_set, all_unset. split.
  - intros Hset.
    assert (E : map (fun f => tok repr_float (param (fst f) (snd f)))
                    (optional_fields c)
                = map (passed_text repr_float) (optional_fields c)).
    { apply map_ext_in. intros f Hf. apply set_field_token.
      rewrite forallb_forall in Hset. now apply Hset. }
    split; [exact E|].
    intros Hstar. rewrite E, forallb_forall. intros t Ht.
    apply in_map_iff in Ht as (f & <- & Hf).
    rewrite forallb_forall in Hstar. now apply Hstar.
  - intros Hunset i f Hi.
    rewrite nth_error_map, Hi. simpl. f_equal.
    apply unset_field_token.
    rewrite forallb_forall in Hunset.
    apply nth_error_In in Hi. apply Hunset in Hi.
    now apply negb_true_iff in Hi.
Qed.

Lemma wildcard_rule_witness :
  optional_tokens no_floats wconhist_full
  = ["OPEN"; "LRAT"; "5"; "0"; "2"; "1"; "1"; "90"; "120"; "1"; "1"]
  /\ forallb (fun t => negb (is_star t))
             (optional_tokens no_floats wconhist_full) = true
  /\ nth_error (optional_tokens no_floats wconhist_name_only) 0 = Some "SHUT"
  /\ nth_error (optional_tokens no_floats wconhist_name_only) 2 = Some "*".
Proof.
  destruct (@wildcard_rule no_floats wconhist_full _ _ eq_refl) as [Hset _].
  destruct (Hset eq_refl) as [Htok Hstar].
  destruct (@wildcard_rule no_floats wconhist_name_only _ _ eq_refl)
    as [_ Hunset].
  split; [exact Htok|]. split; [exact (Hstar eq_refl)|].
  split.
  - exact (Hunset eq_refl 0%nat (PStr "SHUT", None) eq_refl).
  - exact (Hunset eq_refl 2%nat (PNone, None) eq_refl).
Defined.

(** C9 (as stated) fails on both halves.  With only the well name given,
    the second and third positions of WCONHIST read SHUT and LRAT, not [*];
    with every field given and the pressures given as ['*'], the line has
    two [*] tokens. *)
Lemma wildcard_round_trip_fails :
  ~ Stated.wildcard_round_trip no_floats wconhist_name_only
  /\ ~ Stated.wildcard_round_trip no_floats wconhist_star_pressures.
Proof.
  split; intros H.
  - destruct (H _ _ eq_refl) as [_ Hunset].
    specialize (Hunset eq_refl). vm_compute in Hunset. discriminate.
  - destruct (H _ _ eq_refl) as [Hset _].
    specialize (Hset eq_refl). vm_compute in Hset. discriminate.
Qed.

End EmitterFacts.

(** ** Date stamps *)

Module DatesFacts.
Import Text TextFacts.

Lemma in_zseq (n : nat) :
  forall a x, a <= x < a + Z.of_nat n -> In x (zseq a n).
Proof.
  induction n as [|n IH]; intros a x H; [lia|].
  cbn [zseq]. destruct (Z.eq_dec a x) as [->|Hne]; [now left|].
  right. apply IH. lia.
Qed.

(** A check run on every integer of a range holds on each of them. *)
Lemma range_check (P : Z -> bool) (a n : Z) :
  forallb P (zseq a (Z.to_nat n)) = true ->
  forall x, a <= x < a + n -> P x = true.
Proof.
  intros H x Hx. rewrite forallb_forall in H. apply H. apply in_zseq. lia.
Qed.

Lemma fmt02_two_digits (n : Z) : 0 <= n < 100 -> fmt02 n = two_digits n.
Proof.
  intros H.
  apply String.eqb_eq.
  apply (@range_check (fun x => String.eqb (fmt02 x) (two_digits x))
                      0 100);
    [vm_compute; reflexivity | lia].
Qed.

Lemma str_int_four_digits (y : Z) :
  1000 <= y <= 9999 -> str_int y = four_digits y.
Proof.
  intros H.
  apply String.eqb_eq.
  apply (@range_check (fun x => String.eqb (str_int x) (four_digits x))
                      1000 9000);
    [vm_compute; reflexivity | lia].
Qed.

Lemma month_code_total (m : Z) :
  1 <= m <= 12 ->
  exists mon, month_codes m = Some mon /\ String.length mon = 3%nat.
Proof.
  intros H.
  assert (C : m = 1 \/ m = 2 \/ m = 3 \/ m = 4 \/ m = 5 \/ m = 6 \/ m = 7
              \/ m = 8 \/ m = 9 \/ m = 10 \/ m = 11 \/ m = 12) by lia.
  repeat (destruct C as [-> | C]; [eexists; split; reflexivity|]).
  subst m. eexists; split; reflexivity.
Qed.

Lemma hour_tail_clock (ts : timestamp) :
  valid_timestamp ts ->
  hour_tail ts
  = match ts_time ts with Some t => clock t ++ " " | None => "" end.
Proof.
  destruct ts as [d | d t]; [reflexivity|].
  intros [_ (Hh & Hm & Hs)]. unfold hour_tail, clock. cbn [ts_time].
  rewrite !fmt02_two_digits by lia. now rewrite !sapp_assoc.
Qed.

Lemma valid_day_range (d : date) : valid_date d -> 1 <= day d <= 31.
Proof.
  intros [Hm Hd]. unfold monthrange_days, mdays in Hd.
  assert (C : month d = 1 \/ month d = 2 \/ month d = 3 \/ month d = 4
              \/ month d = 5 \/ month d = 6 \/ month d = 7 \/ month d = 8
              \/ month d = 9 \/ month d = 10 \/ month d = 11 \/ month d = 12)
    by lia.
  repeat (destruct C as [E | C];
          [rewrite E in Hd; simpl in Hd;
           try destruct (isleap (year d)); lia|]).
  rewrite C in Hd; simpl in Hd. lia.
Qed.

Lemma ts_date_valid (ts : timestamp) :
  valid_timestamp ts -> valid_date (ts_date ts).
Proof. destruct ts; simpl; tauto. Qed.

(** C8.  The date line of a DATES Record is the day as two digits, the code
    of the month from the fixed table (JLY for July), the year in decimal
    (four digits for the years 1000 to 9999), each followed by a space, then
    [HH:MM:SS] and a space exactly when the timestamp has a time of day (is
    a datetime), then the closing slash. *)
Theorem date_tokens (ts : timestamp) :
  valid_timestamp ts ->
  exists mon,
    month_codes (month (ts_date ts)) = Some mon
    /\ String.length mon = 3%nat
    /\ month_codes 7 = Some "JLY"
    /\ dates_keyword ts
       = Ok ("DATES" ++ nl
             ++ two_digits (day (ts_date ts)) ++ " " ++ mon ++ " "
             ++ str_int (year (ts_date ts)) ++ " "
             ++ match ts_time ts with
                | Some t => clock t ++ " "
                | None => ""
                end
             ++ "/" ++ nl ++ "/" ++ nl ++ nl)
    /\ (1000 <= year (ts_date ts) <= 9999 ->
        str_int (year (ts_date ts)) = four_digits (year (ts_date ts))).
Proof.
  intros Hv.
  pose proof (ts_date_valid ts Hv) as Hd.
  destruct (month_code_total (proj1 Hd)) as (mon & Hmon & Hlen).
  exists mon. repeat split; try assumption.
  - unfold dates_keyword. rewrite Hmon. cbv zeta.
    rewrite (hour_tail_clock ts Hv).
    rewrite fmt02_two_digits by (pose proof (valid_day_range Hd); lia).
    now rewrite !sapp_assoc.
  - apply str_int_four_digits.
Qed.

Lemma date_tokens_witness :
  dates_keyword (TDateTime (mkdate 2021 7 1) (mktime 6 30 0))
  = Ok ("DATES" ++ nl ++ "01 JLY 2021 06:30:00 /" ++ nl ++ "/" ++ nl ++ nl).
Proof.
  assert (V : valid_timestamp (TDateTime (mkdate 2021 7 1) (mktime 6 30 0)))
    by (vm_compute; intuition discriminate).
  destruct (date_tokens _ V) as (mon & Hmon & _ & _ & Htext & _).
  injection Hmon as <-. exact Htext.
Defined.

End DatesFacts.

(** ** Dates and the timeline *)

Module CalendarFacts.

Lemma date_ltb_iff (a b : date) : date_ltb a b = true <-> date_lt a b.
Proof.
  unfold date_ltb, date_compare, date_lt.
  destruct (Z.compare_spec (year a) (year b));
    destruct (Z.compare_spec (month a) (month b));
    destruct (Z.compare_spec (day a) (day b));
    split; intros; try discriminate; try reflexivity; lia.
Qed.

Lemma date_eqb_iff (a b : date) : date_eqb a b = true <-> a = b.
Proof.
  unfold date_eqb, date_compare. destruct a as [ya ma da], b as [yb mb db].
  cbn [year month day].
  destruct (Z.compare_spec ya yb);
    destruct (Z.compare_spec ma mb);
    destruct (Z.compare_spec da db);
    split; intros E; try discriminate; try (injection E; intros; lia);
    subst; reflexivity.
Qed.

Lemma date_leb_iff (a b : date) : date_leb a b = true <-> date_lt a b \/ a = b.
Proof.
  unfold date_leb, date_lt, date_compare.
  destruct a as [ya ma da], b as [yb mb db]. cbn [year month day].
  destruct (Z.compare_spec ya yb);
    destruct (Z.compare_spec ma mb);
    destruct (Z.compare_spec da db);
    split; intros E; try discriminate; try reflexivity;
    try (subst; now right); try (left; lia);
    destruct E as [E | E]; try lia; injection E; intros; lia.
Qed.

Lemma date_lt_trans (a b c : date) : date_lt a b -> date_lt b c -> date_lt a c.
Proof. unfold date_lt. lia. Qed.

Lemma date_lt_irrefl (a : date) : ~ date_lt a a.
Proof. unfold date_lt. lia. Qed.

(** First-of-months are ordered as their indices. *)
Lemma month_start_lt (i j : Z) :
  i < j -> date_lt (month_start i) (month_start j).
Proof.
  intros H. unfold date_lt, month_start. cbn [year month day].
  pose proof (Z.div_mod i 12 ltac:(lia)).
  pose proof (Z.div_mod j 12 ltac:(lia)).
  pose proof (Z.mod_pos_bound i 12 ltac:(lia)).
  pose proof (Z.mod_pos_bound j 12 ltac:(lia)).
  lia.
Qed.


Lemma zseq_bounds (n : nat) :
  forall a x, In x (zseq a n) -> a <= x < a + Z.of_nat n.
Proof.
  induction n as [|n IH]; intros a x H; [destruct H|].
  cbn [zseq] in H. destruct H as [<- | H]; [lia|].
  apply IH in H. lia.
Qed.


(** *** The length of a month as a difference of day numbers *)

Lemma year_length (y : Z) :
  days_before_year (y + 1) - days_before_year y
  = 365 + (if isleap y then 1 else 0).
Proof.
  unfold days_before_year, isleap. cbv zeta.
  replace (y + 1 - 1) with y by lia.
  destruct (y mod 4 =? 0) eqn:E4; destruct (y mod 100 =? 0) eqn:E100;
    destruct (y mod 400 =? 0) eqn:E400; cbn [negb orb andb];
    rewrite ?Z.eqb_eq, ?Z.eqb_neq in *;
    Z.to_euclidean_division_equations; lia.
Qed.

Lemma month_start_of (y k : Z) :
  0 <= k < 12 -> month_start (y * 12 + k) = mkdate y (k + 1) 1.
Proof.
  intros H. unfold month_start.
  assert (D : (y * 12 + k) / 12 = y)
    by (Z.to_euclidean_division_equations; lia).
  assert (M : (y * 12 + k) mod 12 = k)
    by (Z.to_euclidean_division_equations; lia).
  now rewrite D, M.
Qed.

Lemma month_days_step (y m : Z) :
  1 <= m <= 11 ->
  days_before_month y (m + 1) - days_before_month y m = monthrange_days y m.
Proof.
  intros H. unfold days_before_month, monthrange_days.
  generalize (isleap y). intros b.
  assert (K : m = 1 \/ m = 2 \/ m = 3 \/ m = 4 \/ m = 5 \/ m = 6 \/ m = 7
              \/ m = 8 \/ m = 9 \/ m = 10 \/ m = 11) by lia.
  repeat (destruct K as [-> | K]; [destruct b; reflexivity|]).
  subst m. destruct b; reflexivity.
Qed.

Lemma december_days (y : Z) :
  days_before_year (y + 1) + days_before_month (y + 1) 1
  - (days_before_year y + days_before_month y 12)
  = monthrange_days y 12.
Proof.
  pose proof (year_length y) as Y.
  change (days_before_month (y + 1) 1) with 0.
  change (days_before_month y 12) with (334 + (if isleap y then 1 else 0)).
  change (monthrange_days y 12) with (31 + 0).
  lia.
Qed.

(** [calendar.monthrange] gives what the day numbers give: the days from the
    first of a month to the first of the next. *)
Lemma month_length_is_day_count (d : date) :
  1 <= month d <= 12 ->
  monthrange_days (year d) (month d)
  = toordinal (month_start (month_index d + 1))
    - toordinal (month_start (month_index d)).
Proof.
  intros H. unfold month_index.
  rewrite (month_start_of (year d) (k := month d - 1)) by lia.
  replace (month d - 1 + 1) with (month d) by lia.
  assert (C : month d = 12 \/ 1 <= month d <= 11) by lia.
  destruct C as [E | C].
  - replace (year d * 12 + (month d - 1) + 1) with ((year d + 1) * 12 + 0)
      by lia.
    rewrite month_start_of by lia. rewrite E.
    unfold toordinal. cbn [year month day].
    change (0 + 1) with 1.
    pose proof (december_days (year d)). lia.
  - replace (year d * 12 + (month d - 1) + 1) with (year d * 12 + month d)
      by lia.
    rewrite month_start_of by lia.
    unfold toordinal. cbn [year month day].
    pose proof (month_days_step (year d) C). lia.
Qed.

(** Flooring a date to the first of its month does not move it later. *)
Lemma floored_not_later (raw start : date) :
  1 <= day raw ->
  date_lt raw start ->
  date_lt (mkdate (year raw) (month raw) 1) start.
Proof. unfold date_lt. cbn [year month day]. lia. Qed.

End CalendarFacts.

(** ** Float64 division *)

Module NumFacts.

Lemma rne_floor (a b : Z) : 0 < b -> a / b <= rne a b <= a / b + 1.
Proof.
  intros Hb. unfold rne.
  destruct (2 * (a mod b) ?= b); [destruct (Z.even (a / b))|..]; lia.
Qed.

Lemma rne_le (a b N : Z) : 0 < b -> a <= N * b -> rne a b <= N.
Proof.
  intros Hb H. unfold rne.
  pose proof (Z.div_mod a b ltac:(lia)) as E.
  pose proof (Z.mod_pos_bound a b Hb) as M.
  assert (D : a / b < N \/ (a / b = N /\ a mod b = 0)) by nia.
  destruct D as [D | [D Z0]].
  - destruct (2 * (a mod b) ?= b); [destruct (Z.even (a / b))|..]; lia.
  - rewrite Z0. cbn [Z.mul]. destruct (Z.compare_spec 0 b); lia.
Qed.

Lemma rne_ge (a b N : Z) : 0 < b -> N * b <= a -> N <= rne a b.
Proof.
  intros Hb H. pose proof (rne_floor a Hb).
  pose proof (Z.div_le_lower_bound a b N Hb ltac:(lia)). lia.
Qed.

Lemma rne_nearest (a b : Z) : 0 < b -> 2 * Z.abs (rne a b * b - a) <= b.
Proof.
  intros Hb. unfold rne.
  pose proof (Z.div_mod a b ltac:(lia)) as E.
  pose proof (Z.mod_pos_bound a b Hb) as M.
  destruct (Z.compare_spec (2 * (a mod b)) b);
    [destruct (Z.even (a / b))|..]; nia.
Qed.

Lemma units_le (a b e : Z) :
  0 < b -> 0 <= e -> a <= 2 ^ e * b -> units a b <= 2 ^ e.
Proof.
  intros Hb He H. unfold units.
  set (k := a / b).
  assert (Hk : k <= 2 ^ e).
  { apply Z.div_le_upper_bound; [assumption | lia]. }
  assert (HL : Z.log2 k <= e).
  { destruct (Z.le_gt_cases k 0) as [K | K].
    - rewrite Z.log2_nonpos by assumption. assumption.
    - apply Z.lt_succ_r. apply Z.log2_lt_pow2; [assumption|].
      rewrite Z.pow_succ_r by assumption. lia. }
  set (shift := Z.max 0 (Z.log2 k - 52)).
  assert (Hs : 0 <= shift <= e) by lia.
  assert (P : 2 ^ e = 2 ^ (e - shift) * 2 ^ shift).
  { rewrite <- Z.pow_add_r by lia. f_equal. lia. }
  assert (Ps : 0 < 2 ^ shift) by (apply Z.pow_pos_nonneg; lia).
  assert (R : rne a (b * 2 ^ shift) <= 2 ^ (e - shift)).
  { apply rne_le; [nia|]. rewrite P in H. lia. }
  rewrite P. nia.
Qed.

Lemma units_ge (a b e : Z) :
  0 < b -> 0 <= e -> 2 ^ e * b <= a -> 2 ^ e <= units a b.
Proof.
  intros Hb He H. unfold units.
  set (k := a / b).
  assert (Pe : 0 < 2 ^ e) by (apply Z.pow_pos_nonneg; lia).
  assert (Hk : 2 ^ e <= k).
  { apply Z.div_le_lower_bound; [assumption | lia]. }
  assert (K : 0 < k) by lia.
  assert (HL : e <= Z.log2 k).
  { rewrite <- (Z.log2_pow2 e He). now apply Z.log2_le_mono. }
  pose proof (Z.log2_spec k K) as [S1 _].
  assert (KB : k * b <= a).
  { unfold k. pose proof (Z.mul_div_le a b Hb). lia. }
  set (shift := Z.max 0 (Z.log2 k - 52)).
  assert (Ps : 0 < 2 ^ shift) by (apply Z.pow_pos_nonneg; lia).
  destruct (Z.le_gt_cases shift e) as [C | C].
  - assert (P : 2 ^ e = 2 ^ (e - shift) * 2 ^ shift).
    { rewrite <- Z.pow_add_r by lia. f_equal. lia. }
    assert (R : 2 ^ (e - shift) <= rne a (b * 2 ^ shift)).
    { apply rne_ge; [nia|]. rewrite P in H. lia. }
    rewrite P. nia.
  - assert (E : Z.log2 k = 52 + shift) by lia.
    assert (P : 2 ^ Z.log2 k = 2 ^ 52 * 2 ^ shift).
    { rewrite E. apply Z.pow_add_r; lia. }
    assert (R : 2 ^ 52 <= rne a (b * 2 ^ shift)).
    { apply rne_ge; [nia|]. nia. }
    assert (M : 2 ^ e <= 2 ^ shift) by (apply Z.pow_le_mono_r; lia).
    assert (0 < 2 ^ 52) by (apply Z.pow_pos_nonneg; lia).
    nia.
Qed.

Lemma units_error (a b : Z) :
  0 < b -> 2 ^ 52 * b <= a -> 2 ^ 53 * Z.abs (units a b * b - a) <= a.
Proof.
  intros Hb H. unfold units.
  set (k := a / b).
  assert (Hk : 2 ^ 52 <= k).
  { apply Z.div_le_lower_bound; [assumption | lia]. }
  assert (K : 0 < k) by (assert (0 < 2 ^ 52) by reflexivity; lia).
  assert (HL : 52 <= Z.log2 k).
  { rewrite <- (Z.log2_pow2 52) by lia. now apply Z.log2_le_mono. }
  pose proof (Z.log2_spec k K) as [S1 _].
  assert (KB : k * b <= a).
  { unfold k. pose proof (Z.mul_div_le a b Hb). lia. }
  set (shift := Z.max 0 (Z.log2 k - 52)).
  assert (Ps : 0 < 2 ^ shift) by (apply Z.pow_pos_nonneg; lia).
  assert (E : Z.log2 k = 52 + shift) by lia.
  assert (P : 2 ^ Z.log2 k = 2 ^ 52 * 2 ^ shift).
  { rewrite E. apply Z.pow_add_r; lia. }
  pose proof (@rne_nearest a (b * 2 ^ shift) (Z.mul_pos_pos _ _ Hb Ps)) as N.
  replace (rne a (b * 2 ^ shift) * 2 ^ shift * b - a)
    with (rne a (b * 2 ^ shift) * (b * 2 ^ shift) - a) by ring.
  change (2 ^ 53) with (2 ^ 52 * 2).
  nia.
Qed.

Lemma units_positive (a b : Z) :
  0 < b -> 0 <= a -> (0 < units a b <-> b < 2 * a).
Proof.
  intros Hb Ha.
  destruct (Z.lt_ge_cases a b) as [C | C].
  - unfold units. rewrite (Z.div_small a b) by lia.
    change (Z.max 0 (Z.log2 0 - 52)) with 0. rewrite Z.pow_0_r, !Z.mul_1_r.
    unfold rne. rewrite (Z.div_small a b), (Z.mod_small a b) by lia.
    destruct (Z.compare_spec (2 * a) b); cbn [Z.even Z.add]; lia.
  - pose proof (@units_ge a b 0 Hb ltac:(lia) ltac:(rewrite Z.pow_0_r; lia)) as G.
    rewrite Z.pow_0_r in G. lia.
Qed.

Lemma pow_pos_Z (n : positive) : Zpos (2 ^ n) = 2 ^ Zpos n.
Proof. apply Pos2Z.inj_pow. Qed.

Lemma of_units_eq (v : Z) : (of_units v == v # 2 ^ 1074)%Q.
Proof. apply Qred_correct. Qed.

(** A quotient in (0, 1] stays in [0, 1]. *)
Lemma round64_unit (q : Q) :
  (0 < q)%Q -> (q <= 1)%Q ->
  exists f, round64 q = Fin f /\ (0 <= f)%Q /\ (f <= 1)%Q
            /\ ((0 < f)%Q <-> (1 < q * inject_Z (2 ^ 1075))%Q).
Proof.
  destruct q as [n d]. intros H0 H1.
  unfold Qlt in H0. unfold Qle in H1. cbn [Qnum Qden] in H0, H1.
  rewrite Z.mul_1_r in H0. rewrite Z.mul_1_r, Z.mul_1_l in H1.
  cbn [Z.mul] in H0.
  unfold round64. cbn [Qnum]. destruct n as [|p|p]; try lia.
  unfold round_units. cbn [Qnum Qden].
  set (a := Z.pos p * 2 ^ 1074). set (b := Z.pos d).
  assert (P : 0 < 2 ^ 1074) by (apply Z.pow_pos_nonneg; lia).
  assert (Hb : 0 < b) by reflexivity.
  assert (Ha : 0 <= a) by (unfold a; lia).
  pose proof (@units_le a b 1074 Hb ltac:(lia) ltac:(unfold a, b; nia)) as U.
  pose proof (@units_positive a b Hb Ha) as Pz.
  assert (N : 0 <= units a b).
  { destruct (Z.lt_ge_cases b (2 * a)) as [C | C]; [apply Pz in C; lia|].
    destruct (Z.le_gt_cases 0 (units a b)); [assumption|].
    exfalso. unfold units in *.
    rewrite (Z.div_small a b) in * by lia.
    change (Z.max 0 (Z.log2 0 - 52)) with 0 in *.
    rewrite Z.pow_0_r, !Z.mul_1_r in *.
    pose proof (@rne_floor a b Hb). rewrite (Z.div_small a b) in * by lia. lia. }
  assert (F : (2 ^ 2098 <=? units a b) = false).
  { apply Z.leb_gt. eapply Z.le_lt_trans; [exact U|].
    apply Z.pow_lt_mono_r; lia. }
  rewrite F. eexists. split; [reflexivity|].
  setoid_replace (of_units (units a b)) with (units a b # 2 ^ 1074)%Q
    by apply of_units_eq.
  unfold Qlt, Qle, Qmult. cbn [Qnum Qden inject_Z].
  rewrite pow_pos_Z, Pos.mul_1_r, !Z.mul_1_r, ?Z.mul_1_l, Z.mul_0_l.
  split; [assumption|]. split; [assumption|].
  rewrite Pz. unfold a, b.
  change (2 ^ 1075) with (2 * 2 ^ 1074). lia.
Qed.

(** In the range of the normal numbers the result is within one part in
    2^53 of the exact value. *)
Lemma round64_accuracy (q : Q) :
  (1 <= q * inject_Z (2 ^ 1022))%Q ->
  (q <= inject_Z (2 ^ 1023))%Q ->
  exists f,
    round64 q = Fin f /\ (Qabs (f - q) * inject_Z (2 ^ 53) <= q)%Q.
Proof.
  destruct q as [n d]. intros H0 H1.
  unfold Qle, Qmult in H0, H1. cbn [Qnum Qden inject_Z] in H0, H1.
  rewrite Pos.mul_1_r, Z.mul_1_l in H0. rewrite !Z.mul_1_r in H1.
  assert (P : 0 < 2 ^ 1022) by (apply Z.pow_pos_nonneg; lia).
  unfold round64. cbn [Qnum]. destruct n as [|p|p]; try lia.
  unfold round_units. cbn [Qnum Qden].
  set (a := Z.pos p * 2 ^ 1074). set (b := Z.pos d).
  assert (Hb : 0 < b) by reflexivity.
  assert (E1 : 2 ^ 1074 = 2 ^ 52 * 2 ^ 1022) by reflexivity.
  assert (E2 : 2 ^ 2097 = 2 ^ 1023 * 2 ^ 1074) by reflexivity.
  assert (P52 : 0 < 2 ^ 52) by (apply Z.pow_pos_nonneg; lia).
  assert (P1074 : 0 < 2 ^ 1074) by (apply Z.pow_pos_nonneg; lia).
  assert (L : 2 ^ 52 * b <= a).
  { unfold a, b. rewrite E1. generalize dependent (2 ^ 1022).
    generalize dependent (2 ^ 52). intros; nia. }
  assert (U : units a b <= 2 ^ 2097).
  { apply units_le; [assumption | lia |]. unfold a, b. rewrite E2.
    generalize dependent (2 ^ 1023). generalize dependent (2 ^ 1074).
    intros; nia. }
  assert (F : (2 ^ 2098 <=? units a b) = false).
  { apply Z.leb_gt. eapply Z.le_lt_trans; [exact U|].
    apply Z.pow_lt_mono_r; lia. }
  rewrite F. eexists. split; [reflexivity|].
  setoid_replace (of_units (units a b)) with (units a b # 2 ^ 1074)%Q
    by apply of_units_eq.
  pose proof (units_error Hb L) as Er.
  unfold Qle, Qmult, Qminus, Qplus, Qopp, Qabs.
  cbn [Qnum Qden inject_Z].
  rewrite pow_pos_Z, Pos.mul_1_r, Pos2Z.inj_mul, pow_pos_Z.
  fold b.
  replace (units a b * b + - Z.pos p * 2 ^ 1074)
    with (units a b * b - Z.pos p * 2 ^ 1074) by ring.
  assert (P53 : 0 < 2 ^ 53) by (apply Z.pow_pos_nonneg; lia).
  remember (2 ^ 53) as B. remember (2 ^ 1074) as A.
  subst a.
  remember (Z.abs (units (Z.pos p * A) b * b - Z.pos p * A)) as X.
  clear - Er Hb P53 P1074. nia.
Qed.

Lemma Qsgn_nonzero (q : Q) : ~ (q == 0)%Q -> Qsgn q <> 0.
Proof.
  intros H E. apply H. unfold Qsgn in E. unfold Qeq. cbn [Qnum Qden].
  destruct (Qnum q); try discriminate E. reflexivity.
Qed.

Lemma Qsgn_pos (q : Q) : (0 < q)%Q -> exists p, Qsgn q = Zpos p.
Proof.
  unfold Qlt, Qsgn. cbn [Qnum Qden]. rewrite Z.mul_1_r. intros H.
  destruct (Qnum q) as [|p|p]; try lia. now exists 1%positive.
Qed.

(** A division by a finite number that is not zero is the rounded quotient. *)
Lemma fdiv_finite (x y : Q) :
  ~ (y == 0)%Q -> fdiv (Fin x) (Fin y) = round64 (x / y).
Proof.
  intros H. apply Qsgn_nonzero in H. unfold fdiv.
  destruct (Qsgn y); [congruence | reflexivity..].
Qed.

Lemma fdiv_zero (x y : Q) :
  (x == 0)%Q -> ~ (y == 0)%Q -> fdiv (Fin x) (Fin y) = Fin 0.
Proof.
  intros Hx Hy. rewrite (fdiv_finite x Hy).
  unfold Qeq in Hx. cbn [Qnum Qden] in Hx. rewrite Z.mul_1_r in Hx.
  unfold round64, Qdiv, Qmult. cbn [Qnum]. now rewrite Hx.
Qed.

End NumFacts.

(** ** The normalizer *)

Module NormalizerFacts.

Lemma fdiv_per_day (volume days : fnum) : per_day volume days (fdiv volume days).
Proof.
  intros v d -> -> Hd.
  assert (Hn : ~ (d == 0)%Q).
  { intros E. rewrite E in Hd. discriminate Hd. }
  split.
  - intros Hv. now apply NumFacts.fdiv_zero.
  - intros Hlo Hhi. rewrite (NumFacts.fdiv_finite v Hn).
    now apply NumFacts.round64_accuracy.
Qed.

Lemma monthrange_days_bounds (y m : Z) :
  1 <= m <= 12 -> 28 <= monthrange_days y m <= 31.
Proof.
  intros H. unfold monthrange_days, mdays.
  assert (C : m = 1 \/ m = 2 \/ m = 3 \/ m = 4 \/ m = 5 \/ m = 6 \/ m = 7
              \/ m = 8 \/ m = 9 \/ m = 10 \/ m = 11 \/ m = 12) by lia.
  repeat (destruct C as [-> | C];
          [simpl; try destruct (isleap y); lia|]).
  subst m. simpl. lia.
Qed.

Lemma preprocess_prod_nth df i row w :
  nth_error df i = Some (row, w) ->
  nth_error (preprocess_prod df) i
  = Some {| WELL := pc_WELL row;
            DATE := pc_DATE row;
            OIL := fdiv (pc_OIL row) (pc_DAYS row);
            WATER := fdiv (pc_WATER row) (pc_DAYS row);
            GAS := fdiv (pc_GAS row) (pc_DAYS row);
            WINJ := fdiv (pc_WINJ row) (pc_DAYS row);
            DAYS := pc_DAYS row;
            BHP := pc_BHP row;
            THP := pc_THP row;
            month_length :=
              monthrange_days (year (pc_DATE row)) (month (pc_DATE row));
            prod_well := w |}.
Proof.
  intros H. unfold preprocess_prod. now rewrite nth_error_map, H.
Qed.

(** C5.  The normalizer turns the row at each position into a row whose
    oil, water, gas and injection cells are the float64 quotients of the
    reported volumes by the days on production (zero for a zero volume,
    and within one part in 2^53 of the exact quotient in the range of the
    normal numbers), and whose month length is the number of days of the
    month of its date (the days from the first of that month to the first of
    the next).  The row OIL 100, WATER 0, GAS 50, DAYS 20 of April 2021
    makes the schedule consist of a WCONHIST Record with rates 5, 0 and 5/2
    and a WEFAC Record whose factor is 20/30 as a float64, the number
    nearest to 2/3: the zero water rate keeps neither from being written,
    as for any row whose oil rate is positive. *)
Theorem normalized_rates :
  (forall df i row w,
      nth_error df i = Some (row, w) ->
      exists r,
        nth_error (preprocess_prod df) i = Some r
        /\ OIL r = fdiv (pc_OIL row) (pc_DAYS row)
        /\ WATER r = fdiv (pc_WATER row) (pc_DAYS row)
        /\ GAS r = fdiv (pc_GAS row) (pc_DAYS row)
        /\ WINJ r = fdiv (pc_WINJ row) (pc_DAYS row)
        /\ per_day (pc_OIL row) (pc_DAYS row) (OIL r)
        /\ per_day (pc_WATER row) (pc_DAYS row) (WATER r)
        /\ per_day (pc_GAS row) (pc_DAYS row) (GAS r)
        /\ per_day (pc_WINJ row) (pc_DAYS row) (WINJ r)
        /\ DAYS r = pc_DAYS row
        /\ month_length r
           = monthrange_days (year (pc_DATE row)) (month (pc_DATE row))
        /\ (valid_date (pc_DATE row) ->
            28 <= month_length r <= 31
            /\ month_length r
               = toordinal (month_start (month_index (pc_DATE row) + 1))
                 - toordinal (month_start (month_index (pc_DATE row)))))
  /\ monthrange_days 2021 4 = 30
  /\ schedule example_args example_input
     = Ok [ (FromProduction 0,
             CallWconprodh
               (mkwconprodh (PStr "W1") (Some (PStr "OPEN"))
                  (Some (PStr "LRAT"))
                  (Some (PFloat (Fin 5))) (Some (PFloat (Fin 0)))
                  (Some (PFloat (Fin (5 # 2))))
                  None None (Some (PStr "*")) (Some (PStr "*")) None None));
            (FromProduction 0,
             CallWefac
               (mkwefac (PStr "W1") (Some (PFloat (Fin two_thirds))) None)) ]
  /\ (Qabs (two_thirds - (2 # 3)) * inject_Z (2 ^ 53) <= 2 # 3)%Q
  /\ (forall i row,
         gt0 (OIL row) = true ->
         In (FromProduction i, wconprodh_call row)
            (production_row_body (i, row))
         /\ In (FromProduction i, wefac_call row)
               (production_row_body (i, row))).
Proof.
  split; [|split; [reflexivity|split; [vm_compute; reflexivity|split]]];
    [|vm_compute; discriminate|].
  - intros df i row w H. eexists.
    split; [exact (preprocess_prod_nth df i H)|].
    cbn [OIL WATER GAS WINJ DAYS month_length].
    repeat (split; [first [reflexivity | apply fdiv_per_day]|]).
    intros [Hm _]. split.
    + apply monthrange_days_bounds, Hm.
    + apply CalendarFacts.month_length_is_day_count, Hm.
  - intros i row Hoil. unfold production_row_body. rewrite Hoil.
    destruct (gt0 (WINJ row)); cbn [app In]; auto.
Qed.

Lemma normalized_rates_witness :
  exists r,
    nth_error (preprocess_prod [(example_csv, Some sample_well)]) 0 = Some r
    /\ OIL r = Fin 5 /\ WATER r = Fin 0 /\ GAS r = Fin (5 # 2)
    /\ month_length r = 30
    /\ (exists x : Q,
          OIL r = Fin x
          /\ (Qabs (x - inject_Z 100 / inject_Z 20) * inject_Z (2 ^ 53)
              <= inject_Z 100 / inject_Z 20)%Q)
    /\ In (FromProduction 0, wconprodh_call r) (production_row_body (0%nat, r)).
Proof.
  destruct normalized_rates as (H & _ & _ & _ & Hw).
  destruct (H [(example_csv, Some sample_well)] 0%nat example_csv
              (Some sample_well) eq_refl)
    as (r & Hr & Ho & Hwa & Hg & _ & Hpd & _ & _ & _ & _ & Hm & _).
  exists r. repeat split; try assumption.
  - apply (Hpd (inject_Z 100) (inject_Z 20) eq_refl eq_refl);
      vm_compute; congruence.
  - apply Hw. rewrite Ho. vm_compute. reflexivity.
Defined.

End NormalizerFacts.

(** ** The timeline walker *)

Module WalkerFacts.
Import Text TextFacts.

Section Tables.

Variable production : list prod_row.
Variable perf : list perf_row.
Variable man_ops : list manop_row.

(** *** The loop as a concatenation of its iterations *)

Lemma walk_from (timesteps : list date) :
  forall st,
    fold_left (timestep_step production perf man_ops) timesteps st
    = match timesteps with
      | [] => st
      | t :: rest =>
          mkwalker false
            (written st
             ++ timestep_body production perf man_ops (first_month_flag st) t
             ++ flat_map (timestep_body production perf man_ops false) rest)
      end.
Proof.
  induction timesteps as [|t rest IH]; intros st; [reflexivity|].
  cbn [fold_left]. rewrite IH. unfold timestep_step at 2 3.
  cbn [first_month_flag written].
  destruct rest as [|t' rest'].
  - cbn [flat_map]. now rewrite app_nil_r.
  - cbn [flat_map]. now rewrite <- app_assoc.
Qed.

Lemma walk_written (t0 : date) (rest : list date) :
  written (walk production perf man_ops (t0 :: rest))
  = (timestep_body production perf man_ops true t0
     ++ flat_map (timestep_body production perf man_ops false) rest)%list.
Proof. unfold walk. now rewrite walk_from. Qed.

Lemma first_body (t : date) :
  timestep_body production perf man_ops true t
  = (pre_start_part perf t ++ rows_part production perf man_ops t)%list.
Proof. reflexivity. Qed.

Lemma later_body (t : date) :
  timestep_body production perf man_ops false t
  = (period_header t ++ rows_part production perf man_ops t)%list.
Proof. reflexivity. Qed.

(** *** What the three inner loops can write *)

Lemma perf_loop_plain (sl : list (nat * perf_row)) :
  forallb plain (perf_loop sl) = true.
Proof.
  unfold perf_loop. induction sl as [|[i row] sl IH]; [reflexivity|].
  cbn [map forallb]. now rewrite IH.
Qed.

Lemma wconinjh_call_plain i row :
  plain (FromProduction i, wconinjh_call row) = true.
Proof. unfold plain. cbn. now rewrite andb_false_r. Qed.

Lemma wconprodh_call_plain i row :
  plain (FromProduction i, wconprodh_call row) = true.
Proof. unfold plain. cbn. now rewrite andb_false_r. Qed.

Lemma wefac_call_plain i row :
  plain (FromProduction i, wefac_call row) = true.
Proof. unfold plain. cbn. now rewrite andb_false_r. Qed.

Lemma production_row_plain (ir : nat * prod_row) :
  forallb plain (production_row_body ir) = true.
Proof.
  destruct ir as [i row]. unfold production_row_body.
  destruct (gt0 (WINJ row)), (gt0 (OIL row)); cbn [app forallb];
    now rewrite ?wconinjh_call_plain, ?wconprodh_call_plain,
      ?wefac_call_plain.
Qed.

Lemma manop_plain (ir : nat * manop_row) : forallb plain (manop_body ir) = true.
Proof. destruct ir as [i row]. reflexivity. Qed.

Lemma flat_map_plain (A : Type) (f : A -> list emission) (l : list A) :
  (forall x, forallb plain (f x) = true) ->
  forallb plain (flat_map f l) = true.
Proof.
  intros H. induction l as [|x l IH]; [reflexivity|].
  cbn [flat_map]. now rewrite forallb_app, H, IH.
Qed.

Lemma rows_part_plain (t : date) :
  forallb plain (rows_part production perf man_ops t) = true.
Proof.
  unfold rows_part. rewrite !forallb_app, perf_loop_plain.
  rewrite (flat_map_plain _ _ production_row_plain).
  now rewrite (flat_map_plain _ _ manop_plain).
Qed.

Lemma plain_no_dates (out : list emission) :
  forallb plain out = true -> dates_calls out = [].
Proof.
  induction out as [|[o c] out IH]; [reflexivity|].
  cbn [forallb]. intros H. apply andb_true_iff in H as [He Ho].
  cbn [dates_calls flat_map]. fold (dates_calls out). rewrite (IH Ho).
  unfold plain in He. cbn [snd] in *.
  destruct c; try reflexivity.
  now rewrite andb_false_r in He.
Qed.

Lemma plain_no_reset (out : list emission) :
  forallb plain out = true -> reset_calls out = [].
Proof.
  unfold reset_calls.
  induction out as [|[o c] out IH]; [reflexivity|].
  cbn [forallb]. intros H. apply andb_true_iff in H as [He Ho].
  cbn [map filter snd]. rewrite (IH Ho).
  unfold plain in He. apply andb_true_iff in He as [_ He].
  apply negb_true_iff in He. cbn [snd] in He. now rewrite He.
Qed.

Lemma plain_for_a_row (out : list emission) :
  forallb plain out = true -> forallb for_a_row out = true.
Proof.
  rewrite !forallb_forall. intros H e He. specialize (H e He).
  unfold plain in H. now apply andb_true_iff in H as [H%andb_true_iff _].
Qed.

Lemma dates_calls_app (a b : list emission) :
  dates_calls (a ++ b) = (dates_calls a ++ dates_calls b)%list.
Proof. unfold dates_calls. apply flat_map_app. Qed.

Lemma reset_calls_app (a b : list emission) :
  reset_calls (a ++ b) = (reset_calls a ++ reset_calls b)%list.
Proof. unfold reset_calls. now rewrite map_app, filter_app. Qed.

End Tables.

Lemma later_body_dates production perf man_ops (t : date) :
  dates_calls (timestep_body production perf man_ops false t) = [TDate t].
Proof.
  rewrite later_body, dates_calls_app.
  now rewrite (plain_no_dates _ (rows_part_plain production perf man_ops t)).
Qed.

Lemma later_body_resets production perf man_ops (t : date) :
  reset_calls (timestep_body production perf man_ops false t)
  = [reset_wconprodh; reset_wconinjh; reset_wefac].
Proof.
  rewrite later_body, reset_calls_app.
  now rewrite (plain_no_reset _ (rows_part_plain production perf man_ops t)).
Qed.

Lemma first_body_plain production perf man_ops (t : date) :
  forallb plain (timestep_body production perf man_ops true t) = true.
Proof.
  rewrite first_body, forallb_app. unfold pre_start_part.
  now rewrite perf_loop_plain, rows_part_plain.
Qed.

(** C3.  The run is the concatenation of its periods.  The initial period
    writes no DATES Record and no reset Record.  Every other period writes
    first its DATES Record, then the three resets on the wildcard entity
    (WCONHIST to SHUT, WCONINJH to SHUT, WEFAC to 1), and only then Records
    made for rows of the tables; these four are the only DATES and reset
    Records of the period. *)
Theorem period_resets production perf man_ops (t0 : date) (rest : list date) :
  written (walk production perf man_ops (t0 :: rest))
  = (timestep_body production perf man_ops true t0
     ++ flat_map (timestep_body production perf man_ops false) rest)%list
  /\ dates_calls (timestep_body production perf man_ops true t0) = []
  /\ reset_calls (timestep_body production perf man_ops true t0) = []
  /\ forall t,
       exists rows,
         timestep_body production perf man_ops false t
         = ([ (FromTimestep, CallDates (TDate t));
              (FromTimestep,
               CallWconprodh
                 (mkwconprodh (PStr "*") (Some (PStr "SHUT"))
                    (Some (PStr "LRAT")) None None None None None None None
                    None None));
              (FromTimestep,
               CallWconinjh
                 (mkwconinjh (PStr "*") (Some (PStr "WATER"))
                    (Some (PStr "SHUT")) None None None None None None None
                    None None));
              (FromTimestep,
               CallWefac (mkwefac (PStr "*") (Some (PInt 1)) None)) ]
            ++ rows)%list
         /\ forallb for_a_row rows = true
         /\ List.length
              (dates_calls (timestep_body production perf man_ops false t))
            = 1%nat
         /\ List.length
              (reset_calls (timestep_body production perf man_ops false t))
            = 3%nat.
Proof.
  split; [apply walk_written|].
  split; [apply plain_no_dates, first_body_plain|].
  split; [apply plain_no_reset, first_body_plain|].
  intros t. exists (rows_part production perf man_ops t).
  split; [apply later_body|].
  split; [apply plain_for_a_row, rows_part_plain|].
  now rewrite later_body_dates, later_body_resets.
Qed.

Lemma later_bodies_dates production perf man_ops (rest : list date) :
  dates_calls (flat_map (timestep_body production perf man_ops false) rest)
  = map TDate rest.
Proof.
  induction rest as [|t rest IH]; [reflexivity|].
  cbn [flat_map map]. now rewrite dates_calls_app, later_body_dates, IH.
Qed.

Lemma walk_dates production perf man_ops (timesteps : list date) :
  dates_calls (written (walk production perf man_ops timesteps))
  = map TDate (tl timesteps).
Proof.
  destruct timesteps as [|t0 rest]; [reflexivity|].
  rewrite walk_written, dates_calls_app, later_bodies_dates.
  now rewrite (plain_no_dates _ (first_body_plain production perf man_ops t0)).
Qed.

Lemma slength_app (a b : string) :
  String.length (a ++ b) = (String.length a + String.length b)%nat.
Proof.
  induction a as [|c a IH]; [reflexivity|].
  cbn [append String.length]. now rewrite IH.
Qed.

Lemma dates_out_text (ts : timestamp) (mon : string) (d : dest) (w : sinks) :
  month_codes (month (ts_date ts)) = Some mon ->
  dates_out ts d w
  = Ok (_write_to_dest (dates_record (ts_date ts) mon (hour_tail ts)) d w).
Proof.
  intros M. unfold dates_out, dates_keyword, dates_record. rewrite M.
  cbv zeta. now rewrite !sapp_assoc.
Qed.

(** C10.  Whether the text that [dates_out] writes has the time tail depends
    on the kind of the timestamp alone.  For a datetime the date line has
    [HH:MM:SS] and a space between the year and the slash, [00:00:00] at
    midnight; for a date the slash follows the year.  The walker passes a
    date for each timestep after the first, so every DATES Record that a
    run writes to the file is without a tail. *)
Theorem time_tail_by_type :
  (forall d t mon dest w,
      month_codes (month d) = Some mon ->
      dates_out (TDateTime d t) dest w
      = Ok (_write_to_dest
              (dates_record d mon
                 (fmt02 (hour t) ++ ":" ++ fmt02 (minute t) ++ ":"
                  ++ fmt02 (second t) ++ " ")) dest w)
      /\ dates_out (TDateTime d (mktime 0 0 0)) dest w
         = Ok (_write_to_dest (dates_record d mon "00:00:00 ") dest w)
      /\ dates_out (TDate d) dest w
         = Ok (_write_to_dest (dates_record d mon "") dest w)
      /\ dates_record d mon
           (fmt02 (hour t) ++ ":" ++ fmt02 (minute t) ++ ":"
            ++ fmt02 (second t) ++ " ")
         <> dates_record d mon "")
  /\ (forall repr_float production perf man_ops timesteps o ts,
         In (o, CallDates ts)
            (written (walk production perf man_ops timesteps)) ->
         exists d,
           ts = TDate d /\ In d (tl timesteps)
           /\ forall mon w,
                month_codes (month d) = Some mon ->
                run_call repr_float (CallDates ts) w
                = Ok (mksinks (stdout w)
                              (outfile w ++ dates_record d mon ""))).
Proof.
  split.
  - intros d t mon dest w M.
    split; [exact (dates_out_text (TDateTime d t) dest w M)|].
    split; [exact (dates_out_text (TDateTime d (mktime 0 0 0)) dest w M)|].
    split; [exact (dates_out_text (TDate d) dest w M)|].
    unfold dates_record. intros E.
    apply (f_equal String.length) in E.
    rewrite !slength_app in E. cbn [String.length] in E. lia.
  - intros repr_float production perf man_ops timesteps o ts H.
    assert (I : In ts (dates_calls
                         (written (walk production perf man_ops timesteps)))).
    { unfold dates_calls. apply in_flat_map.
      exists (o, CallDates ts). split; [assumption | now left]. }
    rewrite walk_dates in I. apply in_map_iff in I as (d & <- & Hd).
    exists d. split; [reflexivity|]. split; [exact Hd|].
    intros mon w M. cbn [run_call].
    now rewrite (dates_out_text (TDate d) TextIO w M).
Qed.

Lemma time_tail_by_type_witness :
  dates_out (TDateTime (mkdate 2021 5 1) (mktime 0 0 0)) TextIO
            (mksinks "" "")
  = Ok (mksinks "" ("DATES" ++ nl ++ "01 MAY 2021 00:00:00 /" ++ nl ++ "/"
                    ++ nl ++ nl))
  /\ dates_out (TDate (mkdate 2021 5 1)) TextIO (mksinks "" "")
     = Ok (mksinks "" ("DATES" ++ nl ++ "01 MAY 2021 /" ++ nl ++ "/"
                       ++ nl ++ nl))
  /\ exists d,
       TDate (mkdate 2021 5 1) = TDate d
       /\ In d (tl [mkdate 2021 4 1; mkdate 2021 5 1])
       /\ forall mon w,
            month_codes (month d) = Some mon ->
            run_call no_floats (CallDates (TDate (mkdate 2021 5 1))) w
            = Ok (mksinks (stdout w) (outfile w ++ dates_record d mon "")).
Proof.
  destruct time_tail_by_type as (He & Hw).
  destruct (He (mkdate 2021 5 1) (mktime 0 0 0) "MAY" TextIO (mksinks "" "")
               eq_refl) as (_ & H0 & Hd & _).
  split; [exact H0|]. split; [exact Hd|].
  apply (Hw no_floats [] [] [] [mkdate 2021 4 1; mkdate 2021 5 1]
            FromTimestep).
  vm_compute. left. reflexivity.
Defined.

(** *** Following one row of a table through an iteration *)

Lemma combine_seq_fst_ge (R : Type) (l : list R) :
  forall a ir, In ir (combine (seq a (List.length l)) l) -> (a <= fst ir)%nat.
Proof.
  induction l as [|x l IH]; intros a ir H; [destruct H|].
  cbn [List.length seq combine] in H. destruct H as [<- | H]; [simpl; lia|].
  apply IH in H. lia.
Qed.

Lemma filter_nil_iff (A : Type) (p : A -> bool) (l : list A) :
  (forall x, In x l -> p x = false) -> filter p l = [].
Proof.
  induction l as [|x l IH]; intros H; [reflexivity|].
  cbn [filter]. rewrite (H x (or_introl eq_refl)).
  apply IH. intros y Hy. apply H. now right.
Qed.

Lemma combine_seq_index (R : Type) (l : list R) :
  forall a i row,
    nth_error l i = Some row ->
    filter (fun ir => Nat.eqb (a + i) (fst ir))
           (combine (seq a (List.length l)) l)
    = [((a + i)%nat, row)].
Proof.
  induction l as [|x l IH]; intros a i row H; [now destruct i|].
  cbn [List.length seq combine filter fst]. destruct i as [|i].
  - injection H as <-. rewrite Nat.add_0_r, Nat.eqb_refl. f_equal.
    apply filter_nil_iff. intros ir Hir. apply combine_seq_fst_ge in Hir.
    apply Nat.eqb_neq. lia.
  - replace (Nat.eqb (a + S i) a) with false
      by (symmetry; apply Nat.eqb_neq; lia).
    replace (a + S i)%nat with (S a + i)%nat by lia.
    now apply IH.
Qed.

Lemma iterrows_index (R : Type) (l : list R) (i : nat) (row : R) :
  nth_error l i = Some row ->
  filter (fun ir => Nat.eqb i (fst ir)) (iterrows l) = [(i, row)].
Proof. intros H. exact (combine_seq_index l 0 i H). Qed.

Lemma filter_comm (A : Type) (p q : A -> bool) (l : list A) :
  filter p (filter q l) = filter q (filter p l).
Proof.
  induction l as [|x l IH]; [reflexivity|].
  cbn [filter]. destruct (p x) eqn:P, (q x) eqn:Q; cbn [filter];
    rewrite ?P, ?Q, IH; reflexivity.
Qed.

Lemma filter_flat_map (A B : Type) (p : B -> bool) (f : A -> list B)
      (l : list A) :
  filter p (flat_map f l) = flat_map (fun x => filter p (f x)) l.
Proof.
  induction l as [|x l IH]; [reflexivity|].
  cbn [flat_map]. now rewrite filter_app, IH.
Qed.

Lemma flat_map_nil (A B : Type) (f : A -> list B) (l : list A) :
  (forall x, In x l -> f x = []) -> flat_map f l = [].
Proof.
  induction l as [|x l IH]; intros H; [reflexivity|].
  cbn [flat_map]. rewrite (H x (or_introl eq_refl)).
  apply IH. intros y Hy. apply H. now right.
Qed.

Lemma perf_loop_from_perf (i : nat) (sl : list (nat * perf_row)) :
  filter (from_perf i) (perf_loop sl)
  = perf_loop (filter (fun ir => Nat.eqb i (fst ir)) sl).
Proof.
  unfold perf_loop. induction sl as [|[j row] sl IH]; [reflexivity|].
  cbn [map filter fst]. unfold from_perf at 1. cbn [fst].
  destruct (Nat.eqb i j); cbn [map]; now rewrite IH.
Qed.

Lemma production_from_perf (i : nat) (sl : list (nat * prod_row)) :
  filter (from_perf i) (flat_map production_row_body sl) = [].
Proof.
  rewrite filter_flat_map. apply flat_map_nil. intros [j row] _.
  unfold production_row_body.
  destruct (gt0 (WINJ row)), (gt0 (OIL row)); reflexivity.
Qed.

Lemma manops_from_perf (i : nat) (sl : list (nat * manop_row)) :
  filter (from_perf i) (flat_map manop_body sl) = [].
Proof.
  rewrite filter_flat_map. apply flat_map_nil. now intros [j row] _.
Qed.

(** The emissions made for perforation row [i] by a slice of [perf]. *)
Lemma perf_slice_from_perf perf (mask : perf_row -> bool) i row :
  nth_error perf i = Some row ->
  filter (from_perf i)
         (perf_loop (filter (fun ir => mask (snd ir)) (iterrows perf)))
  = if mask row then [(FromPerf i, perf_call row)] else [].
Proof.
  intros H. rewrite perf_loop_from_perf, filter_comm.
  rewrite (iterrows_index perf i H). cbn [filter snd].
  now destruct (mask row).
Qed.

Lemma rows_part_from_perf production perf man_ops t i row :
  nth_error perf i = Some row ->
  filter (from_perf i) (rows_part production perf man_ops t)
  = if date_eq_ts (perf_date row) t then [(FromPerf i, perf_call row)] else [].
Proof.
  intros H. unfold rows_part. rewrite !filter_app.
  rewrite production_from_perf, manops_from_perf, !app_nil_r.
  exact (perf_slice_from_perf perf
           (fun r => date_eq_ts (perf_date r) t) i H).
Qed.

Lemma pre_start_from_perf perf t i row :
  nth_error perf i = Some row ->
  filter (from_perf i) (pre_start_part perf t)
  = if date_lt_ts (perf_date row) t then [(FromPerf i, perf_call row)] else [].
Proof.
  intros H.
  exact (perf_slice_from_perf perf
           (fun r => date_lt_ts (perf_date r) t) i H).
Qed.

Lemma date_eqb_false_of_lt (a b : date) : date_lt a b -> date_eqb a b = false.
Proof.
  intros H. destruct (date_eqb a b) eqn:E; [|reflexivity].
  apply CalendarFacts.date_eqb_iff in E. subst b.
  now apply CalendarFacts.date_lt_irrefl in H.
Qed.

Lemma header_from_perf i t : filter (from_perf i) (period_header t) = [].
Proof. reflexivity. Qed.

(** *** Records told by what they hold *)

Lemma calls_app (a b : list emission) :
  calls_of (a ++ b) = (calls_of a ++ calls_of b)%list.
Proof. apply map_app. Qed.










(** *** Production rows *)

Lemma perf_loop_from_production (i : nat) (sl : list (nat * perf_row)) :
  filter (from_production i) (perf_loop sl) = [].
Proof.
  apply filter_nil_iff. intros e He. unfold perf_loop in He.
  apply in_map_iff in He as ([j row] & <- & _). reflexivity.
Qed.

Lemma manops_from_production (i : nat) (sl : list (nat * manop_row)) :
  filter (from_production i) (flat_map manop_body sl) = [].
Proof.
  rewrite filter_flat_map. apply flat_map_nil. now intros [j row] _.
Qed.

Lemma production_row_origin (i j : nat) (row : prod_row) :
  filter (from_production i) (production_row_body (j, row))
  = if Nat.eqb i j then production_row_body (j, row) else [].
Proof.
  unfold production_row_body.
  destruct (gt0 (WINJ row)), (gt0 (OIL row));
    cbn [app filter]; unfold from_production; cbn [fst];
    destruct (Nat.eqb i j); reflexivity.
Qed.

Lemma production_loop_from_production (i : nat) (sl : list (nat * prod_row)) :
  filter (from_production i) (flat_map production_row_body sl)
  = flat_map production_row_body (filter (fun ir => Nat.eqb i (fst ir)) sl).
Proof.
  induction sl as [|[j row] sl IH]; [reflexivity|].
  cbn [flat_map filter fst].
  rewrite filter_app, IH, production_row_origin.
  destruct (Nat.eqb i j); reflexivity.
Qed.

(** What an iteration writes for production row [i]. *)
Lemma timestep_from_production production perf man_ops first t i row :
  nth_error production i = Some row ->
  filter (from_production i) (timestep_body production perf man_ops first t)
  = if date_eqb (DATE row) t then production_row_body (i, row) else [].
Proof.
  intros H.
  assert (R : filter (from_production i) (rows_part production perf man_ops t)
              = if date_eqb (DATE row) t
                then production_row_body (i, row) else []).
  { unfold rows_part. rewrite !filter_app.
    rewrite perf_loop_from_production, manops_from_production, app_nil_r.
    cbn [app]. rewrite production_loop_from_production, filter_comm.
    rewrite (iterrows_index production i H). cbn [filter snd].
    destruct (date_eqb (DATE row) t); [|reflexivity].
    cbn [flat_map]. now rewrite app_nil_r. }
  destruct first.
  - rewrite first_body, filter_app. unfold pre_start_part.
    now rewrite perf_loop_from_production.
  - now rewrite later_body, filter_app.
Qed.

Lemma filter_andb (A : Type) (p q : A -> bool) (l : list A) :
  filter (fun x => p x && q x) l = filter q (filter p l).
Proof.
  induction l as [|x l IH]; [reflexivity|].
  cbn [filter]. destruct (p x); cbn [andb filter]; now rewrite IH.
Qed.

(** Days within the month give a factor in [0, 1]; it is zero only when the
    exact quotient is at most 2^-1075, half the smallest positive float64. *)
Lemma efficiency_in_unit (row : prod_row) (q : Q) :
  DAYS row = Fin q ->
  (0 < q)%Q ->
  (q <= inject_Z (month_length row))%Q ->
  exists f : Q,
    efficiency_factor row = Fin f
    /\ (0 <= f)%Q /\ (f <= 1)%Q
    /\ ((0 < f)%Q
        <-> (1 < q / inject_Z (month_length row) * inject_Z (2 ^ 1075))%Q).
Proof.
  intros HD Hq Hle. unfold efficiency_factor. rewrite HD.
  assert (Hm : (0 < inject_Z (month_length row))%Q)
    by (eapply Qlt_le_trans; eassumption).
  assert (Hn : ~ (inject_Z (month_length row) == 0)%Q).
  { intros E. rewrite E in Hm. discriminate Hm. }
  unfold of_Z. rewrite (NumFacts.fdiv_finite q Hn).
  apply NumFacts.round64_unit.
  - apply Qlt_shift_div_l; [assumption|]. now rewrite Qmult_0_l.
  - apply Qle_shift_div_r; [assumption|]. now rewrite Qmult_1_l.
Qed.

(** *** The Records of an entity in a period *)

Lemma map_snd_iterrows (R : Type) (l : list R) : map snd (iterrows l) = l.
Proof.
  unfold iterrows. generalize 0%nat.
  induction l as [|x l IH]; intros n; [reflexivity|].
  cbn [List.length seq combine map snd]. now rewrite IH.
Qed.

Lemma filter_snd_iterrows (R : Type) (p : R -> bool) (l : list R) :
  map snd (filter (fun ir => p (snd ir)) (iterrows l)) = filter p l.
Proof.
  rewrite <- (map_snd_iterrows l) at 2.
  induction (iterrows l) as [|[i x] sl IH]; [reflexivity|].
  cbn [filter map snd]. destruct (p x); cbn [map snd]; now rewrite IH.
Qed.

Lemma perf_loop_no_control (E : string) (sl : list (nat * perf_row)) :
  filter (control_of E) (calls_of (perf_loop sl)) = [].
Proof.
  unfold perf_loop, calls_of.
  induction sl as [|[i row] sl IH]; [reflexivity|].
  cbn [map snd filter]. exact IH.
Qed.

Lemma manops_no_control (E : string) (sl : list (nat * manop_row)) :
  filter (control_of E) (calls_of (flat_map manop_body sl)) = [].
Proof.
  unfold calls_of. induction sl as [|[i row] sl IH]; [reflexivity|].
  cbn [flat_map manop_body app map snd filter]. exact IH.
Qed.

Lemma header_no_control (E : string) (t : date) :
  E <> "*" -> filter (control_of E) (calls_of (period_header t)) = [].
Proof.
  intros H.
  assert (N : names E (PStr "*") = false).
  { unfold names. apply String.eqb_neq. congruence. }
  assert (R1 : control_of E reset_wconprodh = false).
  { unfold control_of, wconhist_of, wefac_of, reset_wconprodh.
    cbn [wp_well_name]. now rewrite N. }
  assert (R2 : control_of E reset_wefac = false).
  { unfold control_of, wconhist_of, wefac_of, reset_wefac.
    cbn [we_well_name]. now rewrite N. }
  unfold period_header, calls_of. cbn [map snd filter]. rewrite R1, R2.
  reflexivity.
Qed.

Lemma production_row_controls (E : string) (ir : nat * prod_row) :
  filter (control_of E) (calls_of (production_row_body ir))
  = if String.eqb (WELL (snd ir)) E
    then production_controls (snd ir) else [].
Proof.
  destruct ir as [i row].
  unfold production_row_body, production_controls, calls_of.
  cbn [snd].
  destruct (gt0 (WINJ row)), (gt0 (OIL row));
    cbn [app map snd filter orb];
    unfold control_of, wconhist_of, wefac_of, wconinjh_call, wconprodh_call,
      wefac_call, names;
    cbn [wp_well_name we_well_name orb];
    destruct (String.eqb (WELL row) E); reflexivity.
Qed.

Lemma production_loop_controls (E : string) (t : date)
      (sl : list (nat * prod_row)) :
  filter (control_of E) (calls_of (flat_map production_row_body sl))
  = flat_map production_controls
      (filter (fun row => String.eqb (WELL row) E) (map snd sl)).
Proof.
  induction sl as [|ir sl IH]; [reflexivity|].
  change (flat_map production_row_body (ir :: sl))
    with (production_row_body ir ++ flat_map production_row_body sl)%list.
  rewrite calls_app, filter_app, IH, production_row_controls.
  change (map snd (ir :: sl)) with (snd ir :: map snd sl).
  cbn [filter].
  destruct (String.eqb (WELL (snd ir)) E); reflexivity.
Qed.

Lemma rows_of_slice (production : list prod_row) (E : string) (t : date) :
  filter (fun row => String.eqb (WELL row) E)
         (map snd (filter (fun ir => date_eqb (DATE (snd ir)) t)
                          (iterrows production)))
  = rows_of production E t.
Proof.
  rewrite (filter_snd_iterrows (fun row => date_eqb (DATE row) t)).
  unfold rows_of. rewrite <- filter_andb. apply filter_ext. intros row.
  apply andb_comm.
Qed.

(** The WCONHIST and WEFAC Records that name [E] in the output of a period
    are those of the production rows of [E] in that period. *)
Lemma period_controls production perf man_ops (first : bool) (t : date)
      (E : string) :
  E <> "*" ->
  filter (control_of E)
         (calls_of (timestep_body production perf man_ops first t))
  = flat_map production_controls (rows_of production E t).
Proof.
  intros HE.
  assert (R : filter (control_of E)
                     (calls_of (rows_part production perf man_ops t))
              = flat_map production_controls (rows_of production E t)).
  { unfold rows_part. rewrite !calls_app, !filter_app.
    rewrite perf_loop_no_control, manops_no_control, app_nil_r. cbn [app].
    rewrite (production_loop_controls E t). now rewrite rows_of_slice. }
  destruct first.
  - rewrite first_body, calls_app, filter_app. unfold pre_start_part.
    now rewrite perf_loop_no_control.
  - rewrite later_body, calls_app, filter_app.
    now rewrite (header_no_control t HE).
Qed.

Lemma filter_wconhist_of_control (E : string) (cs : list call) :
  filter (wconhist_of E) (filter (control_of E) cs) = filter (wconhist_of E) cs.
Proof.
  induction cs as [|c cs IH]; [reflexivity|].
  cbn [filter]. unfold control_of at 1.
  destruct (wconhist_of E c) eqn:W; cbn [orb filter].
  - now rewrite W, IH.
  - destruct (wefac_of E c); cbn [filter]; [rewrite W|]; exact IH.
Qed.

(** C1 (as amended).  Take a period and an entity other than the wildcard
    name.  The WCONHIST and WEFAC Records that name the entity in the output
    of the period are those of its production rows dated in the period, row
    after row: for a row with a positive oil rate a WCONHIST Record and then
    a WEFAC Record, for a row with a positive injection rate only a WEFAC
    Record, for any other row nothing.  So when the entity has exactly one
    production row in the period and its oil rate is positive, the period
    holds exactly one WCONHIST Record (status OPEN, control LRAT, the three
    rates, pressures wildcarded unless positive) and exactly one WEFAC Record
    of the entity, in that order, with the float64 quotient of the days on
    production by the month length as factor; when the oil rate is not
    positive it holds no WCONHIST Record of the entity, whatever the water
    and gas rates are, and no WEFAC Record either unless the injection rate
    is positive.  The factor lies in [0, 1] when the days on production are
    positive and no more than the month length, and it is positive unless
    the exact quotient is at most 2^-1075. *)
Theorem production_control production perf man_ops
        (first : bool) (t : date) (E : string) :
  E <> "*" ->
  filter (control_of E)
         (calls_of (timestep_body production perf man_ops first t))
  = flat_map production_controls (rows_of production E t)
  /\ (forall row,
         rows_of production E t = [row] ->
         (gt0 (OIL row) = true ->
          filter (control_of E)
                 (calls_of (timestep_body production perf man_ops first t))
          = [ CallWconprodh
                {| wp_well_name := PStr E;
                   wp_well_status := Some (PStr "OPEN");
                   wp_well_control := Some (PStr "LRAT");
                   wp_oil_rate_h := Some (PFloat (OIL row));
                   wp_water_rate_h := Some (PFloat (WATER row));
                   wp_gas_rate_h := Some (PFloat (GAS row));
                   wp_vfp_num := None;
                   wp_alq := None;
                   wp_thp_h :=
                     Some (if gt0 (THP row) then PFloat (THP row)
                           else PStr "*");
                   wp_bhp_h :=
                     Some (if gt0 (BHP row) then PFloat (BHP row)
                           else PStr "*");
                   wp_wet_gas_rate_h := None;
                   wp_ngl_rate_h := None |};
              CallWefac
                {| we_well_name := PStr E;
                   we_efficiency_factor :=
                     Some (PFloat (fdiv (DAYS row)
                                        (of_Z (month_length row))));
                   we_apply_to_network := None |} ])
         /\ (gt0 (OIL row) = false ->
             filter (wconhist_of E)
                    (calls_of (timestep_body production perf man_ops first t))
             = [])
         /\ (gt0 (OIL row) = false ->
             gt0 (WINJ row) = false ->
             filter (control_of E)
                    (calls_of (timestep_body production perf man_ops first t))
             = []))
  /\ (forall row q,
         DAYS row = Fin q ->
         (0 < q)%Q ->
         (q <= inject_Z (month_length row))%Q ->
         exists f : Q,
           fdiv (DAYS row) (of_Z (month_length row)) = Fin f
           /\ (0 <= f)%Q /\ (f <= 1)%Q
           /\ ((0 < f)%Q
               <-> (1 < q / inject_Z (month_length row)
                        * inject_Z (2 ^ 1075))%Q)).
Proof.
  intros HE.
  pose proof (period_controls production perf man_ops first t HE) as P.
  split; [exact P|]. split.
  - intros row Hrow.
    assert (W : WELL row = E).
    { assert (I : In row (rows_of production E t))
        by (rewrite Hrow; now left).
      unfold rows_of in I. apply filter_In in I as [_ I].
      apply andb_true_iff in I as [I _]. now apply String.eqb_eq. }
    rewrite Hrow in P. cbn [flat_map] in P. rewrite app_nil_r in P.
    unfold production_controls in P.
    split; [|split].
    + intros Hoil. rewrite P, Hoil, orb_true_r. cbn [app].
      unfold wconprodh_call, wefac_call, efficiency_factor, or_star.
      rewrite W. destruct (gt0 (THP row)), (gt0 (BHP row)); reflexivity.
    + intros Hoil. rewrite <- filter_wconhist_of_control, P, Hoil.
      cbn [app orb]. rewrite orb_false_r.
      destruct (gt0 (WINJ row)); reflexivity.
    + intros Hoil Hinj. now rewrite P, Hoil, Hinj.
  - intros row q. apply efficiency_in_unit.
Qed.

Lemma production_control_witness :
  filter (control_of "W1")
         (calls_of (timestep_body (table_of example_csv) [] [] true april))
  = [ wconprodh_call (row_of example_csv); wefac_call (row_of example_csv) ]
  /\ exists f : Q,
      fdiv (DAYS (row_of example_csv))
           (of_Z (month_length (row_of example_csv))) = Fin f
      /\ (0 <= f)%Q /\ (f <= 1)%Q
      /\ ((0 < f)%Q
          <-> (1 < inject_Z 20
                   / inject_Z (month_length (row_of example_csv))
                   * inject_Z (2 ^ 1075))%Q).
Proof.
  assert (N : "W1" <> "*") by discriminate.
  destruct (@production_control (table_of example_csv) [] [] true april
              "W1" N)
    as (_ & H1 & H3).
  split.
  - exact (proj1 (H1 (row_of example_csv) eq_refl) eq_refl).
  - apply (H3 (row_of example_csv) (inject_Z 20) eq_refl);
      unfold Qlt, Qle; simpl; lia.
Defined.

(** C1 (as stated) fails in four ways.  A row with water but no oil gets
    neither a WCONHIST nor a WEFAC Record; a row that reports 40 days in
    April gets a factor above 1; a row that reports the smallest positive
    number of days gets the factor 0; and an entity reported twice for the
    period gets two WCONHIST and two WEFAC Records. *)
Lemma control_for_any_rate_fails :
  ~ Stated.control_for_any_rate (table_of water_only_csv) [] [] true april
      "W1"
  /\ ~ Stated.control_for_any_rate (table_of overlong_csv) [] [] true april
         "W1"
  /\ ~ Stated.control_for_any_rate (table_of tiny_days_csv) [] [] true april
         "W1"
  /\ ~ Stated.control_for_any_rate reported_twice [] [] true april "W1"
  /\ filter (control_of "W1")
            (calls_of (timestep_body reported_twice [] [] true april))
     = [ wconprodh_call (row_of example_csv); wefac_call (row_of example_csv);
         wconprodh_call (row_of example_csv); wefac_call (row_of example_csv) ].
Proof.
  split; [|split; [|split; [|split]]].
  - intros H.
    destruct (H (row_of water_only_csv) (or_introl eq_refl)
                (or_intror (or_introl eq_refl))) as [E _].
    vm_compute in E. discriminate E.
  - intros H.
    destruct (H (row_of overlong_csv) (or_introl eq_refl)
                (or_introl eq_refl)) as [_ (f & E & _ & Hle)].
    vm_compute in E. injection E as <-.
    unfold Qle in Hle. simpl in Hle. lia.
  - intros H.
    destruct (H (row_of tiny_days_csv) (or_introl eq_refl)
                (or_introl eq_refl)) as [_ (f & E & Hlt & _)].
    vm_compute in E. injection E as <-.
    unfold Qlt in Hlt. simpl in Hlt. lia.
  - intros H.
    destruct (H (row_of example_csv) (or_introl eq_refl)
                (or_introl eq_refl)) as [E _].
    vm_compute in E. discriminate E.
  - vm_compute. reflexivity.
Qed.

End WalkerFacts.

(** ** Running the calls of a schedule *)

Module RunFacts.
Import Text TextFacts.

Lemma run_call_keyword repr_float (c : call) (w : sinks) :
  run_call repr_float c w
  = match call_keyword repr_float c with
    | Ok k => Ok (mksinks (stdout w) (outfile w ++ k))
    | Raise e => Raise e
    end.
Proof.
  destruct c; reflexivity.
Qed.

(** Calls that all have a text run to the end and append their texts. *)
Lemma run_calls_complete repr_float (cs : list call) :
  (forall c, In c cs -> exists k, call_keyword repr_float c = Ok k) ->
  forall w,
    run_calls repr_float cs w
    = (None, mksinks (stdout w) (outfile w ++ calls_text repr_float cs)).
Proof.
  induction cs as [|c cs IH]; intros H w.
  - cbn. rewrite sapp_nil_r. now destruct w.
  - cbn [run_calls]. rewrite run_call_keyword.
    destruct (H c (or_introl eq_refl)) as [k Hk]. rewrite Hk.
    rewrite IH by (intros c' Hc'; apply H; now right).
    cbn [stdout outfile]. unfold calls_text. cbn [map cat fold_right].
    unfold call_text at 2. rewrite Hk. now rewrite sapp_assoc.
Qed.




End RunFacts.

(** ** The assertion on the joined perforation table *)

Module JoinFacts.

Lemma filter_nil_existsb (A : Type) (p : A -> bool) (l : list A) :
  filter p l = [] <-> existsb p l = false.
Proof.
  induction l as [|x l IH]; [now split|].
  cbn [filter existsb]. destruct (p x); cbn [orb]; [now split | exact IH].
Qed.

Lemma perf_csv_eqb_well (a b : perf_csv) :
  perf_csv_eqb a b = true -> fc_well a = fc_well b.
Proof.
  unfold perf_csv_eqb. rewrite !andb_true_iff.
  intros [[[[H _] _] _] _]. now apply String.eqb_eq.
Qed.

(** Dropping duplicate rows does not change which wells are present. *)
Lemma drop_duplicates_from_wells (n : string) (df : list perf_csv) :
  forall seen,
    existsb (fun p => String.eqb (fc_well p) n) (drop_duplicates_from seen df)
    || existsb (fun p => String.eqb (fc_well p) n) seen
    = existsb (fun p => String.eqb (fc_well p) n) df
      || existsb (fun p => String.eqb (fc_well p) n) seen.
Proof.
  induction df as [|row df IH]; intros seen; [reflexivity|].
  cbn [drop_duplicates_from existsb].
  destruct (existsb (perf_csv_eqb row) seen) eqn:E.
  - rewrite IH.
    destruct (String.eqb (fc_well row) n) eqn:W; [|reflexivity].
    apply existsb_exists in E as (s & Hs & Hrs).
    apply perf_csv_eqb_well in Hrs.
    assert (X : existsb (fun p => String.eqb (fc_well p) n) seen = true).
    { apply existsb_exists. exists s. split; [assumption|].
      now rewrite <- Hrs. }
    now rewrite X, !orb_true_r.
  - cbn [existsb]. specialize (IH (row :: seen)). cbn [existsb] in IH.
    destruct (String.eqb (fc_well row) n); cbn [orb] in *.
    + reflexivity.
    + exact IH.
Qed.

Lemma drop_duplicates_wells (n : string) (df : list perf_csv) :
  existsb (fun p => String.eqb (fc_well p) n) (drop_duplicates df)
  = existsb (fun p => String.eqb (fc_well p) n) df.
Proof.
  pose proof (drop_duplicates_from_wells n df []) as H.
  cbn [existsb] in H. now rewrite !orb_false_r in H.
Qed.

Lemma preprocess_perf_wells (n : string) (df : list perf_csv) :
  existsb (fun l => String.eqb (fc_well (fact_csv l)) n) (preprocess_perf df)
  = existsb (fun p => String.eqb (fc_well p) n) df.
Proof.
  unfold preprocess_perf. induction df as [|row df IH]; [reflexivity|].
  cbn [map existsb fact_csv fc_well]. now rewrite IH.
Qed.

Lemma matched_rows_have_perforation (fok : perf_row -> bool) (w : well_row)
      (ms : list perf_fact) :
  no_perforation
    (filter fok (map (fun '(l, r) => mkperfrow l r)
                     (map (fun l => (Some l, w)) ms)))
  = [].
Proof.
  induction ms as [|l ms IH]; [reflexivity|].
  cbn [map filter]. destruct (fok (mkperfrow (Some l) w)); [|exact IH].
  unfold no_perforation in *. cbn [filter perf_cols]. exact IH.
Qed.

(** The wells left without perforation columns by the right join are the
    wells of the table that no perforation row names. *)
Lemma right_join_bare_wells (sel : string) (P : list perf_fact)
      (wt : list well_row) :
  map perf_well
      (no_perforation
         (filter (fun row => String.eqb (wt_field (perf_well row)) sel)
                 (map (fun '(l, r) => mkperfrow l r)
                      (merge_right
                         (fun l r =>
                            String.eqb (fc_well (fact_csv l)) (wt_mer_name r))
                         P wt))))
  = filter (fun w =>
              String.eqb (wt_field w) sel
              && negb (existsb
                         (fun l => String.eqb (fc_well (fact_csv l))
                                              (wt_mer_name w)) P))
           wt.
Proof.
  unfold merge_right.
  induction wt as [|w wt IH]; [reflexivity|].
  cbn [flat_map filter]. rewrite map_app, filter_app.
  unfold no_perforation in *. rewrite filter_app, map_app, IH. clear IH.
  destruct (filter (fun l => String.eqb (fc_well (fact_csv l)) (wt_mer_name w))
                   P) as [|x ms] eqn:F.
  - apply filter_nil_existsb in F. rewrite F. cbn [negb map filter perf_well].
    rewrite andb_true_r.
    destruct (String.eqb (wt_field w) sel); reflexivity.
  - assert (E : existsb (fun l => String.eqb (fc_well (fact_csv l))
                                             (wt_mer_name w)) P = true).
    { destruct (existsb _ P) eqn:E; [reflexivity|].
      apply filter_nil_existsb in E. congruence. }
    rewrite E. cbn [negb]. rewrite andb_false_r.
    pose proof (matched_rows_have_perforation
                  (fun row => String.eqb (wt_field (perf_well row)) sel)
                  w (x :: ms)) as M.
    unfold no_perforation in M. rewrite M. reflexivity.
Qed.

Lemma bare_wells (args : argv) (inp : input_directory) :
  map perf_well (no_perforation (load_perf args inp))
  = wells_without_perforation args inp.
Proof.
  unfold load_perf, wells_without_perforation. cbv zeta.
  rewrite right_join_bare_wells. apply filter_ext. intros w.
  now rewrite preprocess_perf_wells, drop_duplicates_wells.
Qed.



Lemma merged_production_rows (inp : input_directory) :
  preprocess_prod_raises (merged_production inp)
  = match (production_kmb inp ++ production_tk inp)%list with
    | [] => true
    | _ :: _ => false
    end.
Proof.
  unfold merged_production, merge_left.
  destruct (production_kmb inp ++ production_tk inp)%list as [|row rows];
    [reflexivity|].
  cbn [flat_map].
  destruct (filter _ (well_table inp)); reflexivity.
Qed.

Lemma production_present (inp : input_directory) :
  (production_kmb inp ++ production_tk inp)%list <> [] ->
  preprocess_prod_raises (merged_production inp) = false.
Proof.
  intros H. rewrite merged_production_rows.
  destruct (production_kmb inp ++ production_tk inp)%list;
    [now elim H | reflexivity].
Qed.




End JoinFacts.

(** ** The trajectory compiler *)

Module WelltrackFacts.
Import Text TextFacts Welltracks.

Lemma well_body_enough df well :
  enough_rows df well = true -> well_body df well = Ok (well_records df well).
Proof.
  unfold enough_rows, well_body, well_records, first_pad. intros H.
  rewrite H. destruct (df_slice_of df well); [discriminate H | reflexivity].
Qed.

Lemma well_body_short df well :
  enough_rows df well = false ->
  well_body df well = Raise (AssertionError (welltrack_msg well)).
Proof. unfold enough_rows, well_body. now intros ->. Qed.

Lemma loop_all_enough df (wells : list string) :
  forallb (enough_rows df) wells = true ->
  forall written,
    welltrack_loop df wells written
    = (None, (written ++ flat_map (well_records df) wells)%list).
Proof.
  induction wells as [|w wells IH]; intros H written.
  - cbn. now rewrite app_nil_r.
  - cbn [forallb] in H. apply andb_true_iff in H as [Hw H].
    cbn [welltrack_loop flat_map]. rewrite (well_body_enough df w Hw).
    now rewrite (IH H), app_assoc.
Qed.

Lemma loop_stops df (good : list string) (bad : string) (rest : list string) :
  forallb (enough_rows df) good = true ->
  enough_rows df bad = false ->
  forall written,
    welltrack_loop df (good ++ bad :: rest) written
    = (Some (AssertionError (welltrack_msg bad)),
       (written ++ flat_map (well_records df) good)%list).
Proof.
  induction good as [|w good IH]; intros H Hbad written.
  - cbn [app welltrack_loop flat_map].
    now rewrite (well_body_short df bad Hbad), app_nil_r.
  - cbn [forallb] in H. apply andb_true_iff in H as [Hw H].
    cbn [app welltrack_loop flat_map]. rewrite (well_body_enough df w Hw).
    now rewrite (IH H Hbad), app_assoc.
Qed.

(** *** First-seen order *)

Lemma unique_from_filter (l : list string) :
  forall seen, unique_from seen l = filter (unseen seen) (unique_from [] l).
Proof.
  induction l as [|x l IH]; intros seen; [reflexivity|].
  cbn [unique_from existsb]. rewrite (IH [x]).
  destruct (existsb (String.eqb x) seen) eqn:E.
  - cbn [filter]. unfold unseen at 1. rewrite E. cbn [negb].
    rewrite IH, <- WalkerFacts.filter_andb. apply filter_ext_in.
    intros y _. unfold unseen. cbn [existsb]. rewrite orb_false_r.
    destruct (String.eqb y x) eqn:Y; [|reflexivity].
    apply String.eqb_eq in Y. subst y. now rewrite E.
  - cbn [filter]. unfold unseen at 1. rewrite E. cbn [negb]. f_equal.
    rewrite (IH (x :: seen)), <- WalkerFacts.filter_andb. apply filter_ext.
    intros y. unfold unseen. cbn [existsb]. rewrite orb_false_r.
    now rewrite negb_orb.
Qed.

(** [unique] keeps the first occurrence of each name, in order. *)
Lemma unique_cons (x : string) (l : list string) :
  unique (x :: l)
  = x :: filter (fun y => negb (String.eqb y x)) (unique l).
Proof.
  unfold unique. cbn [unique_from existsb]. f_equal.
  rewrite unique_from_filter. apply filter_ext. intros y.
  unfold unseen. cbn [existsb]. now rewrite orb_false_r.
Qed.

(** *** The text of a trajectory Record *)

Lemma add_coord_loop repr_float coordinates keyword :
  fold_left (add_coord repr_float) coordinates keyword
  = keyword
    ++ cat (map (fun p => coordinate_line repr_float p ++ nl) coordinates).
Proof.
  rewrite (EmitterFacts.fold_left_ext (add_coord repr_float)
             (fun k p => k ++ (coordinate_line repr_float p ++ nl))).
  - apply fold_left_append.
  - intros k [[[x y] md] z]. unfold add_coord, coordinate_line.
    now rewrite !sapp_assoc.
Qed.

Lemma traj_text repr_float well_name coordinates :
  traj_keyword repr_float well_name coordinates
  = "WELLTRACK " ++ str repr_float well_name ++ nl
    ++ cat (map (fun p => coordinate_line repr_float p ++ nl) coordinates)
    ++ "/" ++ nl ++ nl.
Proof.
  unfold traj_keyword. cbv zeta. rewrite add_coord_loop.
  now rewrite !sapp_assoc.
Qed.


Lemma enough_rows_iff df well :
  enough_rows df well = true <-> (2 <= List.length (df_slice_of df well))%nat.
Proof. unfold enough_rows. rewrite Nat.ltb_lt. lia. Qed.

Lemma enough_rows_false_iff df well :
  enough_rows df well = false <-> (List.length (df_slice_of df well) < 2)%nat.
Proof. unfold enough_rows. rewrite Nat.ltb_ge. lia. Qed.


(** *** The joined table *)

Lemma joined_rows_well (kept : list traj_csv) (w : well_row) (row : traj_row) :
  In row (joined_rows kept w) -> traj_well row = w.
Proof.
  unfold joined_rows.
  destruct (filter _ kept) as [|x ms].
  - now intros [<- | []].
  - intros H. apply in_map_iff in H as (t & <- & _). reflexivity.
Qed.

Lemma filter_joined_rows (kept : list traj_csv) (q : well_row -> bool)
      (wells : list well_row) :
  filter (fun row => q (traj_well row)) (flat_map (joined_rows kept) wells)
  = flat_map (joined_rows kept) (filter q wells).
Proof.
  induction wells as [|w wells IH]; [reflexivity|].
  cbn [flat_map filter]. rewrite filter_app, IH.
  assert (F : filter (fun row => q (traj_well row)) (joined_rows kept w)
              = if q w then joined_rows kept w else []).
  { pose proof (@joined_rows_well kept w) as W.
    induction (joined_rows kept w) as [|row l IHl];
      [now destruct (q w)|].
    cbn [filter]. rewrite (W row (or_introl eq_refl)).
    rewrite IHl by (intros r Hr; apply W; now right).
    now destruct (q w). }
  rewrite F. now destruct (q w).
Qed.

Lemma merged_rows (kept : list traj_csv) (wells : list well_row) :
  map (fun '(l, r) => mktrajrow l r)
      (merge_right (fun l r => String.eqb (tc_well l) (wt_mer_name r))
                   kept wells)
  = flat_map (joined_rows kept) wells.
Proof.
  unfold merge_right.
  induction wells as [|w wells IH]; [reflexivity|].
  cbn [flat_map]. rewrite map_app, IH. f_equal.
  unfold joined_rows.
  destruct (filter _ kept) as [|x ms]; [reflexivity|].
  now rewrite map_map.
Qed.







End WelltrackFacts.

(** * Further properties of the code *)

(** ** More on strings *)

Module TextMore.
Import Text TextFacts.

Lemma lines_nil (s : string) : lines s = [] -> s = "".
Proof.
  destruct s as [|c s]; [reflexivity|]. cbn [lines].
  destruct (is_nl c); [discriminate|].
  destruct (lines s); discriminate.
Qed.

(** A text whose last line is terminated can be read before what follows. *)
Lemma lines_app (a b : string) :
  complete a = true -> lines (a ++ b) = (lines a ++ lines b)%list.
Proof.
  induction a as [|c a IH]; [reflexivity|].
  intros H. cbn [complete] in H.
  change (String c a ++ b) with (String c (a ++ b)). cbn [lines].
  destruct a as [|c' a'].
  - rewrite H. reflexivity.
  - specialize (IH H). rewrite IH.
    destruct (is_nl c); [reflexivity|].
    destruct (lines (String c' a')) as [|l ls] eqn:L.
    + apply lines_nil in L. discriminate L.
    + reflexivity.
Qed.

Lemma complete_app (a b : string) :
  b <> "" -> complete (a ++ b) = complete b.
Proof.
  intros Hb. induction a as [|c a IH]; [reflexivity|].
  change (String c a ++ b) with (String c (a ++ b)). cbn [complete].
  destruct (a ++ b) as [|c' r] eqn:E.
  - destruct a; [simpl in E; congruence | discriminate E].
  - exact IH.
Qed.

Lemma complete_nl_end (a : string) : complete (a ++ nl) = true.
Proof. rewrite complete_app by discriminate. reflexivity. Qed.

Lemma complete_app2 (a b : string) :
  complete a = true -> complete b = true -> complete (a ++ b) = true.
Proof.
  intros Ha Hb. destruct b as [|c b]; [now rewrite sapp_nil_r|].
  now rewrite complete_app by discriminate.
Qed.

Lemma complete_cat (l : list string) :
  forallb complete l = true -> complete (cat l) = true.
Proof.
  induction l as [|x l IH]; [reflexivity|].
  cbn [forallb]. intros H. apply andb_true_iff in H as [Hx Hl].
  cbn [cat fold_right]. apply complete_app2; [assumption | now apply IH].
Qed.

Lemma lines_cat (l : list string) :
  forallb complete l = true -> lines (cat l) = flat_map lines l.
Proof.
  induction l as [|x l IH]; [reflexivity|].
  cbn [forallb]. intros H. apply andb_true_iff in H as [Hx Hl].
  cbn [cat fold_right flat_map]. fold (cat l).
  now rewrite (lines_app _ _ Hx), (IH Hl).
Qed.

(** Splitting at a separator gives back a first piece that has none. *)
Lemma split_on_cons (sep : ascii) (a rest : string) :
  without sep a = true ->
  split_on sep (a ++ String sep rest) = a :: split_on sep rest.
Proof.
  induction a as [|x a IH]; intros H.
  - cbn [append split_on]. now rewrite Ascii.eqb_refl.
  - cbn [without] in H. apply andb_true_iff in H as [Hx Ha].
    apply negb_true_iff in Hx.
    change (String x a ++ String sep rest)
      with (String x (a ++ String sep rest)).
    cbn [split_on]. now rewrite Hx, (IH Ha).
Qed.

Lemma split_on_pieces (sep : ascii) (pieces : list string) (last : string) :
  forallb (without sep) pieces = true ->
  split_on sep (cat (map (fun t => t ++ String sep "") pieces) ++ last)
  = (pieces ++ split_on sep last)%list.
Proof.
  induction pieces as [|t ts IH]; intros H; [reflexivity|].
  cbn [forallb] in H. apply andb_true_iff in H as [Ht Hts].
  cbn [map cat fold_right]. fold (cat (map (fun t => t ++ String sep "") ts)).
  rewrite !sapp_assoc.
  change (t ++ String sep "" ++ cat (map (fun t0 => t0 ++ String sep "") ts)
          ++ last)
    with (t ++ String sep (cat (map (fun t0 => t0 ++ String sep "") ts)
                           ++ last)).
  now rewrite (split_on_cons _ _ _ Ht), (IH Hts).
Qed.

End TextMore.

(** ** More on the keyword emitter *)

Module EmitterMore.
Import Text TextFacts TextMore.

Lemma positional_arity c name locals :
  positional c = Some (name, locals) -> List.length locals = arity c.
Proof.
  destruct c; simpl; intros H; try discriminate; injection H as _ <-;
    reflexivity.
Qed.

(** X1.  Reading an argument line back.  When no token holds a space, the
    words of the argument line of a control Record are its tokens, in the
    order of the parameters, followed by the closing slash: argument [i] of
    the keyword is word [i] of the line, and the line always has as many
    words as the keyword has arguments, plus one. *)
Theorem argument_line_words repr_float c name locals :
  positional c = Some (name, locals) ->
  forallb (without space) (tokens repr_float locals) = true ->
  split_on space (argument_line repr_float locals)
  = (tokens repr_float locals ++ ["/"])%list
  /\ List.length (split_on space (argument_line repr_float locals))
     = S (arity c)
  /\ forall i kv,
       nth_error locals i = Some kv ->
       nth_error (split_on space (argument_line repr_float locals)) i
       = Some (if is_none (snd kv) then "*" else str repr_float (snd kv)).
Proof.
  intros Hc Hsp.
  assert (E : split_on space (argument_line repr_float locals)
              = (tokens repr_float locals ++ ["/"])%list).
  { unfold argument_line.
    exact (split_on_pieces space (tokens repr_float locals) "/" Hsp). }
  split; [exact E|]. split.
  - rewrite E, length_app. cbn [List.length]. unfold tokens.
    rewrite length_map, (positional_arity c Hc). lia.
  - intros i kv Hi. rewrite E.
    rewrite nth_error_app1
      by (unfold tokens; rewrite length_map;
          apply nth_error_Some; congruence).
    now apply EmitterFacts.tokens_nth.
Qed.

Lemma argument_line_words_witness :
  split_on space (argument_line no_floats (wconprodh_locals
    (mkwconprodh (PStr "W1") (Some (PStr "OPEN")) (Some (PStr "LRAT"))
                 (Some (PInt 5)) None None None None (Some (PStr "*"))
                 (Some (PInt 120)) None None)))
  = ["W1"; "OPEN"; "LRAT"; "5"; "*"; "*"; "*"; "*"; "*"; "120"; "*"; "*"; "/"].
Proof.
  exact (proj1 (@argument_line_words no_floats
                  (CallWconprodh
                     (mkwconprodh (PStr "W1") (Some (PStr "OPEN"))
                        (Some (PStr "LRAT")) (Some (PInt 5)) None None None
                        None (Some (PStr "*")) (Some (PInt 120)) None None))
                  _ _ eq_refl eq_refl)).
Defined.

(** *** Every text ends the same way *)

Lemma text_tail (body : string) :
  complete body = true ->
  lines (body ++ "/" ++ nl ++ nl) = (lines body ++ ["/"; ""])%list.
Proof. intros H. now rewrite (lines_app _ _ H). Qed.

Lemma Ok_inj (A : Type) (a b : A) : Ok a = Ok b -> a = b.
Proof. now intros [= ->]. Qed.

Lemma dates_text (ts : timestamp) (mon : string) :
  month_codes (month (ts_date ts)) = Some mon ->
  dates_keyword ts
  = Ok (("DATES" ++ nl ++ fmt02 (day (ts_date ts)) ++ " " ++ mon ++ " "
         ++ str_int (year (ts_date ts)) ++ " " ++ hour_tail ts ++ "/" ++ nl)
        ++ "/" ++ nl ++ nl).
Proof.
  intros M. unfold dates_keyword. rewrite M. reflexivity.
Qed.

(** The text of a call is a body of terminated lines, a line with a slash
    alone and a blank line. *)
Lemma call_text_shape repr_float (c : call) (k : string) :
  call_keyword repr_float c = Ok k ->
  exists body, k = body ++ "/" ++ nl ++ nl /\ complete body = true.
Proof.
  intros H.
  destruct (positional c) as [[name locals]|] eqn:P.
  - rewrite (EmitterFacts.positional_text repr_float c P) in H.
    injection H as <-.
    exists (name ++ nl ++ argument_line repr_float locals ++ nl).
    split; [now rewrite !sapp_assoc|].
    rewrite <- !sapp_assoc. apply complete_nl_end.
  - destruct c; try discriminate P; cbn [call_keyword] in H.
    + injection H as <-. rewrite WelltrackFacts.traj_text.
      exists ("WELLTRACK " ++ str repr_float well_name ++ nl
              ++ cat (map (fun p => coordinate_line repr_float p ++ nl)
                          coordinates)).
      split; [now rewrite !sapp_assoc|].
      rewrite <- sapp_assoc, <- sapp_assoc.
      apply complete_app2; [apply complete_nl_end|].
      apply complete_cat, forallb_forall. intros x Hx.
      apply in_map_iff in Hx as (p & <- & _). apply complete_nl_end.
    + destruct (month_codes (month (ts_date ts))) as [mon|] eqn:M;
        [|unfold dates_keyword in H; rewrite M in H; discriminate].
      rewrite (dates_text ts M) in H. apply Ok_inj in H. subst k.
      eexists. split; [reflexivity|].
      rewrite <- !sapp_assoc. apply complete_nl_end.
    + injection H as <-. unfold generic_kw_keyword. cbv zeta.
      exists (keyword ++ nl ++ args ++ nl).
      split; [now rewrite !sapp_assoc|].
      rewrite <- !sapp_assoc. apply complete_nl_end.
Qed.

Lemma call_text_complete repr_float (c : call) :
  complete (call_text repr_float c) = true.
Proof.
  unfold call_text.
  destruct (call_keyword repr_float c) as [k|e] eqn:H; [|reflexivity].
  destruct (call_text_shape repr_float c H) as (body & -> & Hb).
  rewrite <- !sapp_assoc. apply complete_nl_end.
Qed.

(** X2.  Records do not run into each other.  The text of every call ends
    with a line holding a slash alone and then a blank line, after a body
    of terminated lines; so the lines of the text of a list of calls are
    the lines of each call's text, one call after the other. *)
Theorem records_line_by_line repr_float :
  (forall c k,
      call_keyword repr_float c = Ok k ->
      exists body,
        k = body ++ "/" ++ nl ++ nl
        /\ lines k = (lines body ++ ["/"; ""])%list)
  /\ forall cs,
       lines (calls_text repr_float cs)
       = flat_map (fun c => lines (call_text repr_float c)) cs.
Proof.
  split.
  - intros c k H.
    destruct (call_text_shape repr_float c H) as (body & -> & Hb).
    exists body. split; [reflexivity | now apply text_tail].
  - intros cs. unfold calls_text. rewrite lines_cat.
    + now rewrite flat_map_concat_map, map_map, <- flat_map_concat_map.
    + apply forallb_forall. intros x Hx.
      apply in_map_iff in Hx as (c & <- & _). apply call_text_complete.
Qed.

Lemma records_line_by_line_witness :
  (exists body,
      "WEFAC" ++ nl ++ "* 1 * /" ++ nl ++ "/" ++ nl ++ nl
      = body ++ "/" ++ nl ++ nl
      /\ lines ("WEFAC" ++ nl ++ "* 1 * /" ++ nl ++ "/" ++ nl ++ nl)
         = (lines body ++ ["/"; ""])%list)
  /\ lines (calls_text no_floats
                       [reset_wefac; CallGeneric "WELOPEN" "W1 SHUT /"])
     = ["WEFAC"; "* 1 * /"; "/"; ""; "WELOPEN"; "W1 SHUT /"; "/"; ""].
Proof.
  split.
  - exact (proj1 (records_line_by_line no_floats) reset_wefac _ eq_refl).
  - rewrite (proj2 (records_line_by_line no_floats)). reflexivity.
Defined.


(** X11.  The only thing [dates_out] checks is the month: with a month from
    1 to 12 it writes its text, whatever the day, the year and the time are,
    and with any other month it raises KeyError and writes nothing. *)
Theorem dates_out_month_key (ts : timestamp) (d : dest) (w : sinks) :
  (1 <= month (ts_date ts) <= 12 ->
   exists k,
     dates_keyword ts = Ok k /\ dates_out ts d w = Ok (_write_to_dest k d w))
  /\ (~ 1 <= month (ts_date ts) <= 12 ->
      dates_keyword ts = Raise KeyError /\ dates_out ts d w = Raise KeyError).
Proof.
  split.
  - intros H.
    destruct (DatesFacts.month_code_total H) as (mon & M & _).
    eexists. unfold dates_out. rewrite (dates_text ts M).
    split; reflexivity.
  - intros H.
    assert (M : month_codes (month (ts_date ts)) = None).
    { destruct (month (ts_date ts)) as [|p|p]; try reflexivity.
      destruct p as [[[[p|p|]|[p|p|]|]|[[p|p|]|[p|p|]|]|]|[[[p|p|]|[p|p|]|]|[[p|p|]|[p|p|]|]|]|];
        try reflexivity; lia. }
    unfold dates_out, dates_keyword. now rewrite M.
Qed.

Lemma dates_out_month_key_witness :
  dates_out (TDate (mkdate 2021 13 0)) TextIO (mksinks "" "old")
  = Raise KeyError
  /\ dates_out (TDate (mkdate 2021 2 31)) TextIO (mksinks "" "")
     = Ok (mksinks "" ("DATES" ++ nl ++ "31 FEB 2021 /" ++ nl ++ "/" ++ nl
                       ++ nl)).
Proof.
  split.
  - apply (proj2 (dates_out_month_key (TDate (mkdate 2021 13 0)) TextIO
                    (mksinks "" "old"))). cbn. lia.
  - destruct (proj1 (dates_out_month_key (TDate (mkdate 2021 2 31)) TextIO
                       (mksinks "" "")))
      as (k & Hk & Ho); [cbn; lia|].
    rewrite Ho. vm_compute in Hk. apply Ok_inj in Hk. now subst k.
Defined.


(** *** The two destinations *)

(** X17.  Every writer sends its text either to the screen or to the file,
    never to both.  To the file the text is appended as it is.  To the
    screen, the default destination, it goes through [print], which adds a
    line feed: a printed Record is followed by two blank lines, a written
    one by one.  The scripts always pass the file. *)
Theorem two_destinations repr_float (c : call) (k : string) (w : sinks) :
  call_keyword repr_float c = Ok k ->
  write_call repr_float c Stdout w
  = Ok (mksinks (stdout w ++ k ++ nl) (outfile w))
  /\ write_call repr_float c TextIO w
     = Ok (mksinks (stdout w) (outfile w ++ k))
  /\ run_call repr_float c w = write_call repr_float c TextIO w
  /\ exists body,
       lines k = (lines body ++ ["/"; ""])%list
       /\ lines (k ++ nl) = (lines body ++ ["/"; ""; ""])%list.
Proof.
  intros H. split; [|split; [|split]].
  - destruct c; cbn [call_keyword] in H; cbn [write_call];
      try (apply Ok_inj in H; subst k; reflexivity).
    unfold dates_out. now rewrite H.
  - destruct c; cbn [call_keyword] in H; cbn [write_call];
      try (apply Ok_inj in H; subst k; reflexivity).
    unfold dates_out. now rewrite H.
  - destruct c; reflexivity.
  - destruct (call_text_shape repr_float c H) as (body & -> & Hb).
    exists body. split; [now apply text_tail|].
    rewrite sapp_assoc. now rewrite (lines_app _ _ Hb).
Qed.

Lemma two_destinations_witness :
  write_call no_floats reset_wefac Stdout (mksinks "" "old")
  = Ok (mksinks ("WEFAC" ++ nl ++ "* 1 * /" ++ nl ++ "/" ++ nl ++ nl ++ nl)
                "old").
Proof.
  exact (proj1 (@two_destinations no_floats reset_wefac _
                  (mksinks "" "old") eq_refl)).
Defined.

End EmitterMore.

(** ** More on the timeline *)

Module TimelineMore.
Import CalendarFacts.

Lemma month_index_start (j : Z) : month_index (month_start j) = j.
Proof.
  unfold month_index, month_start. cbn [year month day].
  pose proof (Z.div_mod j 12 ltac:(lia)). lia.
Qed.

Lemma month_start_index (t : date) :
  on_grid t -> month_start (month_index t) = t.
Proof.
  intros [Hd Hm]. unfold month_index.
  rewrite (month_start_of (year t) (k := month t - 1)) by lia.
  destruct t as [y m d]. cbn [year month day] in *. subst d. f_equal. lia.
Qed.

Lemma month_start_on_grid (j : Z) : on_grid (month_start j).
Proof.
  unfold on_grid, month_start. cbn [day month].
  pose proof (Z.mod_pos_bound j 12 ltac:(lia)). lia.
Qed.

(** The index of the first timestep. *)
Lemma first_index (start : date) :
  valid_date start ->
  (if date_leb start (month_start (month_index start))
   then month_index start else month_index start + 1)
  = if day start =? 1 then month_index start else month_index start + 1.
Proof.
  intros [Hm Hd]. unfold month_index.
  rewrite (month_start_of (year start) (k := month start - 1)) by lia.
  replace (month start - 1 + 1) with (month start) by lia.
  destruct (day start =? 1) eqn:E.
  - apply Z.eqb_eq in E.
    replace (date_leb start (mkdate (year start) (month start) 1)) with true;
      [reflexivity|].
    symmetry. apply date_leb_iff. right.
    destruct start as [y m d]. cbn [year month day] in *. now subst d.
  - apply Z.eqb_neq in E.
    replace (date_leb start (mkdate (year start) (month start) 1)) with false;
      [reflexivity|].
    symmetry. destruct (date_leb _ _) eqn:L; [|reflexivity].
    apply date_leb_iff in L. unfold date_lt in L. cbn [year month day] in L.
    destruct L as [L | L]; [lia|].
    rewrite L in E. cbn [day] in E. congruence.
Qed.

Lemma grid_after_start (start t : date) :
  valid_date start -> on_grid t ->
  ((if day start =? 1 then month_index start else month_index start + 1)
   <= month_index t
   <-> date_le start t).
Proof.
  intros [Hm Hd] [Td Tm]. unfold date_le, date_lt, month_index.
  destruct (day start =? 1) eqn:E;
    [apply Z.eqb_eq in E | apply Z.eqb_neq in E].
  - split.
    + intros H.
      destruct (Z.eq_dec (year start * 12 + (month start - 1))
                         (year t * 12 + (month t - 1))) as [Q | Q].
      * right. destruct start as [y m d], t as [y' m' d'].
        cbn [year month day] in *. f_equal; lia.
      * left. lia.
    + intros [H | <-]; lia.
  - split.
    + intros H. left. lia.
    + intros [H | <-]; lia.
Qed.

Lemma grid_before_end (end_ t : date) :
  valid_date end_ -> on_grid t ->
  (month_index t <= month_index end_ <-> date_le t end_).
Proof.
  intros [Hm Hd] [Td Tm]. unfold date_le, date_lt, month_index.
  assert (Hd1 : 1 <= day end_) by lia. clear Hd. split.
  - intros H.
    destruct (Z.eq_dec (day end_) 1) as [D | D].
    + destruct (Z.eq_dec (year t * 12 + (month t - 1))
                         (year end_ * 12 + (month end_ - 1))) as [Q | Q].
      * right. destruct end_ as [y m d], t as [y' m' d'].
        cbn [year month day] in *. f_equal; lia.
      * left. lia.
    + left. lia.
  - intros [H0 | <-]; lia.
Qed.

Lemma month_starts_sorted (n : nat) :
  forall a, StronglySorted date_lt (map month_start (zseq a n)).
Proof.
  induction n as [|n IH]; intros a; [constructor|].
  cbn [zseq map]. constructor; [apply IH|].
  apply Forall_forall. intros t Ht.
  apply in_map_iff in Ht as (j & <- & Hj).
  apply zseq_bounds in Hj. apply month_start_lt. lia.
Qed.

Lemma date_range_sorted (start end_ : date) :
  StronglySorted date_lt (date_range_MS start end_).
Proof. unfold date_range_MS. apply month_starts_sorted. Qed.

Lemma date_range_in (start end_ t : date) :
  valid_date start -> valid_date end_ ->
  (In t (date_range_MS start end_)
   <-> on_grid t /\ date_le start t /\ date_le t end_).
Proof.
  intros Vs Ve. unfold date_range_MS. rewrite (first_index Vs).
  set (first := if day start =? 1 then month_index start
                else month_index start + 1).
  rewrite in_map_iff. split.
  - intros (j & <- & Hj). apply zseq_bounds in Hj.
    pose proof (month_start_on_grid j) as G.
    split; [exact G|]. split.
    + apply (grid_after_start Vs G). rewrite month_index_start.
      subst first. lia.
    + apply (grid_before_end Ve G). rewrite month_index_start. lia.
  - intros (G & Hs & He). exists (month_index t).
    split; [now apply month_start_index|].
    apply (grid_after_start Vs G) in Hs.
    apply (grid_before_end Ve G) in He.
    apply DatesFacts.in_zseq. subst first. lia.
Qed.

Lemma zseq_step (n : nat) :
  forall a k x y,
    nth_error (zseq a n) k = Some x ->
    nth_error (zseq a n) (S k) = Some y ->
    y = x + 1.
Proof.
  induction n as [|n IH]; intros a k x y Hx Hy; [now destruct k|].
  cbn [zseq] in *. destruct k as [|k].
  - cbn in Hx. injection Hx as <-. cbn in Hy.
    destruct n; cbn in Hy; [discriminate | now injection Hy as <-].
  - cbn in Hx, Hy. exact (IH _ _ _ _ Hx Hy).
Qed.


Lemma sorted_tl (A : Type) (R : A -> A -> Prop) (l : list A) :
  StronglySorted R l -> StronglySorted R (tl l).
Proof. intros H. destruct H; [constructor | assumption]. Qed.

Lemma sorted_map (A B : Type) (R : A -> A -> Prop) (S : B -> B -> Prop)
      (f : A -> B) (l : list A) :
  (forall a b, R a b -> S (f a) (f b)) ->
  StronglySorted R l -> StronglySorted S (map f l).
Proof.
  intros HRS H. induction H as [|a l Hl IH Ha]; [constructor|].
  cbn [map]. constructor; [exact IH|].
  apply Forall_forall. intros y Hy. apply in_map_iff in Hy as (x & <- & Hx).
  apply HRS. rewrite Forall_forall in Ha. now apply Ha.
Qed.

(** X3.  The periods of a schedule.  For valid start and end dates the
    timesteps are exactly the first-of-months from the start date to the end
    date, both included, in increasing order and one month apart; the DATES
    Records of a run are therefore strictly increasing. *)
Theorem timeline_months production perf man_ops (start end_ : date) :
  valid_date start ->
  valid_date end_ ->
  (forall t,
      In t (date_range_MS start end_)
      <-> on_grid t /\ date_le start t /\ date_le t end_)
  /\ StronglySorted date_lt (date_range_MS start end_)
  /\ (forall k t t',
         nth_error (date_range_MS start end_) k = Some t ->
         nth_error (date_range_MS start end_) (S k) = Some t' ->
         month_index t' = month_index t + 1)
  /\ StronglySorted (fun a b => date_lt (ts_date a) (ts_date b))
       (dates_calls
          (written (walk production perf man_ops
                         (date_range_MS start end_)))).
Proof.
  intros Vs Ve. split; [|split; [|split]].
  - intros t. now apply date_range_in.
  - apply date_range_sorted.
  - unfold date_range_MS. intros k t t'. rewrite !nth_error_map.
    destruct (nth_error _ k) as [x|] eqn:X; [|discriminate].
    destruct (nth_error _ (S k)) as [y|] eqn:Y; [|discriminate].
    cbn [option_map]. intros [= <-] [= <-].
    rewrite !month_index_start. exact (zseq_step _ _ _ X Y).
  - rewrite WalkerFacts.walk_dates.
    apply (sorted_map (R := date_lt)); [now intros a b|].
    apply sorted_tl, date_range_sorted.
Qed.

Lemma timeline_months_witness :
  date_range_MS (mkdate 2020 11 15) (mkdate 2021 2 10)
  = [mkdate 2020 12 1; mkdate 2021 1 1; mkdate 2021 2 1]
  /\ In (mkdate 2021 1 1)
        (date_range_MS (mkdate 2020 11 15) (mkdate 2021 2 10))
  /\ ~ In (mkdate 2020 11 1)
          (date_range_MS (mkdate 2020 11 15) (mkdate 2021 2 10)).
Proof.
  assert (Vs : valid_date (mkdate 2020 11 15))
    by (vm_compute; intuition discriminate).
  assert (Ve : valid_date (mkdate 2021 2 10))
    by (vm_compute; intuition discriminate).
  destruct (@timeline_months [] [] [] _ _ Vs Ve) as (Hin & _).
  split; [reflexivity|]. split.
  - apply Hin. unfold on_grid, date_le, date_lt. cbn. lia.
  - intros H. apply Hin in H. destruct H as (_ & [H | H] & _).
    + unfold date_lt in H. cbn in H. lia.
    + discriminate H.
Defined.

End TimelineMore.

(** ** More on the walker *)

Module WalkerMore.
Import Text TextFacts EmitterFacts CalendarFacts WalkerFacts TimelineMore.

(** On an increasing timeline at most one timestep equals a given date. *)
Lemma one_period (A : Type) (X : list A) (d : date) (timesteps : list date) :
  StronglySorted date_lt timesteps ->
  flat_map (fun t => if date_eqb d t then X else []) timesteps
  = if existsb (date_eqb d) timesteps then X else [].
Proof.
  intros H. induction H as [|t l Hl IH Ht]; [reflexivity|].
  cbn [flat_map existsb]. destruct (date_eqb d t) eqn:E.
  - cbn [orb]. apply date_eqb_iff in E. subst t.
    rewrite flat_map_nil; [apply app_nil_r|].
    intros t' Ht'. rewrite Forall_forall in Ht.
    now rewrite (date_eqb_false_of_lt (Ht t' Ht')).
  - cbn [orb app]. exact IH.
Qed.

Lemma walk_from_production production perf man_ops timesteps i row :
  nth_error production i = Some row ->
  filter (from_production i)
         (written (walk production perf man_ops timesteps))
  = flat_map (fun t => if date_eqb (DATE row) t
                       then production_row_body (i, row) else [])
             timesteps.
Proof.
  intros H. destruct timesteps as [|t0 rest]; [reflexivity|].
  rewrite walk_written, filter_app, filter_flat_map. cbn [flat_map].
  rewrite (timestep_from_production production perf man_ops true t0 i H).
  f_equal. apply flat_map_ext. intros t.
  apply (timestep_from_production production perf man_ops false t i H).
Qed.

Lemma controls_of_body (i : nat) (row : prod_row) :
  map snd (production_row_body (i, row)) = controls_of row.
Proof.
  unfold production_row_body, controls_of.
  destruct (gt0 (WINJ row)), (gt0 (OIL row)); reflexivity.
Qed.

Lemma not_on_grid_never (d : date) (start end_ : date) :
  day d <> 1 -> existsb (date_eqb d) (date_range_MS start end_) = false.
Proof.
  intros Hd. destruct (existsb _ _) eqn:E; [|reflexivity].
  apply existsb_exists in E as (t & Ht & E).
  apply date_eqb_iff in E. subst t.
  unfold date_range_MS in Ht. apply in_map_iff in Ht as (j & Hj & _).
  rewrite <- Hj in Hd. now cbn in Hd.
Qed.

(** X4.  A production row is handled in one period at most: the one whose
    first-of-month equals its DATE, the first period included.  There the
    loop writes WCONINJH when the injection rate is positive, then WCONHIST
    when the oil rate is positive, then a single WEFAC when either was
    written.  Production dates are not floored: a row dated on another day
    than the first of a month is never written. *)
Theorem production_row_periods production perf man_ops (start end_ : date)
        (i : nat) (row : prod_row) :
  nth_error production i = Some row ->
  map snd
      (filter (from_production i)
              (written (walk production perf man_ops
                             (date_range_MS start end_))))
  = (if existsb (date_eqb (DATE row)) (date_range_MS start end_)
     then
       ((if gt0 (WINJ row) then [wconinjh_call row] else [])
        ++ (if gt0 (OIL row) then [wconprodh_call row] else [])
        ++ (if gt0 (WINJ row) || gt0 (OIL row) then [wefac_call row] else []))
     else [])%list
  /\ (day (DATE row) <> 1 ->
      filter (from_production i)
             (written (walk production perf man_ops
                            (date_range_MS start end_)))
      = []).
Proof.
  intros H.
  rewrite (walk_from_production production perf man_ops _ i H).
  rewrite (one_period _ _ (date_range_sorted start end_)).
  split.
  - destruct (existsb _ _); [apply controls_of_body | reflexivity].
  - intros Hd. now rewrite (not_on_grid_never _ start end_ Hd).
Qed.

Lemma production_row_periods_witness :
  map snd
      (filter (from_production 0)
              (written (walk (table_of example_csv) [] []
                             (date_range_MS (mkdate 2021 3 1)
                                            (mkdate 2021 6 30)))))
  = [wconprodh_call (row_of example_csv); wefac_call (row_of example_csv)]
  /\ filter (from_production 0)
            (written (walk (table_of mid_month_csv) [] []
                           (date_range_MS (mkdate 2021 3 1)
                                          (mkdate 2021 6 30))))
     = [].
Proof.
  split.
  - exact (proj1 (@production_row_periods (table_of example_csv) [] []
                    (mkdate 2021 3 1) (mkdate 2021 6 30) 0%nat
                    (row_of example_csv) eq_refl)).
  - apply (proj2 (@production_row_periods (table_of mid_month_csv) [] []
                    (mkdate 2021 3 1) (mkdate 2021 6 30) 0%nat
                    (row_of mid_month_csv) eq_refl)).
    discriminate.
Defined.


(** *** Perforation rows over the whole run *)

Lemma timestep_from_perf production perf man_ops (first : bool) t i row :
  nth_error perf i = Some row ->
  filter (from_perf i) (timestep_body production perf man_ops first t)
  = ((if first && date_lt_ts (perf_date row) t
      then [(FromPerf i, perf_call row)] else [])
     ++ (if date_eq_ts (perf_date row) t
         then [(FromPerf i, perf_call row)] else []))%list.
Proof.
  intros H. destruct first.
  - rewrite first_body, filter_app.
    now rewrite (pre_start_from_perf perf t i H),
      (rows_part_from_perf production perf man_ops t i H).
  - rewrite later_body, filter_app, header_from_perf.
    now rewrite (rows_part_from_perf production perf man_ops t i H).
Qed.

Lemma one_period_opt (A : Type) (X : list A) (d : option date)
      (timesteps : list date) :
  StronglySorted date_lt timesteps ->
  flat_map (fun t => if date_eq_ts d t then X else []) timesteps
  = if existsb (date_eq_ts d) timesteps then X else [].
Proof.
  destruct d as [d|]; cbn [date_eq_ts].
  - apply one_period.
  - intros _. induction timesteps as [|t l IH]; [reflexivity | exact IH].
Qed.

Lemma before_first_not_later (d t0 : date) (rest : list date) :
  StronglySorted date_lt (t0 :: rest) ->
  date_lt d t0 ->
  existsb (date_eqb d) (t0 :: rest) = false.
Proof.
  intros S H0. destruct (existsb _ _) eqn:E; [|reflexivity].
  apply existsb_exists in E as (t & Ht & E).
  apply date_eqb_iff in E. subst t.
  inversion S as [|a l Sl Fa]; subst.
  destruct Ht as [<- | Ht].
  - now apply date_lt_irrefl in H0.
  - rewrite Forall_forall in Fa. specialize (Fa d Ht).
    exfalso. apply (date_lt_irrefl (a := d)).
    eapply date_lt_trans; eassumption.
Qed.

(** X5.  A perforation row is written once at most in a whole run: ahead of
    the first period when its date is before the first timestep, in the
    period of its date when that is a timestep, and never otherwise.  So a
    row of a well without perforation is never written, and neither is a
    perforation dated after the last timestep. *)
Theorem perforation_row_periods production perf man_ops
        (start end_ t0 : date) (rest : list date) (i : nat) (row : perf_row) :
  date_range_MS start end_ = t0 :: rest ->
  nth_error perf i = Some row ->
  filter (from_perf i)
         (written (walk production perf man_ops (date_range_MS start end_)))
  = (if date_lt_ts (perf_date row) t0
        || existsb (date_eq_ts (perf_date row)) (t0 :: rest)
     then [(FromPerf i, perf_call row)] else [])
  /\ (perf_date row = None ->
      filter (from_perf i)
             (written (walk production perf man_ops
                            (date_range_MS start end_)))
      = [])
  /\ (forall d,
         perf_date row = Some d ->
         (forall t, In t (t0 :: rest) -> date_lt t d) ->
         filter (from_perf i)
                (written (walk production perf man_ops
                               (date_range_MS start end_)))
         = []).
Proof.
  intros Hrange Hrow.
  pose proof (date_range_sorted start end_) as S. rewrite Hrange in S.
  assert (E : filter (from_perf i)
                (written (walk production perf man_ops
                               (date_range_MS start end_)))
              = (if date_lt_ts (perf_date row) t0
                    || existsb (date_eq_ts (perf_date row)) (t0 :: rest)
                 then [(FromPerf i, perf_call row)] else [])).
  { rewrite Hrange, walk_written, filter_app, filter_flat_map.
    rewrite (timestep_from_perf production perf man_ops true t0 i Hrow).
    rewrite (flat_map_ext _ _
               (fun t => timestep_from_perf production perf man_ops false
                           t i Hrow)).
    cbn [andb app].
    pose proof (one_period_opt [(FromPerf i, perf_call row)]
                  (perf_date row) S) as P.
    cbn [flat_map] in P. rewrite <- app_assoc.
    match goal with
    | |- (?a ++ ?b)%list = _ =>
        replace b with (if existsb (date_eq_ts (perf_date row)) (t0 :: rest)
                        then [(FromPerf i, perf_call row)] else [])
          by (symmetry; exact P)
    end.
    clear P.
    destruct (perf_date row) as [d|]; cbn [date_lt_ts]; [|reflexivity].
    change (date_eq_ts (Some d)) with (date_eqb d).
    destruct (date_ltb d t0) eqn:L; [|reflexivity].
    apply date_ltb_iff in L.
    now rewrite (before_first_not_later S L). }
  split; [exact E|]. split.
  - intros Hd. rewrite E, Hd. cbn [date_lt_ts orb].
    change (date_eq_ts None) with (fun _ : date => false).
    replace (existsb (fun _ : date => false) (t0 :: rest)) with false;
      [reflexivity|].
    symmetry. clear. induction (t0 :: rest) as [|x l IH]; [reflexivity|].
    exact IH.
  - intros d Hd Hafter. rewrite E, Hd. cbn [date_lt_ts].
    change (date_eq_ts (Some d)) with (date_eqb d).
    replace (date_ltb d t0) with false.
    + replace (existsb (date_eqb d) (t0 :: rest)) with false; [reflexivity|].
      symmetry.
      destruct (existsb (date_eqb d) (t0 :: rest)) eqn:X; [|reflexivity].
      apply existsb_exists in X as (t & Ht & X).
      apply date_eqb_iff in X. subst t.
      now apply Hafter, date_lt_irrefl in Ht.
    + symmetry. destruct (date_ltb d t0) eqn:L; [|reflexivity].
      apply date_ltb_iff in L.
      exfalso. apply (date_lt_irrefl (a := d)).
      eapply date_lt_trans; [exact L|]. apply Hafter. now left.
Qed.

Lemma perforation_row_periods_witness :
  map (fun i =>
         List.length
           (filter (from_perf i)
                   (written (walk [] three_perfs []
                                  (date_range_MS (mkdate 2021 3 1)
                                                 (mkdate 2021 5 31))))))
      [0; 1; 2; 3]%nat
  = [1; 1; 0; 0]%nat.
Proof.
  pose proof (fun i row =>
                @perforation_row_periods [] three_perfs [] (mkdate 2021 3 1)
                  (mkdate 2021 5 31) (mkdate 2021 3 1)
                  [mkdate 2021 4 1; mkdate 2021 5 1] i row eq_refl) as P.
  cbn [map].
  rewrite (proj1 (P 0%nat _ eq_refl)).
  rewrite (proj1 (P 1%nat _ eq_refl)).
  rewrite (proj2 (proj2 (P 2%nat _ eq_refl)) (mkdate 2021 7 1) eq_refl).
  - rewrite (proj1 (proj2 (P 3%nat _ eq_refl)) eq_refl). reflexivity.
  - intros t Ht. unfold date_lt.
    destruct Ht as [<- | [<- | [<- | []]]]; cbn; lia.
Defined.


(** *** Manual operations *)

Lemma perf_loop_from_manops (i : nat) (sl : list (nat * perf_row)) :
  filter (from_manops i) (perf_loop sl) = [].
Proof.
  apply filter_nil_iff. intros e He. unfold perf_loop in He.
  apply in_map_iff in He as ([j row] & <- & _). reflexivity.
Qed.

Lemma production_from_manops (i : nat) (sl : list (nat * prod_row)) :
  filter (from_manops i) (flat_map production_row_body sl) = [].
Proof.
  rewrite filter_flat_map. apply flat_map_nil. intros [j row] _.
  unfold production_row_body.
  destruct (gt0 (WINJ row)), (gt0 (OIL row)); reflexivity.
Qed.

Lemma manops_loop_from_manops (i : nat) (sl : list (nat * manop_row)) :
  filter (from_manops i) (flat_map manop_body sl)
  = flat_map manop_body (filter (fun ir => Nat.eqb i (fst ir)) sl).
Proof.
  induction sl as [|[j row] sl IH]; [reflexivity|].
  cbn [flat_map filter fst]. rewrite filter_app, IH.
  unfold manop_body at 1. cbn [filter]. unfold from_manops at 1. cbn [fst].
  destruct (Nat.eqb i j); reflexivity.
Qed.

Lemma timestep_from_manops production perf man_ops (first : bool) t i row :
  nth_error man_ops i = Some row ->
  filter (from_manops i) (timestep_body production perf man_ops first t)
  = if date_eqb (mo_date row) t
    then [(FromManOps i, CallGeneric (mo_keyword row) (mo_args row))]
    else [].
Proof.
  intros H.
  assert (R : filter (from_manops i) (rows_part production perf man_ops t)
              = if date_eqb (mo_date row) t
                then [(FromManOps i,
                       CallGeneric (mo_keyword row) (mo_args row))]
                else []).
  { unfold rows_part. rewrite !filter_app.
    rewrite perf_loop_from_manops, production_from_manops. cbn [app].
    rewrite manops_loop_from_manops, filter_comm.
    rewrite (iterrows_index man_ops i H). cbn [filter snd].
    now destruct (date_eqb (mo_date row) t). }
  destruct first.
  - rewrite first_body, filter_app. unfold pre_start_part.
    now rewrite perf_loop_from_manops.
  - now rewrite later_body, filter_app.
Qed.

(** X6.  A manual operation is written once at most, in the period whose
    first-of-month equals its date, as a generic Record.  The text of a
    generic Record is the keyword line, the argument string as it is given
    (line by line when it holds several), one line with a slash alone and a
    blank line: the writer adds no slash to the argument line itself. *)
Theorem manual_operation_verbatim production perf man_ops
        (start end_ : date) (i : nat) (row : manop_row) :
  nth_error man_ops i = Some row ->
  filter (from_manops i)
         (written (walk production perf man_ops (date_range_MS start end_)))
  = (if existsb (date_eqb (mo_date row)) (date_range_MS start end_)
     then [(FromManOps i, CallGeneric (mo_keyword row) (mo_args row))]
     else [])
  /\ Text.lines (generic_kw_keyword (mo_keyword row) (mo_args row))
     = (Text.lines (mo_keyword row ++ Text.nl)
        ++ Text.lines (mo_args row ++ Text.nl) ++ ["/"; ""])%list
  /\ (Text.no_nl (mo_keyword row) = true ->
      Text.no_nl (mo_args row) = true ->
      Text.lines (generic_kw_keyword (mo_keyword row) (mo_args row))
      = [mo_keyword row; mo_args row; "/"; ""]).
Proof.
  intros H. split; [|split].
  - destruct (date_range_MS start end_) as [|t0 rest] eqn:R; [reflexivity|].
    rewrite walk_written, filter_app, filter_flat_map.
    rewrite (timestep_from_manops production perf man_ops true t0 i H).
    rewrite (flat_map_ext _ _
               (fun t => timestep_from_manops production perf man_ops false
                           t i H)).
    pose proof (date_range_sorted start end_) as S. rewrite R in S.
    exact (one_period _ _ S).
  - unfold generic_kw_keyword. cbv zeta.
    rewrite (TextMore.lines_app _ _ (TextMore.complete_nl_end _)).
    change (mo_args row ++ Text.nl ++ "/" ++ Text.nl ++ Text.nl)
      with (mo_args row ++ Text.nl ++ ("/" ++ Text.nl ++ Text.nl)).
    rewrite <- TextFacts.sapp_assoc.
    now rewrite (TextMore.lines_app _ _ (TextMore.complete_nl_end _)).
  - intros Hk Ha. unfold generic_kw_keyword. cbv zeta.
    rewrite TextFacts.sapp_assoc.
    change (mo_keyword row ++ Text.nl ++ mo_args row ++ Text.nl ++ "/"
            ++ Text.nl ++ Text.nl)
      with (mo_keyword row
            ++ String Text.nl_char
                 (mo_args row
                  ++ String Text.nl_char ("/" ++ Text.nl ++ Text.nl))).
    now rewrite (TextFacts.lines_cons _ _ Hk), (TextFacts.lines_cons _ _ Ha).
Qed.

Lemma manual_operation_verbatim_witness :
  filter (from_manops 1)
         (written (walk [] [] two_man_ops
                        (date_range_MS (mkdate 2021 3 1) (mkdate 2021 5 31))))
  = [(FromManOps 1, CallGeneric "WELTARG" "W1 BHP 50 /")]
  /\ Text.lines (generic_kw_keyword "WELTARG" "W1 BHP 50 /")
     = ["WELTARG"; "W1 BHP 50 /"; "/"; ""].
Proof.
  destruct (@manual_operation_verbatim [] [] two_man_ops (mkdate 2021 3 1)
              (mkdate 2021 5 31) 1%nat
              (mkmanop april "F" "WELTARG" "W1 BHP 50 /") eq_refl)
    as (H1 & _ & H3).
  split; [exact H1 | exact (H3 eq_refl eq_refl)].
Defined.


(** *** A range without any first-of-month *)

Lemma no_grid_date_no_timestep (start end_ : date) :
  valid_date start -> valid_date end_ ->
  (forall t, on_grid t -> date_le start t -> date_le t end_ -> False) ->
  date_range_MS start end_ = [].
Proof.
  intros Vs Ve H. destruct (date_range_MS start end_) as [|t l] eqn:R;
    [reflexivity|].
  assert (I : In t (date_range_MS start end_)) by (rewrite R; now left).
  apply (date_range_in t Vs Ve) in I as (G & Hs & He).
  destruct (H t G Hs He).
Qed.

Lemma le_lt_absurd (a b c : date) :
  date_lt c a -> date_le a b -> date_le b c -> False.
Proof.
  unfold date_le. intros H [H1 | ->] [H2 | ->];
    apply (date_lt_irrefl (a := c)).
  - eapply date_lt_trans; [exact H|]. eapply date_lt_trans; eassumption.
  - eapply date_lt_trans; eassumption.
  - eapply date_lt_trans; eassumption.
  - assumption.
Qed.

(** X7.  When no first-of-month lies between the start date and the end
    date, as when the end date comes before the start date, a run that gets
    as far as the timestep loop (it has a production row, so that the
    normalizer does not raise, and it passes the assertion) writes no
    Record at all, not even the perforations that precede the start date,
    and leaves the output file empty. *)
Theorem empty_schedule (args : argv) (inp : input_directory) :
  valid_date (start_date args) ->
  valid_date (end_date args) ->
  (forall t,
      on_grid t -> date_le (start_date args) t -> date_le t (end_date args) ->
      False) ->
  (production_kmb inp ++ production_tk inp)%list <> [] ->
  (List.length (wells_without_perforation args inp) <= 1)%nat ->
  date_range_MS (start_date args) (end_date args) = []
  /\ schedule args inp = Ok []
  /\ forall repr_float w,
       main repr_float args inp w = (None, mksinks (stdout w) "").
Proof.
  intros Vs Ve Hno Hp Hw.
  pose proof (no_grid_date_no_timestep Vs Ve Hno) as R.
  assert (S : schedule args inp = Ok []).
  { unfold schedule. rewrite (JoinFacts.production_present inp Hp).
    replace (List.length (no_perforation (load_perf args inp)))
      with (List.length (wells_without_perforation args inp))
      by (now rewrite <- (JoinFacts.bare_wells args inp), length_map).
    rewrite (proj2 (Nat.leb_le _ _) Hw), R. reflexivity. }
  split; [exact R|]. split; [exact S|].
  intros repr_float w. unfold main. now rewrite S.
Qed.

Lemma empty_schedule_witness :
  main no_floats backwards_args
       (mkinput [example_csv] [] [sample_well]
                [mkperfcsv "1" (mkdate 2020 5 17) (of_Z 1000) (of_Z 1010) None]
                [] [])
       (mksinks "" "old")
  = (None, mksinks "" "").
Proof.
  assert (Vs : valid_date (mkdate 2021 5 1))
    by (vm_compute; intuition discriminate).
  assert (Ve : valid_date april) by (vm_compute; intuition discriminate).
  refine (proj2 (proj2 (@empty_schedule backwards_args _ Vs Ve _ _ _)) _ _).
  - intros t _. apply le_lt_absurd. unfold date_lt. cbn. lia.
  - discriminate.
  - vm_compute. lia.
Defined.

(** *** No day on production *)




(** *** The control lines of a production row *)

(** X16.  What the file holds for a production row.  The injection Record
    is WCONINJH with the well, WATER, OPEN, the injection rate, the bottom
    hole and then the tubing head pressure, five wildcards and RATE; the
    production Record is WCONHIST with the well, OPEN, LRAT, the oil, water
    and gas rates, two wildcards, the tubing head and then the bottom hole
    pressure (the other way round than in WCONINJH) and two wildcards; the
    WEFAC Record has the well, the factor and a wildcard.  A pressure that
    is not positive, or missing, is a wildcard. *)
Theorem control_lines_of_row repr_float (row : prod_row) :
  call_keyword repr_float (wconinjh_call row)
  = Ok ("WCONINJH" ++ nl
        ++ WELL row ++ " WATER OPEN " ++ repr_float (WINJ row) ++ " "
        ++ pressure_token repr_float (BHP row) ++ " "
        ++ pressure_token repr_float (THP row) ++ " * * * * * RATE /" ++ nl
        ++ "/" ++ nl ++ nl)
  /\ call_keyword repr_float (wconprodh_call row)
     = Ok ("WCONHIST" ++ nl
           ++ WELL row ++ " OPEN LRAT " ++ repr_float (OIL row) ++ " "
           ++ repr_float (WATER row) ++ " " ++ repr_float (GAS row) ++ " * * "
           ++ pressure_token repr_float (THP row) ++ " "
           ++ pressure_token repr_float (BHP row) ++ " * * /" ++ nl
           ++ "/" ++ nl ++ nl)
  /\ call_keyword repr_float (wefac_call row)
     = Ok ("WEFAC" ++ nl
           ++ WELL row ++ " " ++ repr_float (efficiency_factor row) ++ " * /"
           ++ nl ++ "/" ++ nl ++ nl)
  /\ pressure_token repr_float NaN = "*"
  /\ pressure_token repr_float (Fin 0) = "*".
Proof.
  split; [|split; [|split; [|split; reflexivity]]].
  - rewrite (@positional_text repr_float (wconinjh_call row) _ _ eq_refl).
    unfold argument_line, tokens, pressure_token, or_star.
    destruct (gt0 (BHP row)), (gt0 (THP row));
      cbn; repeat (first [rewrite sapp_assoc | progress cbn [append]]);
      reflexivity.
  - rewrite (@positional_text repr_float (wconprodh_call row) _ _ eq_refl).
    unfold argument_line, tokens, pressure_token, or_star.
    destruct (gt0 (BHP row)), (gt0 (THP row));
      cbn; repeat (first [rewrite sapp_assoc | progress cbn [append]]);
      reflexivity.
  - rewrite (@positional_text repr_float (wefac_call row) _ _ eq_refl).
    unfold argument_line, tokens.
    cbn; repeat (first [rewrite sapp_assoc | progress cbn [append]]); reflexivity.
Qed.

End WalkerMore.

(** ** More on the normalizer and the joins *)

Module NormalizerMore.
Import CalendarFacts TimelineMore.

Lemma preprocess_prod_map df :
  preprocess_prod df = map (fun rw => normalized (fst rw) (snd rw)) df.
Proof. unfold preprocess_prod. apply map_ext. now intros [row w]. Qed.

(** What one production row contributes after join, normalizer and filter. *)
Lemma production_row_join (args : argv) (wt : list well_row) (row : prod_csv) :
  filter (fun r =>
            match prod_well r with
            | Some w => String.eqb (wt_field w) (field args)
            | None => false
            end)
         (map (fun rw => normalized (fst rw) (snd rw))
              (match filter (fun r =>
                               String.eqb (pc_WELL row) (wt_model_name r)) wt
               with
               | [] => [(row, None)]
               | ms => map (fun r => (row, Some r)) ms
               end))
  = map (fun w => normalized row (Some w))
        (filter (fun w =>
                   String.eqb (pc_WELL row) (wt_model_name w)
                   && String.eqb (wt_field w) (field args)) wt).
Proof.
  rewrite (WalkerFacts.filter_andb
             (fun w => String.eqb (pc_WELL row) (wt_model_name w))
             (fun w => String.eqb (wt_field w) (field args))).
  destruct (filter (fun r => String.eqb (pc_WELL row) (wt_model_name r)) wt)
    as [|x ms]; [reflexivity|].
  generalize (x :: ms). intros l.
  induction l as [|w l IH]; [reflexivity|].
  cbn [map filter fst snd normalized prod_well].
  destruct (String.eqb (wt_field w) (field args)); cbn [map];
    now rewrite <- IH.
Qed.

Lemma length_flat_map_sum (A B : Type) (f : A -> list B) (l : list A) :
  List.length (flat_map f l) = list_sum (map (fun x => List.length (f x)) l).
Proof.
  induction l as [|x l IH]; [reflexivity|].
  cbn [flat_map map list_sum]. now rewrite length_app, IH.
Qed.

(** X9.  After the field filter the left join of the production table is an
    inner join.  The walker receives, for each raw production row in file
    order, one normalized row per row of the well table that has its name
    and lies in the selected field: none when the well is missing from the
    table or lies in another field, several when the table lists the well
    more than once. *)
Theorem production_inner_join (args : argv) (inp : input_directory) :
  load_production args inp
  = flat_map (fun row =>
                map (fun w => normalized row (Some w))
                    (wells_of_row args inp row))
             (production_kmb inp ++ production_tk inp)
  /\ (forall r,
         In r (load_production args inp) ->
         exists row w,
           In row (production_kmb inp ++ production_tk inp)
           /\ In w (well_table inp)
           /\ r = normalized row (Some w)
           /\ pc_WELL row = wt_model_name w
           /\ wt_field w = field args)
  /\ List.length (load_production args inp)
     = list_sum (map (fun row => List.length (wells_of_row args inp row))
                     (production_kmb inp ++ production_tk inp)).
Proof.
  assert (E : load_production args inp
              = flat_map (fun row =>
                            map (fun w => normalized row (Some w))
                                (wells_of_row args inp row))
                         (production_kmb inp ++ production_tk inp)).
  { unfold load_production, merge_left, wells_of_row. cbv zeta.
    rewrite preprocess_prod_map.
    induction (production_kmb inp ++ production_tk inp)%list
      as [|row l IH]; [reflexivity|].
    cbn [flat_map]. rewrite map_app, filter_app, IH.
    now rewrite production_row_join. }
  split; [exact E|]. split.
  - intros r Hr. rewrite E in Hr.
    apply in_flat_map in Hr as (row & Hrow & Hr).
    apply in_map_iff in Hr as (w & <- & Hw).
    unfold wells_of_row in Hw. apply filter_In in Hw as [Hw Hm].
    apply andb_true_iff in Hm as [Hn Hf].
    exists row, w. repeat split; try assumption.
    + now apply String.eqb_eq.
    + now apply String.eqb_eq.
  - rewrite E, length_flat_map_sum. f_equal. apply map_ext.
    intros row. apply length_map.
Qed.

Lemma production_inner_join_witness :
  load_production example_args
                  (mkinput [example_csv]
                           [mkprodcsv "W9" april (of_Z 7) (of_Z 0) (of_Z 0)
                                      (of_Z 0) (of_Z 7) (of_Z 0) (of_Z 0)]
                           [sample_well; mkwell "W9" "9" "G" (PStr "K2")]
                           [] [] [])
  = [normalized example_csv (Some sample_well)].
Proof.
  rewrite (proj1 (production_inner_join example_args _)). reflexivity.
Defined.


(** *** The perforation table *)

Lemma prefix_occurs (needle hay : string) :
  String.prefix needle hay = true <-> exists post, hay = needle ++ post.
Proof.
  revert hay. induction needle as [|a n IH]; intros hay.
  - split; [intros _; now exists hay | now destruct hay].
  - destruct hay as [|b h]; cbn [String.prefix].
    + split; [discriminate | intros [post H]; discriminate H].
    + destruct (Ascii.ascii_dec a b) as [-> | Hab].
      * rewrite IH. split; intros [post H]; exists post.
        -- now rewrite H.
        -- now injection H.
      * split; [discriminate|]. intros [post H]. injection H as H _.
        congruence.
Qed.

(** [needle in hay] is true exactly when the needle occurs in the text. *)
Lemma contains_occurs (needle hay : string) :
  Text.contains needle hay = true <-> occurs_in needle hay.
Proof.
  unfold occurs_in. induction hay as [|c h IH].
  - cbn [Text.contains]. rewrite orb_false_r, prefix_occurs. split.
    + intros [post H]. now exists "", post.
    + intros (pre & post & H). exists post.
      destruct pre; [exact H | discriminate H].
  - cbn [Text.contains]. rewrite orb_true_iff, prefix_occurs, IH. split.
    + intros [[post H] | (pre & post & H)].
      * now exists "", post.
      * exists (String c pre), post. now rewrite H.
    + intros (pre & post & H). destruct pre as [|c' pre].
      * left. now exists post.
      * right. exists pre, post. now injection H.
Qed.

(** X10.  The normalizer of the perforation table keeps the rows and their
    order, and changes the date only: a valid date is moved to the first of
    its own month, which is a date of the monthly grid and never later than
    the date itself.  The flag it adds is false, and the perforation later
    written SHUT instead of OPEN, exactly when the type text is present and
    the marker occurs nowhere in it. *)
Theorem perforation_normalized (df : list perf_csv) (i : nat) (row : perf_csv) :
  nth_error df i = Some row ->
  List.length (preprocess_perf df) = List.length df
  /\ exists f,
      nth_error (preprocess_perf df) i = Some f
      /\ fc_well (fact_csv f) = fc_well row
      /\ fc_depth_start (fact_csv f) = fc_depth_start row
      /\ fc_depth_end (fact_csv f) = fc_depth_end row
      /\ fc_type (fact_csv f) = fc_type row
      /\ (valid_date (fc_date row) ->
          fc_date (fact_csv f) = month_start (month_index (fc_date row))
          /\ on_grid (fc_date (fact_csv f))
          /\ date_le (fc_date (fact_csv f)) (fc_date row))
      /\ (perf_flag f = false
          <-> exists text,
                fc_type row = Some text /\ ~ occurs_in perf_marker text)
      /\ forall w,
           perf_call (mkperfrow (Some f) w)
           = CallPerf
               (mkperf (PStr (wt_model_name w)) None
                  (Some (PFloat (fc_depth_start row)))
                  (Some (PFloat (fc_depth_end row)))
                  (Some (PStr "MD"))
                  (Some (PStr (if perf_flag f then "OPEN" else "SHUT")))
                  None None (Some (PFloat (Fin (16 # 100)))) None None None
                  None None).
Proof.
  intros H. split; [unfold preprocess_perf; apply length_map|].
  unfold preprocess_perf. rewrite nth_error_map, H. cbn [option_map].
  eexists. split; [reflexivity|].
  cbn [fact_csv fc_well fc_date fc_depth_start fc_depth_end fc_type perf_flag].
  repeat (split; [reflexivity|]).
  split; [|split].
  - intros [Hm Hd].
    assert (Hd1 : 1 <= day (fc_date row)) by lia.
    assert (G : on_grid (mkdate (year (fc_date row)) (month (fc_date row)) 1))
      by (split; [reflexivity | exact Hm]).
    split; [|split; [exact G|]].
    + unfold month_index.
      rewrite (month_start_of (year (fc_date row))
                 (k := month (fc_date row) - 1)) by lia.
      f_equal. lia.
    + unfold date_le, date_lt. cbn [year month day].
      destruct (Z.eq_dec (day (fc_date row)) 1) as [E | E].
      * right. destruct (fc_date row) as [y m d]. cbn in *. now subst d.
      * left. lia.
  - destruct (fc_type row) as [text|].
    + destruct (Text.contains perf_marker text) eqn:C.
      * split; [discriminate|]. intros (t & [= <-] & N).
        exfalso. apply N. now apply contains_occurs.
      * split; [|reflexivity]. intros _. exists text.
        split; [reflexivity|]. intros O.
        apply contains_occurs in O. congruence.
    + split; [discriminate|]. now intros (t & Habs & _).
  - intros w. reflexivity.
Qed.

Lemma perforation_normalized_witness :
  map (fun f => (fc_date (fact_csv f), perf_flag f))
      (preprocess_perf [reperforation_csv; isolation_csv])
  = [(mkdate 2020 5 1, true); (mkdate 2020 9 1, false)]
  /\ date_le (mkdate 2020 5 1) (mkdate 2020 5 17).
Proof.
  split; [reflexivity|].
  destruct (@perforation_normalized [reperforation_csv; isolation_csv]
              0%nat reperforation_csv eq_refl)
    as (_ & f & Hf & _ & _ & _ & _ & Hv & _).
  injection Hf as <-.
  assert (V : valid_date (mkdate 2020 5 17))
    by (vm_compute; intuition discriminate).
  exact (proj2 (proj2 (Hv V))).
Defined.

End NormalizerMore.

(** ** More on the trajectory compiler *)

Module WelltrackMore.
Import Text TextFacts Welltracks WelltrackFacts.

(** *** The wells the loop runs over *)

Lemma unique_in (l : list string) (x : string) : In x (unique l) <-> In x l.
Proof.
  induction l as [|y l IH]; [reflexivity|].
  rewrite unique_cons. cbn [In]. rewrite filter_In, IH, negb_true_iff.
  destruct (String.eqb_spec x y) as [-> | N].
  - split; [intros _ | intros _]; now left.
  - split.
    + intros [E | [H _]]; [now left | now right].
    + intros [E | H]; [now left | right; now split].
Qed.

Lemma unique_nodup (l : list string) : NoDup (unique l).
Proof.
  induction l as [|y l IH]; [constructor|].
  rewrite unique_cons. constructor.
  - rewrite filter_In. intros [_ H]. now rewrite String.eqb_refl in H.
  - now apply NoDup_filter.
Qed.

(** A list either passes a check throughout or has a first failure. *)
Lemma first_failure (A : Type) (p : A -> bool) (l : list A) :
  forallb p l = true
  \/ exists good bad rest,
       l = (good ++ bad :: rest)%list
       /\ forallb p good = true /\ p bad = false.
Proof.
  induction l as [|x l IH]; [now left|].
  cbn [forallb]. destruct (p x) eqn:X.
  - destruct IH as [H | (good & bad & rest & -> & Hg & Hb)].
    + now left.
    + right. exists (x :: good), bad, rest. cbn [forallb app].
      now rewrite X, Hg.
  - right. now exists [], x, l.
Qed.

Lemma enough_forall df (wells : list string) :
  forallb (enough_rows df) wells = true
  <-> forall w, In w wells -> (2 <= List.length (df_slice_of df w))%nat.
Proof.
  rewrite forallb_forall. split; intros H w Hw;
    apply enough_rows_iff; now apply H.
Qed.

Lemma well_records_from (df : list traj_row) (w : string) (wells : list string) :
  NoDup wells ->
  filter (from_well w) (flat_map (well_records df) wells)
  = if existsb (String.eqb w) wells then well_records df w else [].
Proof.
  intros N. induction N as [|x l Hx N IH]; [reflexivity|].
  cbn [flat_map existsb]. rewrite filter_app, IH.
  unfold well_records at 1. cbn [filter]. unfold from_well. cbn [fst].
  destruct (String.eqb_spec w x) as [-> | Hne].
  - cbn [orb].
    replace (existsb (String.eqb x) l) with false; [reflexivity|].
    symmetry. destruct (existsb (String.eqb x) l) eqn:E; [|reflexivity].
    apply existsb_exists in E as (y & Hy & E).
    apply String.eqb_eq in E. now subst y.
  - reflexivity.
Qed.

(** X12.  The outcome of the trajectory loop.  The wells it visits are the
    model names that occur in the joined table, each once.  The loop ends
    without error exactly when every one of them has two rows or more, and
    then each well has exactly its WELSPECS and its WELLTRACK in the
    output; otherwise the error is the AssertionError that names the first
    well with fewer than two rows, and the output stops before that well. *)
Theorem welltracks_outcome (df : list traj_row) :
  NoDup (well_names df)
  /\ (forall w,
         In w (well_names df)
         <-> exists row, In row df /\ wt_model_name (traj_well row) = w)
  /\ (fst (welltracks df) = None
      <-> forall w,
            In w (well_names df) ->
            (2 <= List.length (df_slice_of df w))%nat)
  /\ (fst (welltracks df) = None ->
      forall w,
        filter (from_well w) (snd (welltracks df))
        = if existsb (String.eqb w) (well_names df)
          then well_records df w else [])
  /\ (forall e,
         fst (welltracks df) = Some e ->
         exists good bad rest,
           well_names df = (good ++ bad :: rest)%list
           /\ (forall w,
                  In w good -> (2 <= List.length (df_slice_of df w))%nat)
           /\ (List.length (df_slice_of df bad) < 2)%nat
           /\ e = AssertionError (welltrack_msg bad)
           /\ snd (welltracks df) = flat_map (well_records df) good).
Proof.
  assert (N : NoDup (well_names df)) by apply unique_nodup.
  split; [exact N|]. split.
  { intros w. unfold well_names. rewrite unique_in, in_map_iff.
    split; intros (row & H1 & H2); exists row; now split. }
  unfold welltracks. fold (well_names df).
  destruct (first_failure (enough_rows df) (well_names df))
    as [Hall | (good & bad & rest & E & Hg & Hb)].
  - rewrite (loop_all_enough df _ Hall). cbn [fst snd app].
    split; [|split].
    + split; [intros _; now apply enough_forall | reflexivity].
    + intros _ w. now apply well_records_from.
    + discriminate.
  - rewrite E, (@loop_stops df good bad rest Hg Hb). cbn [fst snd app].
    split; [|split].
    + split; [discriminate|]. intros H. exfalso.
      apply enough_rows_false_iff in Hb.
      assert (In bad (good ++ bad :: rest)) by (apply in_elt).
      specialize (H bad ltac:(assumption)). lia.
    + discriminate.
    + intros e [= <-]. exists good, bad, rest.
      split; [reflexivity|]. split; [now apply enough_forall|].
      split; [now apply enough_rows_false_iff|]. now split.
Qed.

Lemma welltracks_outcome_witness :
  filter (from_well "W1") (snd (welltracks example_df))
  = well_records example_df "W1"
  /\ fst (welltracks (tl example_df))
     = Some (AssertionError "Welltrack for well W1 is missing").
Proof.
  destruct (welltracks_outcome example_df) as (_ & _ & Hnone & Hrec & _).
  destruct (welltracks_outcome (tl example_df)) as (_ & _ & Hshort & _ & Herr).
  split.
  - rewrite Hrec; [reflexivity|]. apply Hnone.
    intros w [<- | []]. vm_compute. lia.
  - destruct (fst (welltracks (tl example_df))) as [e|].
    + destruct (Herr e eq_refl) as (good & bad & rest & En & _ & _ & -> & _).
      change (well_names (tl example_df)) with ["W1"] in En.
      destruct good as [|x [|y g]]; try discriminate En.
      now injection En as <- _.
    + pose proof (proj1 Hshort eq_refl "W1" (or_introl eq_refl)) as L.
      vm_compute in L. lia.
Defined.


(** *** The file the compiler leaves *)

Lemma well_records_have_text repr_float df (wells : list string) (c : call) :
  In c (map snd (flat_map (well_records df) wells)) ->
  exists k, call_keyword repr_float c = Ok k.
Proof.
  intros H. apply in_map_iff in H as (e & <- & He).
  apply in_flat_map in He as (w & _ & He).
  destruct He as [<- | [<- | []]]; eexists; reflexivity.
Qed.

Lemma main_of_records repr_float df (w : sinks) (e : option exn)
      (wells : list string) :
  welltracks df = (e, flat_map (well_records df) wells) ->
  main repr_float df w
  = (e, mksinks (stdout w)
          (calls_text repr_float
             (map snd (flat_map (well_records df) wells)))).
Proof.
  intros H. unfold main. rewrite H.
  rewrite RunFacts.run_calls_complete
    by (intros c; apply well_records_have_text).
  reflexivity.
Qed.

(** X13.  The trajectory compiler opens its file before the loop, so a run
    that fails leaves a cut file behind: whatever the file held is gone,
    and it holds the Records of the wells that come before the first well
    with fewer than two rows, and nothing after them.  A run that does not
    fail leaves the Records of all the wells. *)
Theorem welltrack_file_after_failure repr_float (df : list traj_row)
        (w : sinks) :
  (forall good bad rest,
      well_names df = (good ++ bad :: rest)%list ->
      (forall x, In x good -> (2 <= List.length (df_slice_of df x))%nat) ->
      (List.length (df_slice_of df bad) < 2)%nat ->
      main repr_float df w
      = (Some (AssertionError (welltrack_msg bad)),
         mksinks (stdout w)
           (calls_text repr_float
              (map snd (flat_map (well_records df) good)))))
  /\ ((forall x,
          In x (well_names df) ->
          (2 <= List.length (df_slice_of df x))%nat) ->
      main repr_float df w
      = (None,
         mksinks (stdout w)
           (calls_text repr_float
              (map snd (flat_map (well_records df) (well_names df)))))).
Proof.
  split.
  - intros good bad rest E Hg Hb. apply main_of_records.
    unfold welltracks. fold (well_names df). rewrite E.
    now rewrite (@loop_stops df good bad rest
                   (proj2 (enough_forall df good) Hg)
                   (proj2 (enough_rows_false_iff df bad) Hb)).
  - intros H. apply main_of_records.
    unfold welltracks. fold (well_names df).
    now rewrite (loop_all_enough df _
                   (proj2 (enough_forall df _) H)).
Qed.

Lemma welltrack_file_after_failure_witness :
  main no_floats two_wells_df (mksinks "" "old")
  = (Some (AssertionError "Welltrack for well W1 is missing"),
     mksinks ""
       ("WELSPECS" ++ nl ++ "W2 K1 * * * LIQ * * * * * * * /" ++ nl ++ "/"
        ++ nl ++ nl
        ++ "WELLTRACK W2" ++ nl ++ "0 0 0 0 " ++ nl ++ "1 1 9 9 " ++ nl
        ++ "/" ++ nl ++ nl)).
Proof.
  rewrite (proj1 (welltrack_file_after_failure no_floats two_wells_df
                    (mksinks "" "old")) ["W2"] "W1" [] eq_refl).
  - reflexivity.
  - intros x [<- | []]. vm_compute. lia.
  - vm_compute. lia.
Defined.


(** *** Duplicate trajectory rows *)

Lemma ddb_keys (R : Type) (key : R -> string) (df : list R) :
  forall seen,
    NoDup (map key (drop_duplicates_by key seen df))
    /\ (forall x,
           In x (drop_duplicates_by key seen df) ->
           In x df /\ existsb (String.eqb (key x)) seen = false)
    /\ (forall x,
           In x df ->
           existsb (String.eqb (key x)) seen = true
           \/ In (key x) (map key (drop_duplicates_by key seen df))).
Proof.
  induction df as [|row df IH]; intros seen.
  - split; [constructor|]. split; intros x [].
  - cbn [drop_duplicates_by].
    destruct (existsb (String.eqb (key row)) seen) eqn:E.
    + destruct (IH seen) as (N & Hin & Hcov). split; [exact N|]. split.
      * intros x Hx. destruct (Hin x Hx). split; [now right | assumption].
      * intros x [<- | Hx]; [now left | now apply Hcov].
    + destruct (IH (key row :: seen)) as (N & Hin & Hcov).
      split; [|split].
      * cbn [map]. constructor; [|exact N].
        intros H. apply in_map_iff in H as (y & Hk & Hy).
        destruct (Hin y Hy) as [_ Hs]. cbn [existsb] in Hs.
        rewrite Hk, String.eqb_refl in Hs. discriminate Hs.
      * intros x [<- | Hx]; [split; [now left | exact E]|].
        destruct (Hin x Hx) as [Hd Hs]. cbn [existsb] in Hs.
        apply orb_false_iff in Hs as [_ Hs]. split; [now right | exact Hs].
      * intros x [<- | Hx]; [right; now left|].
        destruct (Hcov x Hx) as [Hs | Hk].
        -- cbn [existsb] in Hs. apply orb_true_iff in Hs as [Hs | Hs].
           ++ right. left. apply String.eqb_eq in Hs. now symmetry.
           ++ now left.
        -- right. now right.
Qed.

Lemma ddb_app (R : Type) (key : R -> string) (a b : list R) :
  forall seen,
    drop_duplicates_by key seen (a ++ b)
    = (drop_duplicates_by key seen a
       ++ drop_duplicates_by key
            (map key (rev (drop_duplicates_by key seen a)) ++ seen) b)%list.
Proof.
  induction a as [|x a IH]; intros seen; [reflexivity|].
  cbn [app drop_duplicates_by].
  destruct (existsb (String.eqb (key x)) seen); [apply IH|].
  cbn [app]. f_equal. rewrite IH. f_equal. f_equal.
  cbn [rev]. now rewrite map_app, <- app_assoc.
Qed.

Lemma ddb_all_seen (R : Type) (key : R -> string) (b : list R)
      (seen : list string) :
  (forall x, In x b -> existsb (String.eqb (key x)) seen = true) ->
  drop_duplicates_by key seen b = [].
Proof.
  induction b as [|x b IH]; intros H; [reflexivity|].
  cbn [drop_duplicates_by]. rewrite (H x (or_introl eq_refl)).
  apply IH. intros y Hy. apply H. now right.
Qed.

(** X14.  Trajectory rows are deduplicated on the text of the well name
    followed at once by the text of MD.  The rows kept have pairwise
    different keys and are rows of the input, each key of the input is the
    key of a kept row, and rows of the second file whose keys the first
    file has already are all dropped, which is what the script wants for a
    well present in both projects; the table the loop runs over is then
    the one of the first file alone. *)
Theorem trajectory_rows_deduplicated repr_float
        (traj_kmb_all traj_tk_all : list traj_csv) :
  NoDup (map (id_md repr_float)
             (drop_duplicates_by (id_md repr_float) []
                                 (traj_kmb_all ++ traj_tk_all)))
  /\ (forall row,
         In row (drop_duplicates_by (id_md repr_float) []
                                    (traj_kmb_all ++ traj_tk_all)) ->
         In row (traj_kmb_all ++ traj_tk_all))
  /\ (forall row,
         In row (traj_kmb_all ++ traj_tk_all) ->
         exists kept,
           In kept (drop_duplicates_by (id_md repr_float) []
                                       (traj_kmb_all ++ traj_tk_all))
           /\ id_md repr_float kept = id_md repr_float row)
  /\ ((forall row,
          In row traj_tk_all ->
          exists first,
            In first traj_kmb_all
            /\ id_md repr_float first = id_md repr_float row) ->
      drop_duplicates_by (id_md repr_float) [] (traj_kmb_all ++ traj_tk_all)
      = drop_duplicates_by (id_md repr_float) [] traj_kmb_all
      /\ forall field well_table,
           load_df repr_float field traj_kmb_all traj_tk_all well_table
           = load_df repr_float field traj_kmb_all [] well_table).
Proof.
  destruct (ddb_keys (id_md repr_float) (traj_kmb_all ++ traj_tk_all) [])
    as (N & Hin & Hcov).
  split; [exact N|]. split; [intros row Hr; now apply Hin|]. split.
  - intros row Hr. destruct (Hcov row Hr) as [Hs | Hk]; [discriminate Hs|].
    apply in_map_iff in Hk as (kept & Hk & Hkept). now exists kept.
  - intros H.
    assert (E : drop_duplicates_by (id_md repr_float) []
                                   (traj_kmb_all ++ traj_tk_all)
                = drop_duplicates_by (id_md repr_float) [] traj_kmb_all);
      [|split; [exact E|];
        intros field well_table; unfold load_df; cbv zeta;
        fold (id_md repr_float); now rewrite E, app_nil_r].
    rewrite ddb_app, app_nil_r.
    rewrite (@ddb_all_seen _ (id_md repr_float) traj_tk_all);
      [apply app_nil_r|].
    intros x Hx. destruct (H x Hx) as (first & Hf & Hk).
    destruct (ddb_keys (id_md repr_float) traj_kmb_all []) as (_ & _ & Hc).
    destruct (Hc first Hf) as [Hs | Hkk]; [discriminate Hs|].
    apply existsb_exists. exists (id_md repr_float x).
    split; [|apply String.eqb_refl].
    rewrite <- Hk, map_rev, <- in_rev. exact Hkk.
Qed.

(** The key has no separator: the row of well 12 at MD 3 has the key of the
    row of well 1 at MD 23 and is dropped as its duplicate. *)
Lemma trajectory_rows_deduplicated_witness :
  drop_duplicates_by (id_md no_floats) [] (colliding_rows ++ colliding_rows)
  = [mktrajcsv "1" (PInt 5) (PInt 6) (PInt 23) (PInt 20)]
  /\ id_md no_floats (mktrajcsv "12" (PInt 7) (PInt 8) (PInt 3) (PInt 2))
     = "123".
Proof.
  split; [|reflexivity].
  destruct (proj2 (proj2 (proj2
              (trajectory_rows_deduplicated no_floats colliding_rows
                                            colliding_rows))))
    as [E _].
  - intros row Hr. now exists row.
  - rewrite E. reflexivity.
Defined.


(** *** The joined table *)

(** X15.  The table the loop runs over holds, for every well of the well
    table in the selected field and in the order of that table, one row per
    kept trajectory row that names the well by its report name, or a single
    row without trajectory columns when none does; trajectory rows that
    name no such well are not in it.  The rows of one model name are those
    of the table wells with that name.  So a well of the field that no
    trajectory row names, and whose model name no other row of the field
    has, has a slice of one row, and the run ends with the assertion error
    of some well. *)
Theorem joined_trajectories repr_float (field : string)
        (traj_kmb_all traj_tk_all : list traj_csv)
        (well_table : list well_row) :
  load_df repr_float field traj_kmb_all traj_tk_all well_table
  = flat_map
      (joined_rows (drop_duplicates_by (id_md repr_float) []
                                       (traj_kmb_all ++ traj_tk_all)))
      (filter (fun w => String.eqb (wt_field w) field) well_table)
  /\ (forall well,
         df_slice_of
           (load_df repr_float field traj_kmb_all traj_tk_all well_table) well
         = flat_map
             (joined_rows (drop_duplicates_by (id_md repr_float) []
                                              (traj_kmb_all ++ traj_tk_all)))
             (filter (fun w => String.eqb (wt_model_name w) well)
                     (filter (fun w => String.eqb (wt_field w) field)
                             well_table)))
  /\ (forall w,
         filter (fun w' => String.eqb (wt_model_name w') (wt_model_name w))
                (filter (fun w' => String.eqb (wt_field w') field) well_table)
         = [w] ->
         (forall t,
             In t (traj_kmb_all ++ traj_tk_all) ->
             tc_well t <> wt_mer_name w) ->
         df_slice_of
           (load_df repr_float field traj_kmb_all traj_tk_all well_table)
           (wt_model_name w)
         = [mktrajrow None w]
         /\ exists bad,
              fst (welltracks
                     (load_df repr_float field traj_kmb_all traj_tk_all
                              well_table))
              = Some (AssertionError (welltrack_msg bad))).
Proof.
  set (kept := drop_duplicates_by (id_md repr_float) []
                                  (traj_kmb_all ++ traj_tk_all)).
  assert (L : load_df repr_float field traj_kmb_all traj_tk_all well_table
              = flat_map (joined_rows kept)
                  (filter (fun w => String.eqb (wt_field w) field)
                          well_table)).
  { unfold load_df. cbv zeta. fold (id_md repr_float). fold kept.
    rewrite merged_rows.
    apply (filter_joined_rows kept
             (fun w => String.eqb (wt_field w) field)). }
  assert (S : forall well,
             df_slice_of
               (load_df repr_float field traj_kmb_all traj_tk_all well_table)
               well
             = flat_map (joined_rows kept)
                 (filter (fun w => String.eqb (wt_model_name w) well)
                         (filter (fun w => String.eqb (wt_field w) field)
                                 well_table))).
  { intros well. rewrite L. unfold df_slice_of.
    apply (filter_joined_rows kept
             (fun w => String.eqb (wt_model_name w) well)). }
  split; [exact L|]. split; [exact S|].
  intros w Hw Hno.
  assert (One : df_slice_of
                  (load_df repr_float field traj_kmb_all traj_tk_all
                           well_table) (wt_model_name w)
                = [mktrajrow None w]).
  { rewrite S, Hw. cbn [flat_map]. rewrite app_nil_r. unfold joined_rows.
    destruct (filter (fun t => String.eqb (tc_well t) (wt_mer_name w)) kept)
      as [|t ms] eqn:F; [reflexivity|].
    exfalso.
    assert (Ht : In t (filter (fun t => String.eqb (tc_well t) (wt_mer_name w))
                              kept)) by (rewrite F; now left).
    apply filter_In in Ht as [Ht Hn]. apply String.eqb_eq in Hn.
    destruct (ddb_keys (id_md repr_float) (traj_kmb_all ++ traj_tk_all) [])
      as (_ & Hin & _).
    apply (Hno t); [now apply Hin | exact Hn]. }
  split; [exact One|].
  set (df := load_df repr_float field traj_kmb_all traj_tk_all well_table)
    in *.
  unfold welltracks. fold (well_names df).
  destruct (first_failure (enough_rows df) (well_names df))
    as [Hall | (good & bad & rest & E & Hg & Hb)].
  - exfalso.
    assert (Hin : In (wt_model_name w) (well_names df)).
    { unfold well_names. rewrite unique_in, in_map_iff.
      exists (mktrajrow None w). split; [reflexivity|].
      assert (Hs : In (mktrajrow None w) (df_slice_of df (wt_model_name w)))
        by (rewrite One; now left).
      unfold df_slice_of in Hs. now apply filter_In in Hs as [Hs _]. }
    rewrite forallb_forall in Hall. specialize (Hall _ Hin).
    apply enough_rows_iff in Hall. rewrite One in Hall. cbn in Hall. lia.
  - exists bad. rewrite E, (@loop_stops df good bad rest Hg Hb). reflexivity.
Qed.

Lemma joined_trajectories_witness :
  df_slice_of
    (load_df no_floats "F" second_well_points [] [second_well; sample_well])
    "W1"
  = [mktrajrow None sample_well]
  /\ exists bad,
       fst (welltracks
              (load_df no_floats "F" second_well_points []
                       [second_well; sample_well]))
       = Some (AssertionError (welltrack_msg bad)).
Proof.
  apply (proj2 (proj2
           (joined_trajectories no_floats "F" second_well_points []
                                [second_well; sample_well]))
           sample_well).
  - reflexivity.
  - intros t [<- | [<- | []]]; discriminate.
Defined.

End WelltrackMore.
